(** * Reversi: the board of [lib/board.js]

    A shallow embedding of [Board] and of its move-legality logic, followed
    by the properties of the board that are established on it.

    Reading guide.
    - The methods of [Board] read and write [this.grid]; they are embedded in
      a state-and-error monad [M] over the board, so that "what a call
      returns or throws" and "what it leaves in the grid" are both visible.
    - [_positionsToFlip] is a general recursion (the next position is not a
      sub-term of the current one); it is embedded with a bound [fuel] on the
      depth of the recursion and the explicit outcome [OutOfFuel].  Section
      "Termination" shows that a depth of 9 is never exceeded, and that a
      depth of 8 is never exceeded for the rays cast by [validMove] and
      [placePiece].
    - A [Piece] is a mutable object.  In the first embedding a cell holds
      the piece itself and a reference to a piece is the position of the cell
      that owns it, so that [piece.flip()] is an update of the piece in that
      cell.  Module [Obj] embeds the same methods with the pieces as objects
      of a store and the array assignment of JavaScript; it is there that the
      grid is shown to stay 8 by 8 and every piece to stay, alone, in the
      cell it was put in, and section "The two embeddings agree" shows that
      the boards of the two embeddings correspond along every sequence of
      calls. *)

From Stdlib Require Import ZArith String List Bool Lia Sorted.
From stdpp Require Import base list strings.

Local Open Scope string_scope.
Local Open Scope list_scope.
Local Open Scope Z_scope.

(** ** Data model *)

(** A position [[row, col]] and a direction [[drow, dcol]] are two-element
    arrays of numbers. *)
Abbreviation Pos := (Z * Z)%type.

Module Piece.

(** Modelled from the spec: [lib/piece.js] is not among the sources.  A
    piece is a token with one mutable field, its colour (one of the tags
    "white" and "black"), set by the constructor. *)
Record t := new { color : string }.

(** Modelled from the spec: [flip] toggles the colour of a piece from one
    player's colour to the other's.  The spec says nothing of a piece
    whose tag is neither "white" nor "black"; such a piece is left as it
    is here, and no statement below relies on that. *)
Definition flip (p : t) : t :=
  if String.eqb (color p) "white" then new "black"
  else if String.eqb (color p) "black" then new "white"
  else p.

End Piece.

Abbreviation Piece := Piece.t.
Abbreviation Grid := (list (list (option Piece))).

(** [null] is [None]. *)
Definition _makeGrid : Grid :=
  let null : option Piece := None in
  let white := Some (Piece.new "white") in
  let black := Some (Piece.new "black") in
  [ [null; null; null; null;  null;  null; null; null];
    [null; null; null; null;  null;  null; null; null];
    [null; null; null; null;  null;  null; null; null];
    [null; null; null; white; black; null; null; null];
    [null; null; null; black; white; null; null; null];
    [null; null; null; null;  null;  null; null; null];
    [null; null; null; null;  null;  null; null; null];
    [null; null; null; null;  null;  null; null; null] ].

Record Board := mkBoard { grid : Grid }.

(** [new Board()] *)
Definition Board_new : Board := mkBoard _makeGrid.

Definition DIRS : list Pos :=
  [ ( 0,  1); ( 1,  1); ( 1,  0);
    ( 1, -1); ( 0, -1); (-1, -1);
    (-1,  0); (-1,  1) ].

(** ** Array accesses *)

(** [a[i]] for a number [i]: an index that is negative or past the end is
    not an element of the array. *)
Definition index {A : Type} (a : list A) (i : Z) : option A :=
  if i <? 0 then None else a !! Z.to_nat i.

(** [grid[row][col]].  Every grid of a board is 8 by 8 ([wf_grid] below) and
    [getPiece] is the only reader, behind its check of the position, so the
    access always finds an element; where it would not, the embedding reads
    [null]. *)
Definition readCell (g : Grid) (pos : Pos) : option Piece :=
  match index g pos.1 with
  | Some r => match index r pos.2 with Some c => c | None => None end
  | None => None
  end.

(** [grid[row][col] = v], for a position of the grid. *)
Definition writeCell (g : Grid) (pos : Pos) (v : option Piece) : Grid :=
  alter (fun r => <[Z.to_nat pos.2 := v]> r) (Z.to_nat pos.1) g.

Definition wf_grid (g : Grid) : Prop :=
  length g = 8%nat /\ Forall (fun r => length r = 8%nat) g.

Definition wf_board (b : Board) : Prop := wf_grid (grid b).

(** ** The monad of the methods *)

Inductive error : Type :=
  | NotValidPos   (* Error("Not valid pos!") *)
  | InvalidMove   (* Error('Invalid Move') *)
  | TypeError.    (* a property read or a method call on null *)

Inductive outcome (A : Type) : Type :=
  | Ret (a : A)
  | Throw (e : error)
  | OutOfFuel.

Arguments Ret {A} a.
Arguments Throw {A} e.
Arguments OutOfFuel {A}.

(** A computation is run on a board and gives an outcome and the board it
    leaves; what was written before a [throw] stays written. *)
Definition M (A : Type) : Type := Board -> outcome A * Board.

Definition ret {A : Type} (a : A) : M A := fun b => (Ret a, b).

Definition throw {A : Type} (e : error) : M A := fun b => (Throw e, b).

Definition bind {A B : Type} (m : M A) (k : A -> M B) : M B :=
  fun b =>
    match m b with
    | (Ret a, b') => k a b'
    | (Throw e, b') => (Throw e, b')
    | (OutOfFuel, b') => (OutOfFuel, b')
    end.

Definition getGrid : M Grid := fun b => (Ret (grid b), b).

Definition setGrid (g : Grid) : M unit := fun _ => (Ret tt, mkBoard g).

Declare Scope board_scope.
Delimit Scope board_scope with board.
Notation "x <- m ;; k" := (bind m (fun x => k))
  (at level 100, m at next level, right associativity) : board_scope.
Notation "m ;;; k" := (bind m (fun _ => k))
  (at level 100, right associativity) : board_scope.
Local Open Scope board_scope.

(** [l.forEach(f)] where the callback updates a local variable of the
    enclosing function: the variable is threaded as [acc]. *)
Fixpoint forEach {A S : Type} (l : list A) (f : S -> A -> M S) (acc : S) : M S :=
  match l with
  | [] => ret acc
  | x :: l' => acc' <- f acc x ;; forEach l' f acc'
  end.

(** ** The methods of [Board] *)

Definition isValidPos (pos : Pos) : M bool :=
  let row := pos.1 in
  let col := pos.2 in
  ret ((row >=? 0) && (row <=? 7) && (col >=? 0) && (col <=? 7)).

Definition getPiece (pos : Pos) : M (option Piece) :=
  v <- isValidPos pos ;;
  if negb v then throw NotValidPos
  else
    g <- getGrid ;;
    ret (readCell g pos).

Definition isMine (pos : Pos) (color : string) : M bool :=
  p <- getPiece pos ;;
  match p with
  | None => ret false
  | Some _ =>
      p' <- getPiece pos ;;
      match p' with
      | Some piece => ret (String.eqb (Piece.color piece) color)
      | None => throw TypeError
      end
  end.

Definition isOccupied (pos : Pos) : M bool :=
  p <- getPiece pos ;;
  ret (match p with None => false | Some _ => true end).

(** The accumulator [piecesToFlip] holds references to pieces of the grid,
    that is, the positions of their cells. *)
Fixpoint _positionsToFlip (fuel : nat) (pos : Pos) (color : string) (dir : Pos)
    (piecesToFlip : list Pos) : M (option (list Pos)) :=
  match fuel with
  | O => fun b => (OutOfFuel, b)
  | S fuel' =>
      v <- isValidPos pos ;;
      if negb v then ret None
      else
        mine <- isMine pos color ;;
        if mine then
          if (length piecesToFlip =? 0)%nat then ret None
          else ret (Some piecesToFlip)
        else
          occ <- isOccupied pos ;;
          if negb occ then ret None
          else
            _ <- getPiece pos ;;
            let piecesToFlip := piecesToFlip ++ [pos] in
            let next_pos := (pos.1 + dir.1, pos.2 + dir.2) in
            _positionsToFlip fuel' next_pos color dir piecesToFlip
  end.

Definition validMove (fuel : nat) (pos : Pos) (color : string) : M bool :=
  v <- isValidPos pos ;;
  if negb v then ret false
  else
    occ <- isOccupied pos ;;
    if occ then ret false
    else
      forEach DIRS (fun valid dir =>
        let next_pos := (pos.1 + dir.1, pos.2 + dir.2) in
        pieces <- _positionsToFlip fuel next_pos color dir [] ;;
        match pieces with
        | Some _ => ret true
        | None => ret valid
        end) false.

(** [piece.flip()] through the reference [ref]. *)
Definition flipPiece (ref : Pos) : M unit :=
  g <- getGrid ;;
  match readCell g ref with
  | Some piece => setGrid (writeCell g ref (Some (Piece.flip piece)))
  | None => throw TypeError
  end.

Definition placePiece (fuel : nat) (pos : Pos) (color : string) : M unit :=
  v <- validMove fuel pos color ;;
  if negb v then throw InvalidMove
  else
    g <- getGrid ;;
    setGrid (writeCell g pos (Some (Piece.new color))) ;;;
    pieces <- forEach DIRS (fun pieces dir =>
      let next_pos := (pos.1 + dir.1, pos.2 + dir.2) in
      pieces_to_concat <- _positionsToFlip fuel next_pos color dir [] ;;
      match pieces_to_concat with
      | Some l => ret (pieces ++ l)
      | None => ret pieces
      end) [] ;;
    forEach pieces (fun _ piece => flipPiece piece) tt.

Definition print : M unit := ret tt.

Definition validMoves (fuel : nat) (color : string) : M (list Pos) :=
  forEach (seqZ 0 8) (fun moves i =>
    forEach (seqZ 0 8) (fun moves j =>
      v <- validMove fuel (i, j) color ;;
      if v then ret (moves ++ [(i, j)]) else ret moves) moves) [].

Definition hasMove (fuel : nat) (color : string) : M bool :=
  moves <- validMoves fuel color ;;
  ret (negb (length moves =? 0)%nat).

(** [!this.hasMove("white") && !this.hasMove("black")]: the right operand is
    evaluated only when the left one is true. *)
Definition isOver (fuel : nat) : M bool :=
  w <- hasMove fuel "white" ;;
  if negb w then
    k <- hasMove fuel "black" ;;
    ret (negb k)
  else ret false.

(** ** Vocabulary of the statements *)

(** The test of [isValidPos], as a function of the position alone. *)
Definition onBoard (pos : Pos) : bool :=
  (pos.1 >=? 0) && (pos.1 <=? 7) && (pos.2 >=? 0) && (pos.2 <=? 7).

(** The colour test that [isMine] makes on a cell. *)
Definition sameColor (c : option Piece) (color : string) : bool :=
  match c with
  | Some piece => String.eqb (Piece.color piece) color
  | None => false
  end.

Definition occupied (c : option Piece) : bool :=
  match c with Some _ => true | None => false end.

(** One step from [pos] along [dir]. *)
Definition step (pos dir : Pos) : Pos := (pos.1 + dir.1, pos.2 + dir.2).

(** The outcome of a scan, as a function of the grid. *)
Definition scan (fuel : nat) (g : Grid) (pos : Pos) (color : string) (dir : Pos)
    (acc : list Pos) : outcome (option (list Pos)) :=
  fst (_positionsToFlip fuel pos color dir acc (mkBoard g)).

(** The number of cells of the board that lie beyond [pos] along [dir],
    counted on the first coordinate in which [dir] moves. *)
Definition room (pos dir : Pos) : Z :=
  if dir.1 >? 0 then 7 - pos.1
  else if dir.1 <? 0 then pos.1
  else if dir.2 >? 0 then 7 - pos.2
  else pos.2.

(** The [n] positions [pos], [pos + dir], ..., [pos + (n-1) dir]. *)
Fixpoint ray (pos dir : Pos) (n : nat) : list Pos :=
  match n with
  | O => []
  | S n' => pos :: ray (step pos dir) dir n'
  end.

(** The flip-list of the ray cast from [pos] along [dir]: what
    [_positionsToFlip(board, pos + dir, color, dir, [])] returns, [None]
    being [null]. *)
Definition flipList (fuel : nat) (g : Grid) (pos : Pos) (color : string) (dir : Pos)
    : option (list Pos) :=
  match scan fuel g (step pos dir) color dir [] with
  | Ret r => r
  | _ => None
  end.

(** The three conditions of a legal move. *)
Definition legal (fuel : nat) (g : Grid) (pos : Pos) (color : string) : bool :=
  onBoard pos && negb (occupied (readCell g pos)) &&
  existsb (fun dir => match flipList fuel g pos color dir with
                      | Some l => negb (length l =? 0)%nat
                      | None => false
                      end) DIRS.

(** The 64 cells, row 0 to 7 and in each row column 0 to 7. *)
Definition allCells : list Pos :=
  flat_map (fun i => map (fun j => (i, j)) (seqZ 0 8)) (seqZ 0 8).

(** Row-major order on positions. *)
Definition rowMajorLt (p q : Pos) : Prop :=
  p.1 < q.1 \/ (p.1 = q.1 /\ p.2 < q.2).

(** [validMove(pos, color)] returned [true]. *)
Definition validMoveHolds (fuel : nat) (b : Board) (color : string) (pos : Pos) : bool :=
  match fst (validMove fuel pos color b) with
  | Ret true => true
  | _ => false
  end.

(** The concatenation, in the order of [DIRS], of the non-null flip-lists of
    the rays cast from [pos]. *)
Definition flipLists (fuel : nat) (g : Grid) (pos : Pos) (color : string) : list Pos :=
  flat_map (fun dir => match flipList fuel g pos color dir with
                       | Some l => l
                       | None => []
                       end) DIRS.

(** [pos + k dir] *)
Definition along (pos dir : Pos) (k : Z) : Pos :=
  (pos.1 + k * dir.1, pos.2 + k * dir.2).

(** ** Sequences of calls *)

Inductive call : Type :=
  | CallGetPiece (pos : Pos)
  | CallHasMove (color : string)
  | CallIsMine (pos : Pos) (color : string)
  | CallIsOccupied (pos : Pos)
  | CallIsOver
  | CallIsValidPos (pos : Pos)
  | CallPlacePiece (pos : Pos) (color : string)
  | CallPrint
  | CallValidMove (pos : Pos) (color : string)
  | CallValidMoves (color : string).

(** The board that a call leaves, whether it returns or throws. *)
Definition perform (fuel : nat) (b : Board) (c : call) : Board :=
  match c with
  | CallGetPiece pos => snd (getPiece pos b)
  | CallHasMove color => snd (hasMove fuel color b)
  | CallIsMine pos color => snd (isMine pos color b)
  | CallIsOccupied pos => snd (isOccupied pos b)
  | CallIsOver => snd (isOver fuel b)
  | CallIsValidPos pos => snd (isValidPos pos b)
  | CallPlacePiece pos color => snd (placePiece fuel pos color b)
  | CallPrint => snd (print b)
  | CallValidMove pos color => snd (validMove fuel pos color b)
  | CallValidMoves color => snd (validMoves fuel color b)
  end.

Definition performAll (fuel : nat) (b : Board) (cs : list call) : Board :=
  fold_left (perform fuel) cs b.

(** What a call keeps of the board it is made on: the grid stays 8 by 8,
    and a cell that holds a piece still holds that piece, flipped some
    number of times. *)
Definition keeps (b b' : Board) : Prop :=
  wf_board b' /\
  forall q piece, readCell (grid b) q = Some piece ->
    exists n : nat, readCell (grid b') q = Some (Nat.iter n Piece.flip piece).

(** The grid after black has played [[2, 3]] on the initial board. *)
Definition gridAfterBlack_2_3 : Grid :=
  let null : option Piece := None in
  let white := Some (Piece.new "white") in
  let black := Some (Piece.new "black") in
  [ [null; null; null; null;  null;  null; null; null];
    [null; null; null; null;  null;  null; null; null];
    [null; null; null; black; null;  null; null; null];
    [null; null; null; black; black; null; null; null];
    [null; null; null; black; white; null; null; null];
    [null; null; null; null;  null;  null; null; null];
    [null; null; null; null;  null;  null; null; null];
    [null; null; null; null;  null;  null; null; null] ].

(** The pieces that [placePiece(pos, color)] gathers on [b]: the
    concatenation over [DIRS] of the non-null results of
    [_positionsToFlip(b, pos + dir, color, dir, [])]. *)
Definition gathered (fuel : nat) (b : Board) (pos : Pos) (color : string) : list Pos :=
  flat_map (fun dir =>
    match fst (_positionsToFlip fuel (step pos dir) color dir [] b) with
    | Ret (Some l) => l
    | _ => []
    end) DIRS.

(** ** Vocabulary of the further properties *)

(** The number of cells of the board that hold a piece. *)
Definition pieceCount (b : Board) : nat :=
  length (List.filter (fun pos => occupied (readCell (grid b) pos)) allCells).

(** Whether the call [c], made on [b], is a [placePiece] that returned. *)
Definition placed (fuel : nat) (b : Board) (c : call) : bool :=
  match c with
  | CallPlacePiece pos color =>
      match fst (placePiece fuel pos color b) with
      | Ret _ => true
      | _ => false
      end
  | _ => false
  end.

(** The number of calls of [placePiece] that returned, along a sequence of
    calls made one after the other from [b]. *)
Fixpoint placements (fuel : nat) (b : Board) (cs : list call) : nat :=
  match cs with
  | [] => 0%nat
  | c :: cs' =>
      ((if placed fuel b c then 1 else 0) + placements fuel (perform fuel b c) cs')%nat
  end.

(** [q] is on the row, the column or one of the two diagonals of [pos]. *)
Definition onLine (pos q : Pos) : Prop :=
  q.1 = pos.1 \/ q.2 = pos.2 \/
  q.1 - pos.1 = q.2 - pos.2 \/ q.1 - pos.1 = pos.2 - q.2.

(** A call whose colour argument, if it has one, is "white" or "black". *)
Definition twoPlayer (c : call) : Prop :=
  match c with
  | CallPlacePiece _ color => color = "white" \/ color = "black"
  | _ => True
  end.

(** ** The board with its pieces as objects

    The embedding above is enough for what the board reads and returns.
    Two things it takes from the representation: a grid write cannot change
    the length of an array, and a piece is only a colour.  The embedding of
    this module keeps both in sight: the grid holds JavaScript values
    ([undefined], [null] or a reference to a [Piece] object), the pieces live
    in a store of objects where [new Piece] allocates and [piece.flip()]
    updates, and an array assignment past the end makes the array longer,
    as it does in JavaScript.  The methods are embedded from the same
    source lines. *)

Module Obj.

(** What a cell of the grid, or an access to it, can give. *)
Inductive value : Type :=
  | Undefined
  | Null
  | Ref (l : nat).   (* the Piece object number [l] of the store *)

(** The board: [this.grid], and the [Piece] objects created so far, in the
    order of their creation. *)
Record Board := mkBoard { grid : list (list value); pieces : list Piece }.

Definition M (A : Type) : Type := Board -> outcome A * Board.

Definition ret {A : Type} (a : A) : M A := fun b => (Ret a, b).

Definition throw {A : Type} (e : error) : M A := fun b => (Throw e, b).

Definition bind {A B : Type} (m : M A) (k : A -> M B) : M B :=
  fun b =>
    match m b with
    | (Ret a, b') => k a b'
    | (Throw e, b') => (Throw e, b')
    | (OutOfFuel, b') => (OutOfFuel, b')
    end.

Definition getGrid : M (list (list value)) := fun b => (Ret (grid b), b).

Definition setGrid (g : list (list value)) : M unit :=
  fun b => (Ret tt, mkBoard g (pieces b)).

Declare Scope obj_scope.
Delimit Scope obj_scope with obj.
Notation "x <- m ;; k" := (bind m (fun x => k))
  (at level 100, m at next level, right associativity) : obj_scope.
Notation "m ;;; k" := (bind m (fun _ => k))
  (at level 100, right associativity) : obj_scope.
Local Open Scope obj_scope.

Fixpoint forEach {A S : Type} (l : list A) (f : S -> A -> M S) (acc : S) : M S :=
  match l with
  | [] => ret acc
  | x :: l' => acc' <- f acc x ;; forEach l' f acc'
  end.

(** [new Piece(color)]: a fresh object, referred to by its number. *)
Definition newPiece (color : string) : M value :=
  fun b => (Ret (Ref (length (pieces b))),
            mkBoard (grid b) (pieces b ++ [Piece.new color])).

(** [piece.color] *)
Definition colorOf (piece : value) : M string :=
  match piece with
  | Ref l =>
      fun b => match pieces b !! l with
               | Some p => (Ret (Piece.color p), b)
               | None => (Throw TypeError, b)   (* no such object: never met *)
               end
  | Undefined | Null => throw TypeError
  end.

(** [piece.flip()] *)
Definition flip (piece : value) : M unit :=
  match piece with
  | Ref l =>
      fun b => match pieces b !! l with
               | Some p => (Ret tt, mkBoard (grid b) (<[l := Piece.flip p]> (pieces b)))
               | None => (Throw TypeError, b)   (* no such object: never met *)
               end
  | Undefined | Null => throw TypeError
  end.

(** [a[i] = v] on an array: an element within the array is replaced; past
    the end the array grows up to index [i], the elements in between being
    holes, which read [undefined]; a negative [i] is not an element. *)
Definition assign (a : list value) (i : Z) (v : value) : list value :=
  if i <? 0 then a
  else if (Z.to_nat i <? length a)%nat then <[Z.to_nat i := v]> a
  else a ++ replicate (Z.to_nat i - length a) Undefined ++ [v].

(** [a[i]] where an element that is not there reads [undefined]. *)
Definition read (a : list value) (i : Z) : value :=
  match index a i with
  | Some v => v
  | None => Undefined
  end.

Definition _makeGrid : M (list (list value)) :=
  w33 <- newPiece "white" ;;
  b34 <- newPiece "black" ;;
  b43 <- newPiece "black" ;;
  w44 <- newPiece "white" ;;
  let null := Null in
  ret [ [null; null; null; null; null; null; null; null];
        [null; null; null; null; null; null; null; null];
        [null; null; null; null; null; null; null; null];
        [null; null; null; w33;  b34;  null; null; null];
        [null; null; null; b43;  w44;  null; null; null];
        [null; null; null; null; null; null; null; null];
        [null; null; null; null; null; null; null; null];
        [null; null; null; null; null; null; null; null] ].

(** The constructor [Board], run where no piece exists yet. *)
Definition Board_new : Board :=
  snd ((g <- _makeGrid ;; setGrid g) (mkBoard [] [])).

Definition isValidPos (pos : Pos) : M bool :=
  let row := pos.1 in
  let col := pos.2 in
  ret ((row >=? 0) && (row <=? 7) && (col >=? 0) && (col <=? 7)).

(** [this.grid[row][col]]: reading an element of [undefined] is a
    TypeError. *)
Definition getPiece (pos : Pos) : M value :=
  v <- isValidPos pos ;;
  if negb v then throw NotValidPos
  else
    let row := pos.1 in
    let col := pos.2 in
    g <- getGrid ;;
    match index g row with
    | Some r => ret (read r col)
    | None => throw TypeError
    end.

(** [x == null] holds of [null] and of [undefined]. *)
Definition isMine (pos : Pos) (color : string) : M bool :=
  p <- getPiece pos ;;
  match p with
  | Undefined | Null => ret false
  | Ref _ =>
      p' <- getPiece pos ;;
      c <- colorOf p' ;;
      ret (String.eqb c color)
  end.

(** [x !== null] fails of [null] only. *)
Definition isOccupied (pos : Pos) : M bool :=
  p <- getPiece pos ;;
  ret (match p with Null => false | Undefined | Ref _ => true end).

Fixpoint _positionsToFlip (fuel : nat) (pos : Pos) (color : string) (dir : Pos)
    (piecesToFlip : list value) : M (option (list value)) :=
  match fuel with
  | O => fun b => (OutOfFuel, b)
  | S fuel' =>
      v <- isValidPos pos ;;
      if negb v then ret None
      else
        mine <- isMine pos color ;;
        if mine then
          if (length piecesToFlip =? 0)%nat then ret None
          else ret (Some piecesToFlip)
        else
          occ <- isOccupied pos ;;
          if negb occ then ret None
          else
            piece <- getPiece pos ;;
            let piecesToFlip := piecesToFlip ++ [piece] in
            let next_pos := (pos.1 + dir.1, pos.2 + dir.2) in
            _positionsToFlip fuel' next_pos color dir piecesToFlip
  end.

Definition validMove (fuel : nat) (pos : Pos) (color : string) : M bool :=
  v <- isValidPos pos ;;
  if negb v then ret false
  else
    occ <- isOccupied pos ;;
    if occ then ret false
    else
      forEach DIRS (fun valid dir =>
        let next_pos := (pos.1 + dir.1, pos.2 + dir.2) in
        pieces <- _positionsToFlip fuel next_pos color dir [] ;;
        match pieces with
        | Some _ => ret true
        | None => ret valid
        end) false.

(** [this.grid[row][col] = new Piece(color)]: the row is looked up, the
    piece is created, and the element of the row is assigned. *)
Definition placePiece (fuel : nat) (pos : Pos) (color : string) : M unit :=
  v <- validMove fuel pos color ;;
  if negb v then throw InvalidMove
  else
    let row := pos.1 in
    let col := pos.2 in
    g <- getGrid ;;
    match index g row with
    | None => throw TypeError
    | Some r =>
        piece <- newPiece color ;;
        setGrid (<[Z.to_nat row := assign r col piece]> g) ;;;
        pieces <- forEach DIRS (fun pieces dir =>
          let next_pos := (pos.1 + dir.1, pos.2 + dir.2) in
          pieces_to_concat <- _positionsToFlip fuel next_pos color dir [] ;;
          match pieces_to_concat with
          | Some l => ret (pieces ++ l)
          | None => ret pieces
          end) [] ;;
        forEach pieces (fun _ piece => flip piece) tt
    end.

Definition print : M unit := ret tt.

Definition validMoves (fuel : nat) (color : string) : M (list Pos) :=
  forEach (seqZ 0 8) (fun moves i =>
    forEach (seqZ 0 8) (fun moves j =>
      v <- validMove fuel (i, j) color ;;
      if v then ret (moves ++ [(i, j)]) else ret moves) moves) [].

Definition hasMove (fuel : nat) (color : string) : M bool :=
  moves <- validMoves fuel color ;;
  ret (negb (length moves =? 0)%nat).

Definition isOver (fuel : nat) : M bool :=
  w <- hasMove fuel "white" ;;
  if negb w then
    k <- hasMove fuel "black" ;;
    ret (negb k)
  else ret false.

(** The board that a call leaves, whether it returns or throws. *)
Definition perform (fuel : nat) (b : Board) (c : call) : Board :=
  match c with
  | CallGetPiece pos => snd (getPiece pos b)
  | CallHasMove color => snd (hasMove fuel color b)
  | CallIsMine pos color => snd (isMine pos color b)
  | CallIsOccupied pos => snd (isOccupied pos b)
  | CallIsOver => snd (isOver fuel b)
  | CallIsValidPos pos => snd (isValidPos pos b)
  | CallPlacePiece pos color => snd (placePiece fuel pos color b)
  | CallPrint => snd (print b)
  | CallValidMove pos color => snd (validMove fuel pos color b)
  | CallValidMoves color => snd (validMoves fuel color b)
  end.

Definition performAll (fuel : nat) (b : Board) (cs : list call) : Board :=
  fold_left (perform fuel) cs b.

(** [grid[row][col]] without the check of the position. *)
Definition readCell (b : Board) (pos : Pos) : value :=
  match index (grid b) pos.1 with
  | Some r => read r pos.2
  | None => Undefined
  end.

(** The grid is 8 by 8. *)
Definition shape (b : Board) : Prop :=
  length (grid b) = 8%nat /\ Forall (fun r => length r = 8%nat) (grid b).

(** Every cell of the grid holds [null] or a piece of the store, and no
    piece is in two cells. *)
Definition owned (b : Board) : Prop :=
  (forall pos, onBoard pos = true ->
     readCell b pos = Null \/
     exists l, readCell b pos = Ref l /\ (l < length (pieces b))%nat) /\
  (forall pos pos' l, readCell b pos = Ref l -> readCell b pos' = Ref l -> pos = pos').

(** What a call keeps of the board [b] it is made on, [b'] being the board
    it leaves: no piece is removed from the store or replaced in it by
    anything but itself flipped some number of times, and a cell that holds
    a piece holds that same piece. *)
Definition keeps (b b' : Board) : Prop :=
  (forall l p, pieces b !! l = Some p ->
     exists n : nat, pieces b' !! l = Some (Nat.iter n Piece.flip p)) /\
  (forall pos l, readCell b pos = Ref l -> readCell b' pos = Ref l).

End Obj.

(** ** From objects to values *)

(** What a cell of the first embedding holds where the grid of objects
    holds [v]: the piece that [v] refers to, if it is a reference. *)
Definition cellOf (ps : list Piece) (v : Obj.value) : option Piece :=
  match v with
  | Obj.Ref l => ps !! l
  | Obj.Undefined | Obj.Null => None
  end.

(** The board of the first embedding that a board with objects stands
    for. *)
Definition erase (b : Obj.Board) : Board :=
  mkBoard (fmap (M := list) (fmap (M := list) (cellOf (Obj.pieces b))) (Obj.grid b)).

(** Two outcomes that differ by the representation of their results only. *)
Definition related {A B : Type} (R : A -> B -> Prop) (o : outcome A) (o' : outcome B)
    : Prop :=
  match o, o' with
  | Ret a, Ret a' => R a a'
  | Throw e, Throw e' => e = e'
  | OutOfFuel, OutOfFuel => True
  | _, _ => False
  end.

(** The references that a board holds at a list of positions. *)
Definition refsAt (b : Obj.Board) (l : list Pos) : list Obj.value :=
  fmap (M := list) (Obj.readCell b) l.

Definition sameFlips (b : Obj.Board) (r : option (list Pos))
    (r' : option (list Obj.value)) : Prop :=
  match r, r' with
  | Some l, Some l' => l' = refsAt b l
  | None, None => True
  | _, _ => False
  end.

(** ** What the queries read *)


Lemma onBoard_spec (pos : Pos) :
  onBoard pos = true <-> 0 <= pos.1 <= 7 /\ 0 <= pos.2 <= 7.
Proof. unfold onBoard. destruct pos as [r c]; simpl. lia. Qed.

Lemma onBoard_false (pos : Pos) :
  onBoard pos = false <-> ~ (0 <= pos.1 <= 7 /\ 0 <= pos.2 <= 7).
Proof.
  rewrite <- onBoard_spec. destruct (onBoard pos); split; intros; congruence.
Qed.

Lemma isValidPos_run (pos : Pos) (b : Board) :
  isValidPos pos b = (Ret (onBoard pos), b).
Proof. reflexivity. Qed.

Lemma getPiece_run (pos : Pos) (b : Board) :
  getPiece pos b =
  if onBoard pos then (Ret (readCell (grid b) pos), b) else (Throw NotValidPos, b).
Proof.
  unfold getPiece, bind. rewrite isValidPos_run.
  destruct (onBoard pos); reflexivity.
Qed.


Lemma isMine_run (pos : Pos) (color : string) (b : Board) :
  isMine pos color b =
  if onBoard pos then (Ret (sameColor (readCell (grid b) pos) color), b)
  else (Throw NotValidPos, b).
Proof.
  unfold isMine, bind. rewrite getPiece_run.
  destruct (onBoard pos) eqn:Hv; [|reflexivity].
  destruct (readCell (grid b) pos) eqn:Hc; [|reflexivity].
  rewrite getPiece_run, Hv, Hc. reflexivity.
Qed.

Lemma isOccupied_run (pos : Pos) (b : Board) :
  isOccupied pos b =
  if onBoard pos then (Ret (occupied (readCell (grid b) pos)), b)
  else (Throw NotValidPos, b).
Proof.
  unfold isOccupied, bind. rewrite getPiece_run.
  destruct (onBoard pos); reflexivity.
Qed.


Lemma positionsToFlip_S (fuel : nat) (pos : Pos) (color : string) (dir : Pos)
    (acc : list Pos) (b : Board) :
  _positionsToFlip (S fuel) pos color dir acc b =
  if onBoard pos then
    match readCell (grid b) pos with
    | None => (Ret None, b)
    | Some piece =>
        if String.eqb (Piece.color piece) color then
          (Ret (match acc with [] => None | _ => Some acc end), b)
        else _positionsToFlip fuel (step pos dir) color dir (acc ++ [pos]) b
    end
  else (Ret None, b).
Proof.
  cbn [_positionsToFlip]. unfold bind at 1. rewrite isValidPos_run.
  destruct (onBoard pos) eqn:Hv; [|reflexivity]. cbn [negb].
  unfold bind at 1. rewrite isMine_run, Hv.
  destruct (readCell (grid b) pos) as [piece|] eqn:Hc; cbn [sameColor].
  - destruct (String.eqb (Piece.color piece) color).
    + destruct acc; reflexivity.
    + unfold bind at 1. rewrite isOccupied_run, Hv, Hc. cbn [occupied negb].
      unfold bind at 1. rewrite getPiece_run, Hv. reflexivity.
  - unfold bind at 1. rewrite isOccupied_run, Hv, Hc. reflexivity.
Qed.

(** A scan reads the grid and leaves the board as it found it. *)
Lemma positionsToFlip_frame (fuel : nat) :
  forall (pos : Pos) (color : string) (dir : Pos) (acc : list Pos) (b : Board),
    snd (_positionsToFlip fuel pos color dir acc b) = b.
Proof.
  induction fuel as [|fuel IH]; intros pos color dir acc b; [reflexivity|].
  rewrite positionsToFlip_S.
  destruct (onBoard pos); [|reflexivity].
  destruct (readCell (grid b) pos) as [piece|]; [|reflexivity].
  destruct (String.eqb (Piece.color piece) color); [reflexivity|apply IH].
Qed.


Lemma positionsToFlip_run (fuel : nat) (pos : Pos) (color : string) (dir : Pos)
    (acc : list Pos) (b : Board) :
  _positionsToFlip fuel pos color dir acc b = (scan fuel (grid b) pos color dir acc, b).
Proof.
  unfold scan. destruct b as [g]; cbn [grid].
  rewrite (surjective_pairing (_positionsToFlip fuel pos color dir acc (mkBoard g))).
  rewrite positionsToFlip_frame. reflexivity.
Qed.

Lemma scan_0 (g : Grid) (pos : Pos) (color : string) (dir : Pos) (acc : list Pos) :
  scan 0 g pos color dir acc = OutOfFuel.
Proof. reflexivity. Qed.

Lemma scan_S (fuel : nat) (g : Grid) (pos : Pos) (color : string) (dir : Pos)
    (acc : list Pos) :
  scan (S fuel) g pos color dir acc =
  if onBoard pos then
    match readCell g pos with
    | None => Ret None
    | Some piece =>
        if String.eqb (Piece.color piece) color then
          Ret (match acc with [] => None | _ => Some acc end)
        else scan fuel g (step pos dir) color dir (acc ++ [pos])
    end
  else Ret None.
Proof.
  unfold scan. rewrite positionsToFlip_S. cbn [grid].
  destruct (onBoard pos); [|reflexivity].
  destruct (readCell g pos) as [piece|]; [|reflexivity].
  destruct (String.eqb (Piece.color piece) color); reflexivity.
Qed.

(** ** Termination of the scan *)

Section Termination.

Variable g : Grid.
Variable color : string.
Variable dir : Pos.
Hypothesis dir_moves : dir <> (0, 0).

Lemma room_onBoard (pos : Pos) : onBoard pos = true -> 0 <= room pos dir <= 7.
Proof.
  rewrite onBoard_spec. unfold room. destruct pos as [r c]; cbn [fst snd].
  repeat case_match; lia.
Qed.

Lemma room_step (pos : Pos) : room (step pos dir) dir <= room pos dir - 1.
Proof.
  unfold room, step. destruct pos as [r c], dir as [dr dc] eqn:Hd; cbn [fst snd].
  assert (dr <> 0 \/ dc <> 0) by (destruct (decide (dr = 0)); [right|left]; congruence).
  repeat case_match; lia.
Qed.

(** A scan that starts off the board needs one call; one that starts on the
    board needs at most [room pos dir + 2] calls. *)
Lemma scan_returns (fuel : nat) :
  forall (pos : Pos) (acc : list Pos),
    (1 <= fuel)%nat ->
    (onBoard pos = true -> room pos dir + 2 <= Z.of_nat fuel) ->
    exists r, scan fuel g pos color dir acc = Ret r.
Proof using dir_moves.
  induction fuel as [|fuel IH]; intros pos acc Hpos Hroom; [lia|].
  rewrite scan_S. destruct (onBoard pos) eqn:Hv; [|eauto].
  destruct (readCell g pos) as [piece|]; [|eauto].
  destruct (String.eqb (Piece.color piece) color); [eauto|].
  specialize (Hroom eq_refl). pose proof (room_onBoard pos Hv).
  pose proof (room_step pos). apply IH; [lia|].
  intros Hv'. pose proof (room_onBoard _ Hv'). lia.
Qed.

(** More fuel does not change what a scan returns. *)
Lemma scan_fuel_mono (fuel : nat) :
  forall (fuel' : nat) (pos : Pos) (acc : list Pos) r,
    scan fuel g pos color dir acc = Ret r ->
    (fuel <= fuel')%nat ->
    scan fuel' g pos color dir acc = Ret r.
Proof.
  induction fuel as [|fuel IH]; intros fuel' pos acc r Hr Hle; [discriminate|].
  destruct fuel' as [|fuel']; [lia|].
  rewrite scan_S in *. destruct (onBoard pos); [|exact Hr].
  destruct (readCell g pos) as [piece|]; [|exact Hr].
  destruct (String.eqb (Piece.color piece) color); [exact Hr|].
  apply IH; [exact Hr|lia].
Qed.

(** A non-null result is the accumulator followed by the positions that the
    scan walked over, and it is bounded by the room there was. *)
Lemma scan_some (fuel : nat) :
  forall (pos : Pos) (acc l : list Pos),
    scan fuel g pos color dir acc = Ret (Some l) ->
    exists n : nat,
      l = acc ++ ray pos dir n /\
      l <> [] /\
      onBoard pos = true /\
      Z.of_nat n <= room pos dir /\
      Forall (fun q => onBoard q = true /\ occupied (readCell g q) = true /\
                       sameColor (readCell g q) color = false) (ray pos dir n).
Proof using dir_moves.
  induction fuel as [|fuel IH]; intros pos acc l Hl; [discriminate|].
  rewrite scan_S in Hl. destruct (onBoard pos) eqn:Hv; [|discriminate].
  pose proof (room_onBoard pos Hv) as Hroom.
  destruct (readCell g pos) as [piece|] eqn:Hc; [|discriminate].
  destruct (String.eqb (Piece.color piece) color) eqn:Hm.
  - exists 0%nat. destruct acc as [|a acc]; [discriminate|].
    injection Hl as <-. cbn [ray]. rewrite app_nil_r.
    repeat split; [discriminate|lia|constructor].
  - apply IH in Hl as (n & -> & Hne & Hv' & Hn & Hall).
    exists (S n). cbn [ray]. rewrite <- app_assoc. cbn [app].
    pose proof (room_step pos).
    repeat split; [|lia|].
    + destruct acc; discriminate.
    + constructor; [|exact Hall]. rewrite Hc. cbn. rewrite Hm. auto.
Qed.

End Termination.

Lemma DIRS_moves (dir : Pos) : dir ∈ DIRS -> dir <> (0, 0).
Proof.
  unfold DIRS. rewrite !elem_of_cons, elem_of_nil.
  intros H; repeat (destruct H as [->|H]; [discriminate|]); contradiction.
Qed.

Lemma DIRS_unit (dir : Pos) :
  dir ∈ DIRS -> -1 <= dir.1 <= 1 /\ -1 <= dir.2 <= 1 /\ dir <> (0, 0).
Proof.
  unfold DIRS. rewrite !elem_of_cons, elem_of_nil.
  intros H; repeat (destruct H as [->|H]; [cbn; repeat split; (lia || discriminate)|]);
    contradiction.
Qed.

(** The rays cast from a position of the board return within eight calls. *)
Lemma scan_from_move (fuel : nat) (g : Grid) (pos : Pos) (color : string) (dir : Pos) :
  onBoard pos = true -> dir <> (0, 0) -> (8 <= fuel)%nat ->
  exists r, scan fuel g (step pos dir) color dir [] = Ret r /\
            scan 8 g (step pos dir) color dir [] = Ret r.
Proof.
  intros Hv Hd Hf.
  destruct (scan_returns g color dir Hd 8 (step pos dir) []) as [r Hr]; [lia| |].
  - intros _. pose proof (room_step dir Hd pos). pose proof (room_onBoard dir pos Hv). lia.
  - exists r. split; [|exact Hr]. eapply scan_fuel_mono; eauto.
Qed.

Lemma length_ray (pos dir : Pos) (n : nat) : length (ray pos dir n) = n.
Proof.
  revert pos. induction n as [|n IH]; intros pos; cbn [ray length]; [reflexivity|].
  rewrite IH. reflexivity.
Qed.

(** The flip-list of a ray cast from a position of the board has at most
    six pieces. *)
Lemma scan_from_move_bound (fuel : nat) (g : Grid) (pos : Pos) (color : string)
    (dir : Pos) (l : list Pos) :
  onBoard pos = true -> dir <> (0, 0) ->
  scan fuel g (step pos dir) color dir [] = Ret (Some l) ->
  (length l <= 6)%nat.
Proof.
  intros Hv Hd Hl.
  apply (scan_some g color dir Hd) in Hl as (n & -> & _ & _ & Hn & _).
  cbn [app]. rewrite length_ray.
  pose proof (room_step dir Hd pos). pose proof (room_onBoard dir pos Hv). lia.
Qed.

(** ** The queries: what they return and what they leave *)

Lemma bind_frame {A B : Type} (m : M A) (k : A -> M B) (b : Board) :
  snd (m b) = b -> (forall a, snd (k a b) = b) -> snd (bind m k b) = b.
Proof.
  intros Hm Hk. unfold bind. destruct (m b) as [[a|e|] b'] eqn:E; cbn in Hm; subst b';
    [apply Hk|reflexivity|reflexivity].
Qed.

Lemma forEach_frame {A S : Type} (l : list A) (f : S -> A -> M S) (b : Board) :
  (forall acc x, snd (f acc x b) = b) ->
  forall acc, snd (forEach l f acc b) = b.
Proof.
  intros Hf. induction l as [|x l IH]; intros acc; [reflexivity|].
  cbn [forEach]. apply bind_frame; [apply Hf|]. intros a. apply IH.
Qed.

Lemma forEach_run {A S : Type} (l : list A) (f : S -> A -> M S) (h : S -> A -> S)
    (b : Board) :
  (forall acc x, x ∈ l -> f acc x b = (Ret (h acc x), b)) ->
  forall acc, forEach l f acc b = (Ret (fold_left h l acc), b).
Proof.
  induction l as [|x l IH]; intros Hf acc; [reflexivity|].
  cbn [forEach fold_left]. unfold bind. rewrite Hf by left.
  apply IH. intros acc' y Hy. apply Hf. right. exact Hy.
Qed.

Lemma isValidPos_frame (pos : Pos) (b : Board) : snd (isValidPos pos b) = b.
Proof. reflexivity. Qed.

Lemma getPiece_frame (pos : Pos) (b : Board) : snd (getPiece pos b) = b.
Proof. rewrite getPiece_run. destruct (onBoard pos); reflexivity. Qed.

Lemma isMine_frame (pos : Pos) (color : string) (b : Board) :
  snd (isMine pos color b) = b.
Proof. rewrite isMine_run. destruct (onBoard pos); reflexivity. Qed.

Lemma isOccupied_frame (pos : Pos) (b : Board) : snd (isOccupied pos b) = b.
Proof. rewrite isOccupied_run. destruct (onBoard pos); reflexivity. Qed.

Lemma validMove_frame (fuel : nat) (pos : Pos) (color : string) (b : Board) :
  snd (validMove fuel pos color b) = b.
Proof.
  unfold validMove. apply bind_frame; [reflexivity|]. intros v.
  destruct (negb v); [reflexivity|].
  apply bind_frame; [apply isOccupied_frame|]. intros occ.
  destruct occ; [reflexivity|].
  apply forEach_frame. intros valid dir.
  apply bind_frame; [apply positionsToFlip_frame|]. intros [l|]; reflexivity.
Qed.

Lemma validMoves_frame (fuel : nat) (color : string) (b : Board) :
  snd (validMoves fuel color b) = b.
Proof.
  unfold validMoves. apply forEach_frame. intros moves i.
  apply forEach_frame. intros moves' j.
  apply bind_frame; [apply validMove_frame|]. intros [|]; reflexivity.
Qed.

Lemma hasMove_frame (fuel : nat) (color : string) (b : Board) :
  snd (hasMove fuel color b) = b.
Proof.
  unfold hasMove. apply bind_frame; [apply validMoves_frame|]. reflexivity.
Qed.

Lemma isOver_frame (fuel : nat) (b : Board) : snd (isOver fuel b) = b.
Proof.
  unfold isOver. apply bind_frame; [apply hasMove_frame|]. intros w.
  destruct (negb w); [|reflexivity].
  apply bind_frame; [apply hasMove_frame|]. reflexivity.
Qed.

Lemma fold_left_or {A : Type} (p : A -> bool) (l : list A) (v : bool) :
  fold_left (fun valid x => if p x then true else valid) l v = v || existsb p l.
Proof.
  revert v. induction l as [|x l IH]; intros v; cbn [fold_left existsb].
  - destruct v; reflexivity.
  - rewrite IH. destruct (p x), v; reflexivity.
Qed.

Lemma existsb_agree {A : Type} (p q : A -> bool) (l : list A) :
  (forall x, x ∈ l -> p x = q x) -> existsb p l = existsb q l.
Proof.
  induction l as [|x l IH]; intros H; [reflexivity|]. cbn [existsb].
  rewrite H by left. rewrite IH; [reflexivity|]. intros y Hy. apply H. right. exact Hy.
Qed.

Lemma flipList_nonempty (fuel : nat) (g : Grid) (pos : Pos) (color : string)
    (dir : Pos) (l : list Pos) :
  dir <> (0, 0) -> flipList fuel g pos color dir = Some l -> l <> [].
Proof.
  unfold flipList. intros Hd H.
  destruct (scan fuel g (step pos dir) color dir []) as [r| |] eqn:E; try discriminate.
  subst r. apply (scan_some g color dir Hd) in E as (n & _ & Hne & _). exact Hne.
Qed.

Lemma flipList_fuel (fuel : nat) (g : Grid) (pos : Pos) (color : string) (dir : Pos) :
  onBoard pos = true -> dir <> (0, 0) -> (8 <= fuel)%nat ->
  scan fuel g (step pos dir) color dir [] = Ret (flipList fuel g pos color dir) /\
  flipList fuel g pos color dir = flipList 8 g pos color dir.
Proof.
  intros Hv Hd Hf. unfold flipList.
  destruct (scan_from_move fuel g pos color dir Hv Hd Hf) as (r & -> & ->). auto.
Qed.

Lemma legal_fuel (fuel : nat) (g : Grid) (pos : Pos) (color : string) :
  (8 <= fuel)%nat -> legal fuel g pos color = legal 8 g pos color.
Proof.
  intros Hf. unfold legal. destruct (onBoard pos) eqn:Hv; [|reflexivity].
  f_equal. apply existsb_agree. intros dir Hd. apply DIRS_moves in Hd.
  destruct (flipList_fuel fuel g pos color dir Hv Hd Hf) as [_ ->]. reflexivity.
Qed.

Lemma validMove_run (fuel : nat) (pos : Pos) (color : string) (b : Board) :
  (8 <= fuel)%nat ->
  validMove fuel pos color b = (Ret (legal fuel (grid b) pos color), b).
Proof.
  intros Hf. unfold validMove, legal, bind at 1. rewrite isValidPos_run.
  destruct (onBoard pos) eqn:Hv; [|reflexivity]. cbn [negb andb].
  unfold bind at 1. rewrite isOccupied_run, Hv.
  destruct (occupied (readCell (grid b) pos)); [reflexivity|]. cbn [negb andb].
  rewrite forEach_run with
    (h := fun valid dir => if match flipList fuel (grid b) pos color dir with
                              | Some l => negb (length l =? 0)%nat
                              | None => false
                              end then true else valid).
  - rewrite fold_left_or. reflexivity.
  - intros valid dir Hd. apply DIRS_moves in Hd.
    unfold bind. rewrite positionsToFlip_run.
    change (pos.1 + dir.1, pos.2 + dir.2) with (step pos dir).
    destruct (flipList_fuel fuel (grid b) pos color dir Hv Hd Hf) as [-> _].
    destruct (flipList fuel (grid b) pos color dir) as [l|] eqn:E; [|reflexivity].
    apply flipList_nonempty in E; [|exact Hd]. destruct l; [contradiction|reflexivity].
Qed.

Lemma fold_left_push {A B : Type} (p : B -> bool) (inj : A -> B) (l : list A)
    (moves : list B) :
  fold_left (fun moves j => if p (inj j) then moves ++ [inj j] else moves) l moves =
  moves ++ List.filter p (map inj l).
Proof.
  revert moves. induction l as [|j l IH]; intros moves; cbn [fold_left map List.filter].
  - rewrite app_nil_r. reflexivity.
  - rewrite IH. destruct (p (inj j)); [|reflexivity].
    rewrite <- app_assoc. reflexivity.
Qed.

Lemma fold_left_rows {A B : Type} (p : B -> bool) (row : A -> list B) (l : list A)
    (moves : list B) :
  fold_left (fun moves i => moves ++ List.filter p (row i)) l moves =
  moves ++ List.filter p (flat_map row l).
Proof.
  revert moves. induction l as [|i l IH]; intros moves; cbn [fold_left flat_map].
  - rewrite app_nil_r. reflexivity.
  - rewrite IH, List.filter_app, <- app_assoc. reflexivity.
Qed.

Lemma validMoves_run (fuel : nat) (color : string) (b : Board) :
  (8 <= fuel)%nat ->
  validMoves fuel color b =
  (Ret (List.filter (fun pos => legal fuel (grid b) pos color) allCells), b).
Proof.
  intros Hf. unfold validMoves, allCells.
  rewrite forEach_run with
    (h := fun moves i => moves ++ List.filter (fun pos => legal fuel (grid b) pos color)
                                    (map (fun j => (i, j)) (seqZ 0 8))).
  - rewrite fold_left_rows. reflexivity.
  - intros moves i _.
    rewrite forEach_run with
      (h := fun moves j => if legal fuel (grid b) (i, j) color
                           then moves ++ [(i, j)] else moves).
    + rewrite (fold_left_push (fun pos => legal fuel (grid b) pos color)
                 (fun j => (i, j))). reflexivity.
    + intros moves' j _. unfold bind. rewrite validMove_run by exact Hf.
      destruct (legal fuel (grid b) (i, j) color); reflexivity.
Qed.

Lemma hasMove_run (fuel : nat) (color : string) (b : Board) :
  (8 <= fuel)%nat ->
  hasMove fuel color b =
  (Ret (existsb (fun pos => legal fuel (grid b) pos color) allCells), b).
Proof.
  intros Hf. unfold hasMove, bind. rewrite validMoves_run by exact Hf.
  unfold ret. f_equal. f_equal.
  induction allCells as [|pos l IH]; [reflexivity|]. cbn [List.filter existsb].
  destruct (legal fuel (grid b) pos color); [reflexivity|exact IH].
Qed.

Lemma isOver_run (fuel : nat) (b : Board) :
  (8 <= fuel)%nat ->
  isOver fuel b =
  (Ret (negb (existsb (fun pos => legal fuel (grid b) pos "white") allCells) &&
        negb (existsb (fun pos => legal fuel (grid b) pos "black") allCells)), b).
Proof.
  intros Hf. unfold isOver, bind. rewrite hasMove_run by exact Hf.
  destruct (existsb (fun pos => legal fuel (grid b) pos "white") allCells);
    cbn [negb andb]; [reflexivity|].
  rewrite hasMove_run by exact Hf. reflexivity.
Qed.

Lemma validMoveHolds_legal (fuel : nat) (b : Board) (color : string) (pos : Pos) :
  (8 <= fuel)%nat -> validMoveHolds fuel b color pos = legal fuel (grid b) pos color.
Proof.
  intros Hf. unfold validMoveHolds. rewrite validMove_run by exact Hf.
  cbn [fst]. destruct (legal fuel (grid b) pos color); reflexivity.
Qed.

Lemma filter_agree {A : Type} (p q : A -> bool) (l : list A) :
  (forall x, p x = q x) -> List.filter p l = List.filter q l.
Proof.
  intros H. induction l as [|x l IH]; [reflexivity|]. cbn [List.filter].
  rewrite H, IH. reflexivity.
Qed.

Lemma filter_StronglySorted {A : Type} (R : A -> A -> Prop) (p : A -> bool) (l : list A) :
  StronglySorted R l -> StronglySorted R (List.filter p l).
Proof.
  induction 1 as [|x l Hs IH Hx]; cbn [List.filter]; [constructor|].
  destruct (p x); [|exact IH]. constructor; [exact IH|].
  rewrite List.Forall_forall in *. intros y Hy. apply Hx.
  apply List.filter_In in Hy. tauto.
Qed.

Lemma allCells_sorted : StronglySorted rowMajorLt allCells.
Proof.
  unfold allCells. cbn.
  repeat (constructor; [|repeat (constructor; [unfold rowMajorLt; cbn; lia|]);
                          constructor]).
  constructor.
Qed.

Lemma allCells_onBoard (pos : Pos) : pos ∈ allCells <-> onBoard pos = true.
Proof.
  rewrite onBoard_spec. unfold allCells. rewrite list_elem_of_In, in_flat_map.
  split.
  - intros (i & Hi & Hp). apply in_map_iff in Hp as (j & <- & Hj).
    apply list_elem_of_In, elem_of_seqZ in Hi. apply list_elem_of_In, elem_of_seqZ in Hj.
    cbn. lia.
  - destruct pos as [i j]; cbn. intros H. exists i. split.
    + apply list_elem_of_In, elem_of_seqZ. lia.
    + apply in_map_iff. exists j. split; [reflexivity|].
      apply list_elem_of_In, elem_of_seqZ. lia.
Qed.

Lemma legal_spec (fuel : nat) (g : Grid) (pos : Pos) (color : string) :
  legal fuel g pos color = true <->
  onBoard pos = true /\ occupied (readCell g pos) = false /\
  exists dir l, dir ∈ DIRS /\ flipList fuel g pos color dir = Some l /\ l <> [].
Proof.
  unfold legal. rewrite !andb_true_iff, negb_true_iff, existsb_exists.
  split.
  - intros [[Hv Ho] (dir & Hd & Hl)]. split; [exact Hv|]. split; [exact Ho|].
    destruct (flipList fuel g pos color dir) as [l|] eqn:E; [|discriminate].
    exists dir, l. split; [apply list_elem_of_In; exact Hd|]. split; [exact E|].
    intros ->. discriminate.
  - intros (Hv & Ho & dir & l & Hd & Hl & Hne). split; [split; [exact Hv|exact Ho]|].
    exists dir. split; [apply list_elem_of_In; exact Hd|].
    rewrite Hl. destruct l; [contradiction|reflexivity].
Qed.

(** ** Reading and writing cells *)

Lemma wf_grid_initial : wf_grid _makeGrid.
Proof. split; [reflexivity|]. repeat constructor. Qed.

Lemma writeCell_wf (g : Grid) (pos : Pos) (v : option Piece) :
  wf_grid g -> wf_grid (writeCell g pos v).
Proof.
  intros [Hl Hr]. unfold writeCell. split.
  - rewrite length_alter. exact Hl.
  - apply Forall_alter; [exact Hr|]. intros r _ Hlen. rewrite length_insert. exact Hlen.
Qed.

(** A write changes at most the cell it is aimed at. *)
Lemma readCell_writeCell_cases (g : Grid) (pos : Pos) (v : option Piece) (q : Pos) :
  readCell (writeCell g pos v) q = v \/
  readCell (writeCell g pos v) q = readCell g q.
Proof.
  unfold readCell, writeCell, index.
  destruct (q.1 <? 0); [right; reflexivity|].
  rewrite list_lookup_alter. case_decide as Hi; [|right; reflexivity].
  rewrite Hi. destruct (g !! Z.to_nat q.1) as [r|]; [|right; reflexivity].
  cbn [fmap option_fmap option_map].
  destruct (q.2 <? 0); [right; reflexivity|].
  rewrite list_lookup_insert. case_decide; [left|right]; reflexivity.
Qed.

Lemma readCell_writeCell_ne (g : Grid) (pos : Pos) (v : option Piece) (q : Pos) :
  0 <= pos.1 -> 0 <= pos.2 -> q <> pos ->
  readCell (writeCell g pos v) q = readCell g q.
Proof.
  intros Hv1 Hv2 Hne.
  unfold readCell, writeCell, index.
  destruct (q.1 <? 0) eqn:H1; [reflexivity|].
  rewrite list_lookup_alter. case_decide as Hi; [|reflexivity].
  rewrite Hi. destruct (g !! Z.to_nat q.1) as [r|]; [|reflexivity].
  cbn [fmap option_fmap option_map].
  destruct (q.2 <? 0) eqn:H2; [reflexivity|].
  rewrite list_lookup_insert_ne; [reflexivity|].
  intros Hj. apply Hne. destruct q as [q1 q2], pos as [p1 p2]; cbn [fst snd] in *.
  f_equal; lia.
Qed.

Lemma readCell_writeCell_eq (g : Grid) (pos : Pos) (v : option Piece) :
  wf_grid g -> onBoard pos = true ->
  readCell (writeCell g pos v) pos = v.
Proof.
  intros [Hl Hr] Hv. apply onBoard_spec in Hv.
  unfold readCell, writeCell, index.
  destruct (pos.1 <? 0) eqn:H1; [lia|].
  rewrite list_lookup_alter_eq.
  destruct (g !! Z.to_nat pos.1) as [r|] eqn:Hrow.
  - cbn [fmap option_fmap option_map].
    destruct (pos.2 <? 0) eqn:H2; [lia|].
    rewrite list_lookup_insert_eq; [reflexivity|].
    rewrite Forall_lookup in Hr. rewrite (Hr _ _ Hrow). lia.
  - apply lookup_ge_None in Hrow. lia.
Qed.

Lemma readCell_some (g : Grid) (pos : Pos) (piece : Piece) :
  readCell g pos = Some piece ->
  0 <= pos.1 /\ 0 <= pos.2 /\
  exists r, g !! Z.to_nat pos.1 = Some r /\ (Z.to_nat pos.2 < length r)%nat.
Proof.
  unfold readCell, index. intros H.
  destruct (pos.1 <? 0) eqn:H1; [discriminate|].
  destruct (g !! Z.to_nat pos.1) as [r|]; [|discriminate].
  destruct (pos.2 <? 0) eqn:H2; [discriminate|].
  destruct (r !! Z.to_nat pos.2) eqn:Hc; [|discriminate].
  apply lookup_lt_Some in Hc. split; [lia|]. split; [lia|]. eauto.
Qed.

(** Overwriting a cell that holds a piece. *)
Lemma readCell_writeCell_some (g : Grid) (pos : Pos) (piece : Piece)
    (v : option Piece) (q : Pos) :
  readCell g pos = Some piece ->
  readCell (writeCell g pos v) q = if decide (q = pos) then v else readCell g q.
Proof.
  intros H. apply readCell_some in H as (H1 & H2 & r & Hr & Hlen).
  case_decide as Hq; [subst q|apply readCell_writeCell_ne; assumption].
  unfold readCell, writeCell, index.
  destruct (pos.1 <? 0) eqn:E1; [lia|].
  rewrite list_lookup_alter_eq, Hr. cbn [fmap option_fmap option_map].
  destruct (pos.2 <? 0) eqn:E2; [lia|].
  rewrite list_lookup_insert_eq by exact Hlen. reflexivity.
Qed.

(** ** Flipping and placing *)

Lemma flipPiece_run (q : Pos) (b : Board) :
  flipPiece q b =
  match readCell (grid b) q with
  | Some piece => (Ret tt, mkBoard (writeCell (grid b) q (Some (Piece.flip piece))))
  | None => (Throw TypeError, b)
  end.
Proof.
  unfold flipPiece, bind, getGrid. destruct (readCell (grid b) q); reflexivity.
Qed.

Lemma keeps_refl (b : Board) : wf_board b -> keeps b b.
Proof. intros H. split; [exact H|]. intros q piece Hq. exists 0%nat. exact Hq. Qed.

Lemma keeps_trans (b1 b2 b3 : Board) : keeps b1 b2 -> keeps b2 b3 -> keeps b1 b3.
Proof.
  intros [_ H12] [H3 H23]. split; [exact H3|]. intros q piece Hq.
  apply H12 in Hq as [n Hn]. apply H23 in Hn as [m Hm].
  exists (m + n)%nat. rewrite Nat.iter_add. exact Hm.
Qed.

Lemma flipPiece_keeps (q : Pos) (b : Board) :
  wf_board b -> keeps b (snd (flipPiece q b)).
Proof.
  intros H. rewrite flipPiece_run.
  destruct (readCell (grid b) q) as [piece|] eqn:Hq; [|apply keeps_refl; exact H].
  split; [apply writeCell_wf; exact H|]. intros q' piece' Hq'. cbn [snd grid].
  rewrite (readCell_writeCell_some _ _ _ _ _ Hq). case_decide as E.
  - subst q'. exists 1%nat. cbn. congruence.
  - exists 0%nat. exact Hq'.
Qed.

Lemma flipAll_keeps (l : list Pos) :
  forall b, wf_board b ->
            keeps b (snd (forEach l (fun _ piece => flipPiece piece) tt b)).
Proof.
  induction l as [|q l IH]; intros b H; [apply keeps_refl; exact H|].
  cbn [forEach]. unfold bind.
  pose proof (flipPiece_keeps q b H) as Hq.
  destruct (flipPiece q b) as [[[]|e|] b0]; cbn [snd] in *; try exact Hq.
  eapply keeps_trans; [exact Hq|]. apply IH. apply Hq.
Qed.

(** A move that [validMove] accepts is on the board and on an empty cell,
    whatever the fuel. *)
Lemma validMove_true (fuel : nat) (pos : Pos) (color : string) (b : Board) :
  fst (validMove fuel pos color b) = Ret true ->
  onBoard pos = true /\ readCell (grid b) pos = None.
Proof.
  unfold validMove, bind at 1. rewrite isValidPos_run.
  destruct (onBoard pos) eqn:Hv; [|discriminate]. cbn [negb].
  unfold bind at 1. rewrite isOccupied_run, Hv.
  destruct (readCell (grid b) pos); [discriminate|]. auto.
Qed.

Lemma keeps_place (b : Board) (pos : Pos) (piece : Piece) :
  wf_board b -> onBoard pos = true -> readCell (grid b) pos = None ->
  keeps b (mkBoard (writeCell (grid b) pos (Some piece))).
Proof.
  intros H Hv Hc. apply onBoard_spec in Hv. split.
  - apply writeCell_wf. exact H.
  - intros q piece' Hq. exists 0%nat. cbn [grid Nat.iter nat_rect].
    rewrite readCell_writeCell_ne; [exact Hq|lia|lia|congruence].
Qed.

Lemma collect_frame (fuel : nat) (pos : Pos) (color : string) (acc : list Pos)
    (b : Board) :
  snd (forEach DIRS (fun pieces dir =>
         let next_pos := (pos.1 + dir.1, pos.2 + dir.2) in
         pieces_to_concat <- _positionsToFlip fuel next_pos color dir [] ;;
         match pieces_to_concat with
         | Some l => ret (pieces ++ l)
         | None => ret pieces
         end) acc b) = b.
Proof.
  apply forEach_frame. intros pieces dir.
  apply bind_frame; [apply positionsToFlip_frame|]. intros [l|]; reflexivity.
Qed.

Lemma placePiece_keeps (fuel : nat) (pos : Pos) (color : string) (b : Board) :
  wf_board b -> keeps b (snd (placePiece fuel pos color b)).
Proof.
  intros H. unfold placePiece, bind at 1.
  pose proof (validMove_frame fuel pos color b) as Hfr.
  pose proof (validMove_true fuel pos color b) as Htrue.
  destruct (validMove fuel pos color b) as [[v|e|] b0]; cbn [fst snd] in *; subst b0;
    try (apply keeps_refl; exact H).
  destruct v; cbn [negb]; [|apply keeps_refl; exact H].
  destruct (Htrue eq_refl) as [Hv Hc].
  unfold bind at 1, getGrid. unfold bind at 1, setGrid.
  set (b1 := mkBoard (writeCell (grid b) pos (Some (Piece.new color)))).
  assert (H1 : keeps b b1) by (apply keeps_place; assumption).
  unfold bind at 1.
  pose proof (collect_frame fuel pos color [] b1) as Hscan.
  match goal with
  | |- context [forEach DIRS ?f [] b1] =>
      change (snd (forEach DIRS f [] b1) = b1) in Hscan;
      destruct (forEach DIRS f [] b1) as [[pieces|e|] b2]
  end; cbn [snd] in Hscan; subst b2; cbn [snd]; try exact H1.
  eapply keeps_trans; [exact H1|]. apply flipAll_keeps. apply H1.
Qed.

Lemma perform_keeps (fuel : nat) (b : Board) (c : call) :
  wf_board b -> keeps b (perform fuel b c).
Proof.
  intros H. destruct c; cbn [perform];
    rewrite ?getPiece_frame, ?hasMove_frame, ?isMine_frame, ?isOccupied_frame,
      ?isOver_frame, ?isValidPos_frame, ?validMove_frame, ?validMoves_frame;
    try (apply keeps_refl; exact H).
  apply placePiece_keeps. exact H.
Qed.

Lemma performAll_keeps (fuel : nat) (cs : list call) :
  forall b, wf_board b -> keeps b (performAll fuel b cs).
Proof.
  unfold performAll. induction cs as [|c cs IH]; intros b H; cbn [fold_left].
  - apply keeps_refl. exact H.
  - pose proof (perform_keeps fuel b c H) as Hc.
    eapply keeps_trans; [exact Hc|]. apply IH. apply Hc.
Qed.

(** ** The rays of a move *)

Lemma step_along (pos dir : Pos) (k : Z) :
  step (along pos dir k) dir = along pos dir (k + 1).
Proof. unfold step, along. cbn [fst snd]. f_equal; lia. Qed.

Lemma step_along_1 (pos dir : Pos) : step pos dir = along pos dir 1.
Proof. unfold step, along. cbn [fst snd]. f_equal; lia. Qed.

Lemma along_inj (pos dir : Pos) (j k : Z) :
  dir <> (0, 0) -> along pos dir j = along pos dir k -> j = k.
Proof.
  unfold along. destruct dir as [dr dc]. cbn [fst snd]. intros Hd H.
  injection H as H1 H2.
  assert (dr <> 0 \/ dc <> 0) as [Hr|Hc]
    by (destruct (decide (dr = 0)); [right|left]; congruence); nia.
Qed.

Lemma elem_of_ray (pos dir : Pos) (n : nat) :
  forall (k : Z) (q : Pos),
    q ∈ ray (along pos dir k) dir n <->
    exists j : nat, (j < n)%nat /\ q = along pos dir (k + Z.of_nat j).
Proof.
  induction n as [|n IH]; intros k q; cbn [ray].
  - rewrite elem_of_nil. split; [contradiction|]. intros (j & Hj & _). lia.
  - rewrite elem_of_cons, step_along, IH. split.
    + intros [-> | (j & Hj & ->)].
      * exists 0%nat. split; [lia|]. f_equal. lia.
      * exists (S j). split; [lia|]. f_equal. lia.
    + intros (j & Hj & ->). destruct j as [|j].
      * left. f_equal. lia.
      * right. exists j. split; [lia|]. f_equal. lia.
Qed.

Lemma NoDup_ray (pos dir : Pos) (n : nat) :
  dir <> (0, 0) -> forall k, NoDup (ray (along pos dir k) dir n).
Proof.
  intros Hd. induction n as [|n IH]; intros k; cbn [ray]; [constructor|].
  rewrite step_along. constructor; [|apply IH].
  rewrite elem_of_ray. intros (j & _ & Hj).
  apply along_inj in Hj; [lia|exact Hd].
Qed.

(** A scan only reads the cells of its ray. *)
Lemma scan_agree (g g' : Grid) (color : string) (pos dir : Pos) (fuel : nat) :
  forall (k : Z) (acc : list Pos),
    (forall j, k <= j -> readCell g' (along pos dir j) = readCell g (along pos dir j)) ->
    scan fuel g' (along pos dir k) color dir acc =
    scan fuel g (along pos dir k) color dir acc.
Proof.
  induction fuel as [|fuel IH]; intros k acc H; [reflexivity|].
  rewrite !scan_S, H by lia.
  destruct (onBoard (along pos dir k)); [|reflexivity].
  destruct (readCell g (along pos dir k)) as [piece|]; [|reflexivity].
  destruct (String.eqb (Piece.color piece) color); [reflexivity|].
  rewrite step_along. apply IH. intros j Hj. apply H. lia.
Qed.

(** The piece that is being placed lies on none of its rays. *)
Lemma flipList_write (fuel : nat) (g : Grid) (pos : Pos) (v : option Piece)
    (color : string) (dir : Pos) :
  onBoard pos = true -> dir <> (0, 0) ->
  flipList fuel (writeCell g pos v) pos color dir = flipList fuel g pos color dir.
Proof.
  intros Hv Hd. unfold flipList. rewrite step_along_1.
  rewrite (scan_agree g (writeCell g pos v)); [reflexivity|].
  intros j Hj. apply onBoard_spec in Hv.
  apply readCell_writeCell_ne; [lia|lia|].
  replace pos with (along pos dir 0) at 2
    by (unfold along; destruct pos; cbn [fst snd]; f_equal; lia).
  intros E. apply along_inj in E; [lia|exact Hd].
Qed.

Lemma flipList_ray (fuel : nat) (g : Grid) (pos : Pos) (color : string) (dir : Pos)
    (l : list Pos) :
  dir <> (0, 0) -> flipList fuel g pos color dir = Some l ->
  exists n : nat,
    l = ray (along pos dir 1) dir n /\
    Forall (fun q => onBoard q = true /\ occupied (readCell g q) = true /\
                     sameColor (readCell g q) color = false) l.
Proof.
  unfold flipList. intros Hd H.
  destruct (scan fuel g (step pos dir) color dir []) as [r| |] eqn:E; try discriminate.
  subst r. apply (scan_some g color dir Hd) in E as (n & -> & _ & _ & _ & Hall).
  exists n. cbn [app]. rewrite <- step_along_1. split; [reflexivity|exact Hall].
Qed.

(** Two directions of [DIRS] that reach the same cell from [pos] are the
    same direction. *)
Lemma rays_disjoint (pos d d' : Pos) (j k : Z) :
  d ∈ DIRS -> d' ∈ DIRS -> 1 <= j -> 1 <= k ->
  along pos d j = along pos d' k -> d = d'.
Proof.
  unfold DIRS, along. rewrite !elem_of_cons, !elem_of_nil.
  intros Hd Hd' Hj Hk H. injection H as H1 H2.
  repeat (destruct Hd as [->|Hd]); try contradiction;
    repeat (destruct Hd' as [->|Hd']); try contradiction;
    cbn [fst snd] in *; first [reflexivity|lia].
Qed.

Lemma NoDup_DIRS : NoDup DIRS.
Proof. apply (bool_decide_unpack _). vm_compute. exact I. Qed.

Lemma NoDup_flat_map {A B : Type} (f : A -> list B) (l : list A) :
  NoDup l ->
  (forall x, x ∈ l -> NoDup (f x)) ->
  (forall x y z, x ∈ l -> y ∈ l -> z ∈ f x -> z ∈ f y -> x = y) ->
  NoDup (flat_map f l).
Proof.
  induction 1 as [|x l Hx Hl IH]; intros Hf Hdisj; cbn [flat_map]; [constructor|].
  apply NoDup_app. split; [apply Hf; left|]. split.
  - intros z Hz Hz'. apply list_elem_of_In, in_flat_map in Hz' as (y & Hy & Hzy).
    apply list_elem_of_In in Hy, Hzy.
    assert (x = y) by (apply (Hdisj x y z); [left|right; exact Hy|exact Hz|exact Hzy]).
    subst y. contradiction.
  - apply IH.
    + intros y Hy. apply Hf. right. exact Hy.
    + intros y y' z Hy Hy'. apply Hdisj; right; assumption.
Qed.

Lemma elem_of_flipLists (fuel : nat) (g : Grid) (pos : Pos) (color : string) (q : Pos) :
  q ∈ flipLists fuel g pos color <->
  exists dir l, dir ∈ DIRS /\ flipList fuel g pos color dir = Some l /\ q ∈ l.
Proof.
  unfold flipLists. rewrite list_elem_of_In, in_flat_map. split.
  - intros (dir & Hd & Hq). apply list_elem_of_In in Hd.
    destruct (flipList fuel g pos color dir) as [l|] eqn:E.
    + exists dir, l. apply list_elem_of_In in Hq. auto.
    + destruct Hq.
  - intros (dir & l & Hd & Hl & Hq). exists dir. rewrite Hl.
    apply list_elem_of_In in Hd, Hq. auto.
Qed.

Lemma flipLists_cells (fuel : nat) (g : Grid) (pos : Pos) (color : string) (q : Pos) :
  q ∈ flipLists fuel g pos color ->
  q <> pos /\ onBoard q = true /\ occupied (readCell g q) = true /\
  sameColor (readCell g q) color = false.
Proof.
  rewrite elem_of_flipLists. intros (dir & l & Hd & Hl & Hq).
  apply DIRS_moves in Hd.
  apply flipList_ray in Hl as (n & -> & Hall); [|exact Hd].
  rewrite Forall_forall in Hall. split; [|apply Hall; exact Hq].
  apply elem_of_ray in Hq as (j & _ & ->).
  replace pos with (along pos dir 0) at 2
    by (unfold along; destruct pos; cbn [fst snd]; f_equal; lia).
  intros E. apply along_inj in E; [lia|exact Hd].
Qed.

Lemma NoDup_flipLists (fuel : nat) (g : Grid) (pos : Pos) (color : string) :
  NoDup (flipLists fuel g pos color).
Proof.
  unfold flipLists. apply NoDup_flat_map; [exact NoDup_DIRS| |].
  - intros dir Hd. destruct (flipList fuel g pos color dir) as [l|] eqn:E;
      [|constructor].
    apply flipList_ray in E as (n & -> & _); [|apply DIRS_moves; exact Hd].
    apply NoDup_ray, DIRS_moves, Hd.
  - intros d d' z Hd Hd' Hz Hz'.
    destruct (flipList fuel g pos color d) as [l|] eqn:E;
      [|apply elem_of_nil in Hz; contradiction].
    destruct (flipList fuel g pos color d') as [l'|] eqn:E';
      [|apply elem_of_nil in Hz'; contradiction].
    apply flipList_ray in E as (n & -> & _); [|apply DIRS_moves; exact Hd].
    apply flipList_ray in E' as (n' & -> & _); [|apply DIRS_moves; exact Hd'].
    apply elem_of_ray in Hz as (j & _ & ->). apply elem_of_ray in Hz' as (k & _ & Hk).
    apply (rays_disjoint pos d d' (1 + Z.of_nat j) (1 + Z.of_nat k)); [auto|auto|lia|lia|auto].
Qed.

(** ** What a placement writes *)

Lemma flipAll_run (l : list Pos) :
  forall b, NoDup l ->
    Forall (fun q => occupied (readCell (grid b) q) = true) l ->
    exists b',
      forEach l (fun _ piece => flipPiece piece) tt b = (Ret tt, b') /\
      forall q, readCell (grid b') q =
                if decide (q ∈ l) then Piece.flip <$> readCell (grid b) q
                else readCell (grid b) q.
Proof.
  induction l as [|q0 l IH]; intros b Hnd Hocc.
  - exists b. split; [reflexivity|]. intros q. case_decide as E; [|reflexivity].
    apply elem_of_nil in E. contradiction.
  - apply NoDup_cons in Hnd as [Hq0 Hnd]. apply Forall_cons in Hocc as [H0 Hocc].
    destruct (readCell (grid b) q0) as [p0|] eqn:Hp0; [|discriminate].
    set (b0 := mkBoard (writeCell (grid b) q0 (Some (Piece.flip p0)))).
    assert (Hb0 : forall q, readCell (grid b0) q =
                            if decide (q = q0) then Some (Piece.flip p0)
                            else readCell (grid b) q)
      by (intros q; apply (readCell_writeCell_some _ _ _ _ _ Hp0)).
    destruct (IH b0 Hnd) as (b' & Hrun & Hb').
    { rewrite Forall_forall in *. intros q Hq. rewrite Hb0.
      case_decide; [reflexivity|]. apply Hocc. exact Hq. }
    exists b'. split.
    + cbn [forEach]. unfold bind. rewrite flipPiece_run, Hp0. exact Hrun.
    + intros q. rewrite Hb', Hb0. destruct (decide (q = q0)) as [->|Hne].
      * rewrite decide_False by exact Hq0. rewrite decide_True by left.
        rewrite Hp0. reflexivity.
      * destruct (decide (q ∈ l)) as [Hin|Hnin].
        -- rewrite decide_True by (right; exact Hin). reflexivity.
        -- rewrite decide_False; [reflexivity|].
           rewrite elem_of_cons. intros [?|?]; contradiction.
Qed.

Lemma fold_left_concat {A B : Type} (f : A -> list B) (l : list A) (acc : list B) :
  fold_left (fun acc x => acc ++ f x) l acc = acc ++ flat_map f l.
Proof.
  revert acc. induction l as [|x l IH]; intros acc; cbn [fold_left flat_map].
  - rewrite app_nil_r. reflexivity.
  - rewrite IH, <- app_assoc. reflexivity.
Qed.

Lemma flat_map_agree {A B : Type} (f h : A -> list B) (l : list A) :
  (forall x, x ∈ l -> f x = h x) -> flat_map f l = flat_map h l.
Proof.
  induction l as [|x l IH]; intros H; [reflexivity|]. cbn [flat_map].
  rewrite H by left. rewrite IH; [reflexivity|]. intros y Hy. apply H. right. exact Hy.
Qed.

(** The loop of [placePiece] over [DIRS] gathers [flipLists]. *)
Lemma collect_run (fuel : nat) (pos : Pos) (color : string) (b : Board) :
  (8 <= fuel)%nat -> onBoard pos = true ->
  forEach DIRS (fun pieces dir =>
    let next_pos := (pos.1 + dir.1, pos.2 + dir.2) in
    pieces_to_concat <- _positionsToFlip fuel next_pos color dir [] ;;
    match pieces_to_concat with
    | Some l => ret (pieces ++ l)
    | None => ret pieces
    end) [] b = (Ret (flipLists fuel (grid b) pos color), b).
Proof.
  intros Hf Hv.
  rewrite forEach_run with
    (h := fun pieces dir => pieces ++ match flipList fuel (grid b) pos color dir with
                                      | Some l => l
                                      | None => []
                                      end).
  - rewrite fold_left_concat. reflexivity.
  - intros pieces dir Hd. apply DIRS_moves in Hd. cbv zeta.
    unfold bind. rewrite positionsToFlip_run.
    change (pos.1 + dir.1, pos.2 + dir.2) with (step pos dir).
    destruct (flipList_fuel fuel (grid b) pos color dir Hv Hd Hf) as [-> _].
    destruct (flipList fuel (grid b) pos color dir); [reflexivity|].
    rewrite app_nil_r. reflexivity.
Qed.

Lemma flipLists_fuel (fuel : nat) (g : Grid) (pos : Pos) (color : string) :
  (8 <= fuel)%nat -> onBoard pos = true ->
  flipLists fuel g pos color = flipLists 8 g pos color.
Proof.
  intros Hf Hv. unfold flipLists. apply flat_map_agree. intros dir Hd.
  destruct (flipList_fuel fuel g pos color dir Hv (DIRS_moves dir Hd) Hf) as [_ ->].
  reflexivity.
Qed.

Lemma flipLists_write (fuel : nat) (g : Grid) (pos : Pos) (v : option Piece)
    (color : string) :
  onBoard pos = true ->
  flipLists fuel (writeCell g pos v) pos color = flipLists fuel g pos color.
Proof.
  intros Hv. unfold flipLists. apply flat_map_agree. intros dir Hd.
  rewrite flipList_write; [reflexivity|exact Hv|apply DIRS_moves; exact Hd].
Qed.

(** The steps of [placePiece] on a legal move. *)
Lemma placePiece_steps (fuel : nat) (pos : Pos) (color : string) (b : Board) :
  (8 <= fuel)%nat ->
  placePiece fuel pos color b =
  if legal fuel (grid b) pos color then
    forEach (flipLists fuel (grid b) pos color) (fun _ piece => flipPiece piece) tt
      (mkBoard (writeCell (grid b) pos (Some (Piece.new color))))
  else (Throw InvalidMove, b).
Proof.
  intros Hf. unfold placePiece, bind at 1. rewrite validMove_run by exact Hf.
  destruct (legal fuel (grid b) pos color) eqn:Hl; [|reflexivity]. cbn [negb].
  apply legal_spec in Hl as (Hv & _).
  unfold bind at 1, getGrid. unfold bind at 1, setGrid. unfold bind at 1.
  rewrite collect_run by assumption. cbn [grid].
  rewrite flipLists_write by exact Hv. reflexivity.
Qed.

Lemma placePiece_fuel (fuel : nat) (pos : Pos) (color : string) (b : Board) :
  (8 <= fuel)%nat -> placePiece fuel pos color b = placePiece 8 pos color b.
Proof.
  intros Hf. rewrite (placePiece_steps fuel), (placePiece_steps 8) by lia.
  rewrite legal_fuel by exact Hf.
  destruct (legal 8 (grid b) pos color) eqn:Hl; [|reflexivity].
  apply legal_spec in Hl as (Hv & _).
  rewrite flipLists_fuel by assumption. reflexivity.
Qed.

Lemma placePiece_run (fuel : nat) (pos : Pos) (color : string) (b : Board) :
  wf_board b -> (8 <= fuel)%nat -> legal fuel (grid b) pos color = true ->
  exists b',
    placePiece fuel pos color b = (Ret tt, b') /\
    forall q, readCell (grid b') q =
              if decide (q = pos) then Some (Piece.new color)
              else if decide (q ∈ flipLists fuel (grid b) pos color)
                   then Piece.flip <$> readCell (grid b) q
                   else readCell (grid b) q.
Proof.
  intros Hwf Hf Hl. rewrite placePiece_steps, Hl by exact Hf.
  apply legal_spec in Hl as (Hv & _).
  set (b1 := mkBoard (writeCell (grid b) pos (Some (Piece.new color)))).
  assert (Hb1 : forall q, q <> pos -> readCell (grid b1) q = readCell (grid b) q).
  { intros q Hq. pose proof (proj1 (onBoard_spec pos) Hv).
    apply readCell_writeCell_ne; [lia|lia|exact Hq]. }
  destruct (flipAll_run (flipLists fuel (grid b) pos color) b1) as (b' & Hrun & Hb').
  - apply NoDup_flipLists.
  - apply Forall_forall. intros q Hq. apply flipLists_cells in Hq as (Hne & _ & Ho & _).
    rewrite Hb1 by exact Hne. exact Ho.
  - exists b'. split; [exact Hrun|]. intros q. rewrite Hb'.
    destruct (decide (q = pos)) as [->|Hne].
    + rewrite decide_False by (intros Hq; apply flipLists_cells in Hq; tauto).
      apply readCell_writeCell_eq; assumption.
    + rewrite Hb1 by exact Hne. reflexivity.
Qed.

(** ** Brackets *)

Lemma along_0 (pos dir : Pos) : along pos dir 0 = pos.
Proof. unfold along. destruct pos. cbn [fst snd]. f_equal; lia. Qed.

Lemma along_step (pos dir : Pos) (k : Z) :
  along (step pos dir) dir k = along pos dir (k + 1).
Proof. unfold along, step. cbn [fst snd]. f_equal; lia. Qed.

(** A non-null result of a scan is a run of pieces of the other colour
    closed by a piece of the mover's colour. *)
Lemma scan_bracket (g : Grid) (color : string) (dir : Pos) (fuel : nat) :
  forall (pos : Pos) (acc l : list Pos),
    scan fuel g pos color dir acc = Ret (Some l) ->
    exists n : nat,
      l = acc ++ ray pos dir n /\ l <> [] /\
      Forall (fun q => onBoard q = true /\ occupied (readCell g q) = true /\
                       sameColor (readCell g q) color = false) (ray pos dir n) /\
      onBoard (along pos dir (Z.of_nat n)) = true /\
      sameColor (readCell g (along pos dir (Z.of_nat n))) color = true.
Proof.
  induction fuel as [|fuel IH]; intros pos acc l Hl; [discriminate|].
  rewrite scan_S in Hl. destruct (onBoard pos) eqn:Hv; [|discriminate].
  destruct (readCell g pos) as [piece|] eqn:Hc; [|discriminate].
  destruct (String.eqb (Piece.color piece) color) eqn:Hm.
  - exists 0%nat. destruct acc as [|a acc]; [discriminate|]. injection Hl as <-.
    cbn [ray Z.of_nat]. rewrite app_nil_r, along_0, Hv, Hc. cbn [sameColor].
    split; [reflexivity|]. split; [discriminate|]. split; [constructor|]. auto.
  - apply IH in Hl as (n & -> & Hne & Hall & Hv' & Hm').
    exists (S n). cbn [ray]. rewrite <- app_assoc. cbn [app].
    rewrite along_step in Hv', Hm'. rewrite Nat2Z.inj_succ. unfold Z.succ.
    split; [reflexivity|]. split; [destruct acc; discriminate|].
    split; [|auto]. constructor; [|exact Hall].
    rewrite Hc. cbn [occupied sameColor]. auto.
Qed.

(** Conversely, a scan that meets such a run returns it. *)
Lemma scan_finds (g : Grid) (color : string) (dir : Pos) (n : nat) :
  forall (fuel : nat) (pos : Pos) (acc : list Pos),
    Forall (fun q => onBoard q = true /\ occupied (readCell g q) = true /\
                     sameColor (readCell g q) color = false) (ray pos dir n) ->
    onBoard (along pos dir (Z.of_nat n)) = true ->
    sameColor (readCell g (along pos dir (Z.of_nat n))) color = true ->
    acc ++ ray pos dir n <> [] ->
    (n < fuel)%nat ->
    scan fuel g pos color dir acc = Ret (Some (acc ++ ray pos dir n)).
Proof.
  induction n as [|n IH]; intros fuel pos acc Hall Hv Hm Hne Hf;
    (destruct fuel as [|fuel]; [lia|]); rewrite scan_S.
  - cbn [Z.of_nat] in Hv, Hm. rewrite along_0 in Hv, Hm. rewrite Hv.
    destruct (readCell g pos) as [piece|]; [|discriminate].
    cbn [sameColor] in Hm. rewrite Hm. cbn [ray] in *. rewrite app_nil_r in *.
    destruct acc; [contradiction|reflexivity].
  - cbn [ray] in *. apply Forall_cons in Hall as [(Hv0 & Ho & Hc) Hall].
    rewrite Hv0. destruct (readCell g pos) as [piece|]; [|discriminate].
    cbn [sameColor] in Hc. rewrite Hc.
    rewrite Nat2Z.inj_succ in Hv, Hm. unfold Z.succ in Hv, Hm.
    rewrite <- along_step in Hv, Hm.
    rewrite (IH fuel (step pos dir) (acc ++ [pos])); try assumption; [| |lia].
    + rewrite <- app_assoc. reflexivity.
    + rewrite <- app_assoc. cbn [app]. destruct acc; discriminate.
Qed.

(** What the results of the readers say of the cell. *)
Lemma isMine_true_inv (pos : Pos) (color : string) (b b' : Board) :
  isMine pos color b = (Ret true, b') ->
  onBoard pos = true /\ sameColor (readCell (grid b) pos) color = true.
Proof.
  rewrite isMine_run. destruct (onBoard pos); [|discriminate].
  intros H. split; [reflexivity|congruence].
Qed.

Lemma isMine_false_inv (pos : Pos) (color : string) (b b' : Board) :
  isMine pos color b = (Ret false, b') ->
  onBoard pos = true /\ sameColor (readCell (grid b) pos) color = false.
Proof.
  rewrite isMine_run. destruct (onBoard pos); [|discriminate].
  intros H. split; [reflexivity|congruence].
Qed.

Lemma isOccupied_true_inv (pos : Pos) (b b' : Board) :
  isOccupied pos b = (Ret true, b') ->
  onBoard pos = true /\ occupied (readCell (grid b) pos) = true.
Proof.
  rewrite isOccupied_run. destruct (onBoard pos); [|discriminate].
  intros H. split; [reflexivity|congruence].
Qed.

Lemma sameColor_true (c : option Piece) (color : string) :
  sameColor c color = true <-> exists piece, c = Some piece /\ Piece.color piece = color.
Proof.
  destruct c as [piece|]; cbn [sameColor].
  - rewrite String.eqb_eq. split; [eauto|]. intros (p & [= <-] & H). exact H.
  - split; [discriminate|]. intros (p & H & _). discriminate.
Qed.

(** ** Counting pieces *)

Lemma NoDup_allCells : NoDup allCells.
Proof. apply (bool_decide_unpack _). vm_compute. exact I. Qed.

Lemma length_allCells : length allCells = 64%nat.
Proof. reflexivity. Qed.

Lemma filter_one_more {A : Type} (f h : A -> bool) (x : A) (l : list A) :
  NoDup l -> x ∈ l -> f x = false -> h x = true ->
  (forall y, y <> x -> h y = f y) ->
  length (List.filter h l) = S (length (List.filter f l)).
Proof.
  intros Hnd Hx Hfx Hhx Hrest. induction l as [|a l IH]; [inversion Hx|].
  apply NoDup_cons in Hnd as [Ha Hnd]. cbn [List.filter].
  apply elem_of_cons in Hx as [->|Hx].
  - rewrite Hfx, Hhx. cbn [length]. f_equal. f_equal.
    apply filter_ext_in_iff. intros y Hy. apply Hrest. intros ->.
    apply Ha, list_elem_of_In, Hy.
  - assert (Hne : a <> x) by (intros ->; contradiction).
    rewrite (Hrest a Hne).
    destruct (f a); cbn [length]; rewrite (IH Hnd Hx); reflexivity.
Qed.

Lemma filter_length_le {A : Type} (f h : A -> bool) (l : list A) :
  (forall x, f x = true -> h x = true) ->
  (length (List.filter f l) <= length (List.filter h l))%nat.
Proof.
  intros H. induction l as [|a l IH]; [reflexivity|]. cbn [List.filter].
  destruct (f a) eqn:E.
  - rewrite (H a E). cbn [length]. lia.
  - destruct (h a); cbn [length]; lia.
Qed.

Lemma filter_length_split {A : Type} (f : A -> bool) (l : list A) :
  (length (List.filter f l) + length (List.filter (fun x => negb (f x)) l))%nat =
  length l.
Proof.
  induction l as [|a l IH]; [reflexivity|]. cbn [List.filter].
  destruct (f a); cbn [negb length]; lia.
Qed.

Lemma pieceCount_le (b : Board) : (pieceCount b <= 64)%nat.
Proof.
  unfold pieceCount.
  pose proof (filter_length_split (fun pos => occupied (readCell (grid b) pos)) allCells)
    as H.
  rewrite length_allCells in H. lia.
Qed.

(** The two outcomes of [placePiece] on an 8 by 8 grid. *)
Lemma placePiece_outcome (fuel : nat) (pos : Pos) (color : string) (b : Board) :
  wf_board b -> (8 <= fuel)%nat ->
  (legal fuel (grid b) pos color = true /\
   exists b',
     placePiece fuel pos color b = (Ret tt, b') /\
     forall q, readCell (grid b') q =
               if decide (q = pos) then Some (Piece.new color)
               else if decide (q ∈ flipLists fuel (grid b) pos color)
                    then Piece.flip <$> readCell (grid b) q
                    else readCell (grid b) q) \/
  (legal fuel (grid b) pos color = false /\
   placePiece fuel pos color b = (Throw InvalidMove, b)).
Proof.
  intros Hwf Hf. destruct (legal fuel (grid b) pos color) eqn:Hl.
  - left. split; [reflexivity|]. apply placePiece_run; assumption.
  - right. split; [reflexivity|]. rewrite placePiece_steps, Hl by exact Hf. reflexivity.
Qed.

Lemma occupied_fmap (f : Piece -> Piece) (c : option Piece) :
  occupied (f <$> c) = occupied c.
Proof. destruct c; reflexivity. Qed.

Lemma placePiece_pieceCount (fuel : nat) (pos : Pos) (color : string) (b b' : Board) :
  wf_board b -> (8 <= fuel)%nat ->
  placePiece fuel pos color b = (Ret tt, b') ->
  pieceCount b' = S (pieceCount b).
Proof.
  intros Hwf Hf Hrun.
  destruct (placePiece_outcome fuel pos color b Hwf Hf)
    as [(Hl & b0 & Hrun0 & Hb0)|(_ & Hthrow)]; [|congruence].
  assert (b0 = b') as -> by congruence.
  apply legal_spec in Hl as (Hv & Ho & _).
  unfold pieceCount. apply (filter_one_more _ _ pos).
  - exact NoDup_allCells.
  - apply allCells_onBoard. exact Hv.
  - exact Ho.
  - rewrite Hb0, decide_True by reflexivity. reflexivity.
  - intros q Hq. rewrite Hb0, decide_False by exact Hq.
    case_decide; [apply occupied_fmap|reflexivity].
Qed.

Lemma perform_pieceCount (fuel : nat) (b : Board) (c : call) :
  wf_board b -> (8 <= fuel)%nat ->
  pieceCount (perform fuel b c) =
  ((if placed fuel b c then 1 else 0) + pieceCount b)%nat.
Proof.
  intros Hwf Hf. destruct c; cbn [perform placed];
    rewrite ?getPiece_frame, ?hasMove_frame, ?isMine_frame, ?isOccupied_frame,
      ?isOver_frame, ?isValidPos_frame, ?validMove_frame, ?validMoves_frame;
    try reflexivity.
  destruct (placePiece_outcome fuel pos color b Hwf Hf)
    as [(_ & b' & Hrun & _)|(_ & Hthrow)].
  - rewrite Hrun. cbn [fst snd]. apply (placePiece_pieceCount fuel pos color); assumption.
  - rewrite Hthrow. reflexivity.
Qed.

Lemma performAll_pieceCount (fuel : nat) (cs : list call) :
  (8 <= fuel)%nat ->
  forall b, wf_board b ->
    pieceCount (performAll fuel b cs) = (pieceCount b + placements fuel b cs)%nat.
Proof.
  intros Hf. unfold performAll.
  induction cs as [|c cs IH]; intros b Hwf; cbn [fold_left placements]; [lia|].
  rewrite IH by (apply perform_keeps; exact Hwf).
  rewrite perform_pieceCount by assumption. lia.
Qed.

(** ** Further facts on moves *)

Lemma gathered_flipLists (fuel : nat) (b : Board) (pos : Pos) (color : string) :
  gathered fuel b pos color = flipLists fuel (grid b) pos color.
Proof.
  unfold gathered, flipLists, flipList. apply flat_map_agree.
  intros dir _. rewrite positionsToFlip_run. cbn [fst].
  destruct (scan fuel (grid b) (step pos dir) color dir []) as [[l|]| |]; reflexivity.
Qed.

Lemma along_onLine (pos dir : Pos) (k : Z) :
  dir ∈ DIRS -> onLine pos (along pos dir k).
Proof.
  unfold DIRS, onLine, along. rewrite !elem_of_cons, elem_of_nil.
  intros H. repeat (destruct H as [->|H]; [cbn [fst snd]; lia|]). contradiction.
Qed.

Lemma onLine_refl (pos : Pos) : onLine pos pos.
Proof. left. reflexivity. Qed.

Lemma flipLists_onLine (fuel : nat) (g : Grid) (pos : Pos) (color : string) (q : Pos) :
  q ∈ flipLists fuel g pos color -> onLine pos q.
Proof.
  rewrite elem_of_flipLists. intros (dir & l & Hd & Hl & Hq).
  apply flipList_ray in Hl as (n & -> & _); [|apply DIRS_moves; exact Hd].
  apply elem_of_ray in Hq as (j & _ & ->). apply along_onLine. exact Hd.
Qed.

(** Off the board or on an occupied cell, [validMove] returns false before
    any ray is cast. *)
Lemma validMove_refuses (fuel : nat) (pos : Pos) (color : string) (b : Board) :
  onBoard pos = false \/ occupied (readCell (grid b) pos) = true ->
  validMove fuel pos color b = (Ret false, b).
Proof.
  intros H. unfold validMove, bind at 1. rewrite isValidPos_run.
  destruct (onBoard pos) eqn:Hv; [|reflexivity]. cbn [negb].
  unfold bind at 1. rewrite isOccupied_run, Hv.
  destruct H as [H|H]; [discriminate|]. rewrite H. reflexivity.
Qed.

Lemma placePiece_refuses (fuel : nat) (pos : Pos) (color : string) (b : Board) :
  onBoard pos = false \/ occupied (readCell (grid b) pos) = true ->
  placePiece fuel pos color b = (Throw InvalidMove, b).
Proof.
  intros H. unfold placePiece, bind at 1.
  rewrite validMove_refuses by exact H. reflexivity.
Qed.

(** A scan reads cells of the board only. *)
Lemma scan_agree_onBoard (g g' : Grid) (color : string) (pos dir : Pos) (fuel : nat) :
  forall (k : Z) (acc : list Pos),
    (forall j, k <= j -> onBoard (along pos dir j) = true ->
               readCell g' (along pos dir j) = readCell g (along pos dir j)) ->
    scan fuel g' (along pos dir k) color dir acc =
    scan fuel g (along pos dir k) color dir acc.
Proof.
  induction fuel as [|fuel IH]; intros k acc H; [reflexivity|].
  rewrite !scan_S.
  destruct (onBoard (along pos dir k)) eqn:Hv; [|reflexivity].
  rewrite H by (lia || exact Hv).
  destruct (readCell g (along pos dir k)) as [piece|]; [|reflexivity].
  destruct (String.eqb (Piece.color piece) color); [reflexivity|].
  rewrite step_along. apply IH. intros j Hj. apply H. lia.
Qed.

(** The legality of a move depends on the cells of its lines only. *)
Lemma legal_local (fuel : nat) (g g' : Grid) (pos : Pos) (color : string) :
  (forall q, onBoard q = true -> onLine pos q -> readCell g' q = readCell g q) ->
  legal fuel g' pos color = legal fuel g pos color.
Proof.
  intros H. unfold legal. destruct (onBoard pos) eqn:Hv; [|reflexivity].
  rewrite (H pos Hv (onLine_refl pos)). f_equal.
  apply existsb_agree. intros dir Hd. unfold flipList.
  rewrite !step_along_1. rewrite (scan_agree_onBoard g g'); [reflexivity|].
  intros j _ Hvj. apply H; [exact Hvj|]. apply along_onLine, Hd.
Qed.

(** A colour that no piece of the board has brackets nothing. *)
Lemma legal_absent (fuel : nat) (g : Grid) (pos : Pos) (color : string) :
  (forall q, onBoard q = true -> sameColor (readCell g q) color = false) ->
  legal fuel g pos color = false.
Proof.
  intros H. destruct (legal fuel g pos color) eqn:Hl; [|reflexivity].
  apply legal_spec in Hl as (_ & _ & dir & l & _ & Hfl & _).
  unfold flipList in Hfl.
  destruct (scan fuel g (step pos dir) color dir []) as [r| |] eqn:E; try discriminate.
  subst r. apply scan_bracket in E as (n & _ & _ & _ & Hv & Hm).
  rewrite (H _ Hv) in Hm. discriminate.
Qed.

Lemma filter_none {A : Type} (f : A -> bool) (l : list A) :
  (forall x, f x = false) -> List.filter f l = [].
Proof.
  intros H. induction l as [|a l IH]; [reflexivity|]. cbn [List.filter].
  rewrite H. exact IH.
Qed.

Lemma existsb_true {A : Type} (f : A -> bool) (l : list A) :
  existsb f l = true <-> exists x, x ∈ l /\ f x = true.
Proof.
  rewrite existsb_exists. split; intros (x & Hx & Hf); exists x;
    (split; [apply list_elem_of_In; exact Hx|exact Hf]).
Qed.

Lemma existsb_false {A : Type} (f : A -> bool) (l : list A) :
  existsb f l = false <-> forall x, x ∈ l -> f x = false.
Proof.
  split.
  - intros H x Hx. destruct (f x) eqn:E; [|reflexivity].
    assert (existsb f l = true) by (apply existsb_true; eauto). congruence.
  - intros H. destruct (existsb f l) eqn:E; [|reflexivity].
    apply existsb_true in E as (x & Hx & Hf). rewrite (H x Hx) in Hf. discriminate.
Qed.

Lemma legal_onBoard (fuel : nat) (g : Grid) (pos : Pos) (color : string) :
  legal fuel g pos color = true -> onBoard pos = true.
Proof. intros H. apply legal_spec in H. tauto. Qed.

(** ** The board with its pieces as objects: what the queries leave *)

Lemma obj_bind_frame {A B : Type} (m : Obj.M A) (k : A -> Obj.M B) (b : Obj.Board) :
  snd (m b) = b -> (forall a, snd (k a b) = b) -> snd (Obj.bind m k b) = b.
Proof.
  intros Hm Hk. unfold Obj.bind. destruct (m b) as [[a|e|] b'] eqn:E; cbn in Hm; subst b';
    [apply Hk|reflexivity|reflexivity].
Qed.

Lemma obj_forEach_frame {A S : Type} (l : list A) (f : S -> A -> Obj.M S)
    (b : Obj.Board) :
  (forall acc x, snd (f acc x b) = b) ->
  forall acc, snd (Obj.forEach l f acc b) = b.
Proof.
  intros Hf. induction l as [|x l IH]; intros acc; [reflexivity|].
  cbn [Obj.forEach]. apply obj_bind_frame; [apply Hf|]. intros a. apply IH.
Qed.

Lemma obj_getPiece_run (pos : Pos) (b : Obj.Board) :
  Obj.getPiece pos b =
  if onBoard pos then
    match index (Obj.grid b) pos.1 with
    | Some r => (Ret (Obj.read r pos.2), b)
    | None => (Throw TypeError, b)
    end
  else (Throw NotValidPos, b).
Proof.
  unfold Obj.getPiece, Obj.bind, Obj.isValidPos, Obj.ret, Obj.getGrid. fold (onBoard pos).
  destruct (onBoard pos); [|reflexivity]. cbn [negb].
  destruct (index (Obj.grid b) pos.1); reflexivity.
Qed.

Lemma obj_getPiece_frame (pos : Pos) (b : Obj.Board) : snd (Obj.getPiece pos b) = b.
Proof.
  rewrite obj_getPiece_run. destruct (onBoard pos); [|reflexivity].
  destruct (index (Obj.grid b) pos.1); reflexivity.
Qed.

Lemma obj_colorOf_frame (v : Obj.value) (b : Obj.Board) : snd (Obj.colorOf v b) = b.
Proof.
  destruct v as [| |l]; try reflexivity. cbn [Obj.colorOf].
  destruct (Obj.pieces b !! l); reflexivity.
Qed.

Lemma obj_isMine_frame (pos : Pos) (color : string) (b : Obj.Board) :
  snd (Obj.isMine pos color b) = b.
Proof.
  unfold Obj.isMine. apply obj_bind_frame; [apply obj_getPiece_frame|].
  intros [| |l]; try reflexivity.
  apply obj_bind_frame; [apply obj_getPiece_frame|]. intros p'.
  apply obj_bind_frame; [apply obj_colorOf_frame|]. reflexivity.
Qed.

Lemma obj_isOccupied_run (pos : Pos) (b : Obj.Board) :
  Obj.isOccupied pos b =
  if onBoard pos then
    match index (Obj.grid b) pos.1 with
    | Some r => (Ret (match Obj.read r pos.2 with Obj.Null => false | _ => true end), b)
    | None => (Throw TypeError, b)
    end
  else (Throw NotValidPos, b).
Proof.
  unfold Obj.isOccupied, Obj.bind. rewrite obj_getPiece_run.
  destruct (onBoard pos); [|reflexivity].
  destruct (index (Obj.grid b) pos.1); reflexivity.
Qed.

Lemma obj_isOccupied_frame (pos : Pos) (b : Obj.Board) :
  snd (Obj.isOccupied pos b) = b.
Proof.
  unfold Obj.isOccupied. apply obj_bind_frame; [apply obj_getPiece_frame|]. reflexivity.
Qed.

Lemma obj_positionsToFlip_frame (fuel : nat) :
  forall (pos : Pos) (color : string) (dir : Pos) (acc : list Obj.value) (b : Obj.Board),
    snd (Obj._positionsToFlip fuel pos color dir acc b) = b.
Proof.
  induction fuel as [|fuel IH]; intros pos color dir acc b; [reflexivity|].
  cbn [Obj._positionsToFlip].
  apply obj_bind_frame; [reflexivity|]. intros v. destruct (negb v); [reflexivity|].
  apply obj_bind_frame; [apply obj_isMine_frame|]. intros mine.
  destruct mine; [destruct (length acc =? 0)%nat; reflexivity|].
  apply obj_bind_frame; [apply obj_isOccupied_frame|]. intros occ.
  destruct (negb occ); [reflexivity|].
  apply obj_bind_frame; [apply obj_getPiece_frame|]. intros piece. apply IH.
Qed.

Lemma obj_validMove_frame (fuel : nat) (pos : Pos) (color : string) (b : Obj.Board) :
  snd (Obj.validMove fuel pos color b) = b.
Proof.
  unfold Obj.validMove. apply obj_bind_frame; [reflexivity|]. intros v.
  destruct (negb v); [reflexivity|].
  apply obj_bind_frame; [apply obj_isOccupied_frame|]. intros occ.
  destruct occ; [reflexivity|].
  apply obj_forEach_frame. intros valid dir.
  apply obj_bind_frame; [apply obj_positionsToFlip_frame|]. intros [l|]; reflexivity.
Qed.

Lemma obj_validMoves_frame (fuel : nat) (color : string) (b : Obj.Board) :
  snd (Obj.validMoves fuel color b) = b.
Proof.
  unfold Obj.validMoves. apply obj_forEach_frame. intros moves i.
  apply obj_forEach_frame. intros moves' j.
  apply obj_bind_frame; [apply obj_validMove_frame|]. intros [|]; reflexivity.
Qed.

Lemma obj_hasMove_frame (fuel : nat) (color : string) (b : Obj.Board) :
  snd (Obj.hasMove fuel color b) = b.
Proof.
  unfold Obj.hasMove. apply obj_bind_frame; [apply obj_validMoves_frame|]. reflexivity.
Qed.

Lemma obj_isOver_frame (fuel : nat) (b : Obj.Board) : snd (Obj.isOver fuel b) = b.
Proof.
  unfold Obj.isOver. apply obj_bind_frame; [apply obj_hasMove_frame|]. intros w.
  destruct (negb w); [|reflexivity].
  apply obj_bind_frame; [apply obj_hasMove_frame|]. reflexivity.
Qed.

Lemma obj_collect_frame (fuel : nat) (pos : Pos) (color : string)
    (acc : list Obj.value) (b : Obj.Board) :
  snd (Obj.forEach DIRS (fun pieces dir =>
         let next_pos := (pos.1 + dir.1, pos.2 + dir.2) in
         Obj.bind (Obj._positionsToFlip fuel next_pos color dir [])
           (fun pieces_to_concat =>
              match pieces_to_concat with
              | Some l => Obj.ret (pieces ++ l)
              | None => Obj.ret pieces
              end)) acc b) = b.
Proof.
  apply obj_forEach_frame. intros pieces dir.
  apply obj_bind_frame; [apply obj_positionsToFlip_frame|]. intros [l|]; reflexivity.
Qed.

(** A move that [validMove] accepts is on the board, and the element of the
    grid at its position exists and is [null], whatever the fuel. *)
Lemma obj_validMove_true (fuel : nat) (pos : Pos) (color : string) (b : Obj.Board) :
  fst (Obj.validMove fuel pos color b) = Ret true ->
  onBoard pos = true /\
  exists r, index (Obj.grid b) pos.1 = Some r /\ index r pos.2 = Some Obj.Null.
Proof.
  unfold Obj.validMove, Obj.bind at 1, Obj.isValidPos, Obj.ret. fold (onBoard pos).
  destruct (onBoard pos) eqn:Hv; [|discriminate]. cbn [negb].
  unfold Obj.bind at 1. rewrite obj_isOccupied_run, Hv.
  destruct (index (Obj.grid b) pos.1) as [r|] eqn:Hr; [|discriminate].
  unfold Obj.read. destruct (index r pos.2) as [[| |l]|] eqn:Hc; try discriminate.
  intros _. split; [reflexivity|]. exists r. auto.
Qed.

(** ** The board with its pieces as objects: what a placement keeps *)

Lemma index_some {A : Type} (a : list A) (i : Z) (x : A) :
  index a i = Some x <-> 0 <= i /\ a !! Z.to_nat i = Some x.
Proof.
  unfold index. destruct (i <? 0) eqn:E.
  - split; [discriminate|]. intros [H _]. lia.
  - split; [intros H; split; [lia|exact H]|intros [_ H]; exact H].
Qed.

Lemma obj_readCell_onBoard (b : Obj.Board) (pos : Pos) :
  Obj.shape b -> Obj.readCell b pos <> Obj.Undefined -> onBoard pos = true.
Proof.
  intros [Hl Hr] H. unfold Obj.readCell, Obj.read in H. apply onBoard_spec.
  destruct (index (Obj.grid b) pos.1) as [r|] eqn:E1; [|contradiction].
  destruct (index r pos.2) as [x|] eqn:E2; [|contradiction].
  apply index_some in E1 as [H1 E1]. apply index_some in E2 as [H2 E2].
  rewrite Forall_lookup in Hr. pose proof (Hr _ _ E1) as Hlen.
  apply lookup_lt_Some in E1, E2. lia.
Qed.

Lemma obj_assign_within (r : list Obj.value) (i : Z) (x v : Obj.value) :
  index r i = Some x -> Obj.assign r i v = <[Z.to_nat i := v]> r.
Proof.
  intros H. apply index_some in H as [Hi H]. apply lookup_lt_Some in H.
  unfold Obj.assign. destruct (i <? 0) eqn:E; [lia|].
  destruct (Z.to_nat i <? length r)%nat eqn:E'; [reflexivity|].
  apply Nat.ltb_ge in E'. lia.
Qed.

(** Past the end, the assignment makes the array longer. *)
Lemma obj_assign_beyond (r : list Obj.value) (i : Z) (v : Obj.value) :
  Z.of_nat (length r) <= i -> length (Obj.assign r i v) = S (Z.to_nat i).
Proof.
  intros H. unfold Obj.assign. destruct (i <? 0) eqn:E; [lia|].
  destruct (Z.to_nat i <? length r)%nat eqn:E'; [apply Nat.ltb_lt in E'; lia|].
  rewrite !length_app, length_replicate. cbn [length]. lia.
Qed.

(** Reading the grid after the element at [pos], which exists, has been
    replaced. *)
Lemma obj_readCell_write (g : list (list Obj.value)) (ps ps' : list Piece) (pos : Pos)
    (r : list Obj.value) (x v : Obj.value) (q : Pos) :
  index g pos.1 = Some r -> index r pos.2 = Some x ->
  Obj.readCell (Obj.mkBoard (<[Z.to_nat pos.1 := <[Z.to_nat pos.2 := v]> r]> g) ps') q =
  if decide (q = pos) then v else Obj.readCell (Obj.mkBoard g ps) q.
Proof.
  intros Hr Hx. apply index_some in Hr as [H1 Hr]. apply index_some in Hx as [H2 Hx].
  pose proof (lookup_lt_Some _ _ _ Hr) as Hlr. pose proof (lookup_lt_Some _ _ _ Hx) as Hlx.
  unfold Obj.readCell, Obj.read, index. cbn [Obj.grid].
  case_decide as Hq.
  - subst q. destruct (pos.1 <? 0) eqn:E1; [lia|].
    rewrite list_lookup_insert_eq by exact Hlr.
    destruct (pos.2 <? 0) eqn:E2; [lia|].
    rewrite list_lookup_insert_eq by exact Hlx. reflexivity.
  - destruct (q.1 <? 0) eqn:E1; [reflexivity|].
    destruct (decide (Z.to_nat pos.1 = Z.to_nat q.1)) as [Heq|Hne].
    + rewrite <- Heq, list_lookup_insert_eq, Hr by exact Hlr.
      destruct (q.2 <? 0) eqn:E2; [reflexivity|].
      rewrite list_lookup_insert_ne; [reflexivity|].
      intros Hc. apply Hq. destruct q, pos. cbn [fst snd] in *. f_equal; lia.
    + rewrite list_lookup_insert_ne by exact Hne. reflexivity.
Qed.

Lemma obj_keeps_refl (b : Obj.Board) : Obj.keeps b b.
Proof. split; [intros l p H; exists 0%nat; exact H|auto]. Qed.

Lemma obj_keeps_trans (b1 b2 b3 : Obj.Board) :
  Obj.keeps b1 b2 -> Obj.keeps b2 b3 -> Obj.keeps b1 b3.
Proof.
  intros [Hp12 Hc12] [Hp23 Hc23]. split; [|auto].
  intros l p H. apply Hp12 in H as [n Hn]. apply Hp23 in Hn as [m Hm].
  exists (m + n)%nat. rewrite Nat.iter_add. exact Hm.
Qed.

(** Flipping pieces touches neither the grid nor the number of pieces, and
    leaves each piece flipped some number of times. *)
Lemma obj_flipAll (l : list Obj.value) :
  forall b,
    let b' := snd (Obj.forEach l (fun _ piece => Obj.flip piece) tt b) in
    Obj.grid b' = Obj.grid b /\
    length (Obj.pieces b') = length (Obj.pieces b) /\
    forall l0 p, Obj.pieces b !! l0 = Some p ->
      exists n : nat, Obj.pieces b' !! l0 = Some (Nat.iter n Piece.flip p).
Proof.
  induction l as [|v l IH]; intros b; cbn zeta.
  - repeat split. intros l0 p H. exists 0%nat. exact H.
  - cbn [Obj.forEach]. unfold Obj.bind.
    assert (Hstop : Obj.grid b = Obj.grid b /\
                    length (Obj.pieces b) = length (Obj.pieces b) /\
                    forall l0 p, Obj.pieces b !! l0 = Some p ->
                      exists n : nat, Obj.pieces b !! l0 = Some (Nat.iter n Piece.flip p))
      by (repeat split; intros l0 p H; exists 0%nat; exact H).
    destruct v as [| |lv]; cbn [Obj.flip Obj.throw snd]; try exact Hstop.
    destruct (Obj.pieces b !! lv) as [pv|] eqn:Hlv; cbn [snd]; [|exact Hstop].
    specialize (IH (Obj.mkBoard (Obj.grid b) (<[lv := Piece.flip pv]> (Obj.pieces b)))).
    cbn zeta in IH. destruct IH as (Hg & Hlen & Hp). cbn [Obj.grid Obj.pieces] in *.
    split; [exact Hg|]. split; [rewrite Hlen; apply length_insert|].
    intros l0 p H. destruct (decide (l0 = lv)) as [->|Hne].
    + assert (p = pv) as -> by congruence.
      destruct (Hp lv (Piece.flip pv)) as [n Hn].
      { apply list_lookup_insert_eq. apply lookup_lt_Some in Hlv. exact Hlv. }
      exists (n + 1)%nat. rewrite Nat.iter_add. exact Hn.
    + apply Hp. rewrite list_lookup_insert_ne by congruence. exact H.
Qed.

(** The board that [placePiece] leaves: either the board it was called on,
    or that board with the [null] element at [pos] replaced by a piece
    created by the call, and the pieces there were flipped some number of
    times. *)
Lemma obj_placePiece_leaves (fuel : nat) (pos : Pos) (color : string) (b : Obj.Board) :
  let b' := snd (Obj.placePiece fuel pos color b) in
  b' = b \/
  (Obj.validMove fuel pos color b = (Ret true, b) /\
   onBoard pos = true /\
   exists r,
     index (Obj.grid b) pos.1 = Some r /\ index r pos.2 = Some Obj.Null /\
     Obj.grid b' =
       <[Z.to_nat pos.1 := <[Z.to_nat pos.2 := Obj.Ref (length (Obj.pieces b))]> r]>
         (Obj.grid b) /\
     length (Obj.pieces b') = S (length (Obj.pieces b)) /\
     forall l p, Obj.pieces b !! l = Some p ->
       exists n : nat, Obj.pieces b' !! l = Some (Nat.iter n Piece.flip p)).
Proof.
  cbn zeta. destruct (Obj.placePiece fuel pos color b) as [o b'] eqn:E. cbn [snd].
  unfold Obj.placePiece, Obj.bind at 1 in E.
  pose proof (obj_validMove_frame fuel pos color b) as Hfr.
  pose proof (obj_validMove_true fuel pos color b) as Htrue.
  destruct (Obj.validMove fuel pos color b) as [[v|e|] b0]; cbn [fst snd] in *; subst b0;
    try (left; congruence).
  destruct v; cbn [negb] in E; [|left; unfold Obj.throw in E; congruence].
  destruct (Htrue eq_refl) as (Hv & r & Hr & Hc). right.
  split; [reflexivity|]. split; [exact Hv|]. exists r.
  split; [exact Hr|]. split; [exact Hc|].
  cbv zeta in E. unfold Obj.bind at 1, Obj.getGrid in E. rewrite Hr in E.
  unfold Obj.bind at 1, Obj.newPiece in E. unfold Obj.bind at 1, Obj.setGrid in E.
  cbn [Obj.grid Obj.pieces] in E.
  rewrite (obj_assign_within r pos.2 Obj.Null) in E by exact Hc.
  set (b1 := Obj.mkBoard _ _) in E.
  unfold Obj.bind at 1 in E.
  pose proof (obj_collect_frame fuel pos color [] b1) as Hscan.
  match type of E with
  | context [Obj.forEach DIRS ?f [] b1] =>
      change (snd (Obj.forEach DIRS f [] b1) = b1) in Hscan;
      destruct (Obj.forEach DIRS f [] b1) as [[gathered|e|] b2]
  end; cbn [snd] in Hscan; subst b2.
  - destruct (obj_flipAll gathered b1) as (Hg & Hlen & Hp).
    rewrite E in Hg, Hlen, Hp. cbn [snd] in Hg, Hlen, Hp.
    rewrite Hg, Hlen. unfold b1. cbn [Obj.grid Obj.pieces].
    split; [reflexivity|]. split; [rewrite length_app; cbn [length]; lia|].
    intros l p Hl. apply Hp. unfold b1. cbn [Obj.pieces].
    apply lookup_app_l_Some. exact Hl.
  - assert (b' = b1) as -> by congruence. unfold b1. cbn [Obj.grid Obj.pieces].
    split; [reflexivity|]. split; [rewrite length_app; cbn [length]; lia|].
    intros l p Hl. exists 0%nat. apply lookup_app_l_Some. exact Hl.
  - assert (b' = b1) as -> by congruence. unfold b1. cbn [Obj.grid Obj.pieces].
    split; [reflexivity|]. split; [rewrite length_app; cbn [length]; lia|].
    intros l p Hl. exists 0%nat. apply lookup_app_l_Some. exact Hl.
Qed.

Lemma obj_getPiece_shape (b : Obj.Board) (pos : Pos) :
  Obj.shape b -> onBoard pos = true ->
  Obj.getPiece pos b = (Ret (Obj.readCell b pos), b).
Proof.
  intros [Hl _] Hv. rewrite obj_getPiece_run, Hv. unfold Obj.readCell.
  destruct (index (Obj.grid b) pos.1) as [r|] eqn:E; [reflexivity|].
  apply onBoard_spec in Hv. unfold index in E.
  destruct (pos.1 <? 0) eqn:E1; [lia|]. apply lookup_ge_None in E. lia.
Qed.

Lemma obj_getPiece_ref (b : Obj.Board) (pos : Pos) (v : Obj.value) :
  Obj.shape b ->
  (Obj.getPiece pos b = (Ret v, b) <-> onBoard pos = true /\ Obj.readCell b pos = v).
Proof.
  intros Hs. split.
  - intros H. destruct (onBoard pos) eqn:Hv.
    + rewrite (obj_getPiece_shape b pos Hs Hv) in H. split; [reflexivity|congruence].
    + rewrite obj_getPiece_run, Hv in H. discriminate.
  - intros [Hv <-]. apply obj_getPiece_shape; assumption.
Qed.

Lemma obj_ref_bound (b : Obj.Board) (pos : Pos) (l : nat) :
  Obj.shape b -> Obj.owned b -> Obj.readCell b pos = Obj.Ref l ->
  (l < length (Obj.pieces b))%nat.
Proof.
  intros Hs [Hcells _] H.
  assert (Hv : onBoard pos = true)
    by (apply (obj_readCell_onBoard b pos Hs); rewrite H; discriminate).
  destruct (Hcells pos Hv) as [Hn|(l' & Hl' & Hlt)]; [congruence|].
  assert (l = l') by congruence. subst l'. exact Hlt.
Qed.

(** Reading a cell looks at the grid only. *)
Lemma obj_write_cells (b b' : Obj.Board) (pos : Pos) (r : list Obj.value)
    (x v : Obj.value) :
  index (Obj.grid b) pos.1 = Some r -> index r pos.2 = Some x ->
  Obj.grid b' = <[Z.to_nat pos.1 := <[Z.to_nat pos.2 := v]> r]> (Obj.grid b) ->
  forall q, Obj.readCell b' q = if decide (q = pos) then v else Obj.readCell b q.
Proof.
  intros Hr Hx Hg q.
  change (Obj.readCell b' q) with (Obj.readCell (Obj.mkBoard (Obj.grid b') []) q).
  rewrite Hg.
  change (Obj.readCell b q) with (Obj.readCell (Obj.mkBoard (Obj.grid b) []) q).
  apply (obj_readCell_write _ _ _ _ _ x); assumption.
Qed.

(** Assigning a piece that has just been created to an element of the grid
    keeps the grid 8 by 8 and every piece in one cell. *)
Lemma obj_write_inv (b b' : Obj.Board) (pos : Pos) (r : list Obj.value) (x : Obj.value) :
  Obj.shape b -> Obj.owned b ->
  index (Obj.grid b) pos.1 = Some r -> index r pos.2 = Some x ->
  Obj.grid b' =
    <[Z.to_nat pos.1 := <[Z.to_nat pos.2 := Obj.Ref (length (Obj.pieces b))]> r]>
      (Obj.grid b) ->
  length (Obj.pieces b') = S (length (Obj.pieces b)) ->
  Obj.shape b' /\ Obj.owned b'.
Proof.
  intros Hs Ho Hr Hc Hg Hlen.
  pose proof (obj_write_cells b b' pos r x _ Hr Hc Hg) as Hcell.
  split.
  - destruct Hs as [Hl Hrows]. unfold Obj.shape. rewrite Hg. split.
    + rewrite length_insert. exact Hl.
    + apply Forall_insert; [exact Hrows|]. rewrite length_insert.
      apply index_some in Hr as [_ Hr]. rewrite Forall_lookup in Hrows.
      apply (Hrows _ _ Hr).
  - destruct Ho as [Hcells Hinj]. split.
    + intros q Hq. rewrite Hcell, Hlen. case_decide.
      * right. eexists. split; [reflexivity|lia].
      * destruct (Hcells q Hq) as [Hn|(l & Hl & Hlt)]; [left; exact Hn|].
        right. exists l. split; [exact Hl|lia].
    + intros q q' l. rewrite !Hcell.
      destruct (decide (q = pos)) as [->|Hq], (decide (q' = pos)) as [->|Hq'].
      * reflexivity.
      * intros [= <-] Hl'.
        apply (obj_ref_bound b q' _ Hs (conj Hcells Hinj)) in Hl'. lia.
      * intros Hl [= <-].
        apply (obj_ref_bound b q _ Hs (conj Hcells Hinj)) in Hl. lia.
      * apply Hinj.
Qed.

(** Reading, and the two invariants, look at the grid and at the number of
    pieces only. *)
Lemma obj_same_grid_inv (b b' : Obj.Board) :
  Obj.grid b' = Obj.grid b -> length (Obj.pieces b') = length (Obj.pieces b) ->
  Obj.shape b -> Obj.owned b ->
  (forall q, Obj.readCell b' q = Obj.readCell b q) /\ Obj.shape b' /\ Obj.owned b'.
Proof.
  intros Hg Hlen Hs Ho.
  assert (Hcell : forall q, Obj.readCell b' q = Obj.readCell b q)
    by (intros q; unfold Obj.readCell; rewrite Hg; reflexivity).
  split; [exact Hcell|]. split.
  - unfold Obj.shape. rewrite Hg. exact Hs.
  - destruct Ho as [Hcells Hinj]. split.
    + intros q Hq. rewrite Hcell, Hlen. apply Hcells. exact Hq.
    + intros q q' l. rewrite !Hcell. apply Hinj.
Qed.

Lemma obj_placePiece_keeps (fuel : nat) (pos : Pos) (color : string) (b : Obj.Board) :
  Obj.shape b -> Obj.owned b ->
  let b' := snd (Obj.placePiece fuel pos color b) in
  Obj.shape b' /\ Obj.owned b' /\ Obj.keeps b b'.
Proof.
  intros Hs Ho. pose proof (obj_placePiece_leaves fuel pos color b) as H.
  cbn zeta in *. set (b' := snd (Obj.placePiece fuel pos color b)) in *.
  destruct H as [->|(_ & Hv & r & Hr & Hc & Hg & Hlen & Hp)];
    [split; [exact Hs|split; [exact Ho|apply obj_keeps_refl]]|].
  destruct (obj_write_inv b b' pos r Obj.Null Hs Ho Hr Hc Hg Hlen) as [Hs' Ho'].
  split; [exact Hs'|]. split; [exact Ho'|].
  split; [exact Hp|]. intros q l Hq.
  rewrite (obj_write_cells b b' pos r Obj.Null _ Hr Hc Hg).
  rewrite decide_False; [exact Hq|]. intros ->.
  unfold Obj.readCell, Obj.read in Hq. rewrite Hr, Hc in Hq. discriminate.
Qed.

Lemma obj_perform_keeps (fuel : nat) (b : Obj.Board) (c : call) :
  Obj.shape b -> Obj.owned b ->
  Obj.shape (Obj.perform fuel b c) /\ Obj.owned (Obj.perform fuel b c) /\
  Obj.keeps b (Obj.perform fuel b c).
Proof.
  intros Hs Ho.
  assert (Hsame : Obj.shape b /\ Obj.owned b /\ Obj.keeps b b)
    by (split; [exact Hs|split; [exact Ho|apply obj_keeps_refl]]).
  destruct c; cbn [Obj.perform];
    rewrite ?obj_getPiece_frame, ?obj_hasMove_frame, ?obj_isMine_frame,
      ?obj_isOccupied_frame, ?obj_isOver_frame, ?obj_validMove_frame,
      ?obj_validMoves_frame;
    try exact Hsame.
  apply obj_placePiece_keeps; assumption.
Qed.

Lemma obj_performAll_keeps (fuel : nat) (cs : list call) :
  forall b, Obj.shape b -> Obj.owned b ->
    Obj.shape (Obj.performAll fuel b cs) /\ Obj.owned (Obj.performAll fuel b cs) /\
    Obj.keeps b (Obj.performAll fuel b cs).
Proof.
  unfold Obj.performAll. induction cs as [|c cs IH]; intros b Hs Ho; cbn [fold_left].
  - split; [exact Hs|split; [exact Ho|apply obj_keeps_refl]].
  - destruct (obj_perform_keeps fuel b c Hs Ho) as (Hs' & Ho' & Hk').
    destruct (IH _ Hs' Ho') as (Hs'' & Ho'' & Hk'').
    split; [exact Hs''|]. split; [exact Ho''|]. eapply obj_keeps_trans; eassumption.
Qed.

Lemma obj_Board_new_shape : Obj.shape Obj.Board_new.
Proof. split; [reflexivity|]. repeat constructor. Qed.

Lemma obj_Board_new_owned : Obj.owned Obj.Board_new.
Proof.
  assert (Hall : Forall (fun pos =>
                   Obj.readCell Obj.Board_new pos = Obj.Null \/
                   exists l, Obj.readCell Obj.Board_new pos = Obj.Ref l /\
                             (l < 4)%nat /\
                             pos = nth l [(3, 3); (3, 4); (4, 3); (4, 4)] (0, 0))
                 allCells).
  { let l := eval vm_compute in allCells in change allCells with l.
    repeat (constructor;
            [first [left; reflexivity
                   |right; exists 0%nat; split; [reflexivity|split; [lia|reflexivity]]
                   |right; exists 1%nat; split; [reflexivity|split; [lia|reflexivity]]
                   |right; exists 2%nat; split; [reflexivity|split; [lia|reflexivity]]
                   |right; exists 3%nat; split; [reflexivity|split; [lia|reflexivity]]]|]).
    constructor. }
  rewrite Forall_forall in Hall. split.
  - intros pos Hv. apply (proj2 (allCells_onBoard pos)) in Hv.
    destruct (Hall pos Hv) as [Hn|(l & Hl & Hlt & _)]; [left; exact Hn|].
    right. exists l. split; [exact Hl|exact Hlt].
  - intros pos pos' l Hl Hl'.
    assert (Hin : forall q, Obj.readCell Obj.Board_new q = Obj.Ref l -> q ∈ allCells).
    { intros q Hq. apply allCells_onBoard.
      apply (obj_readCell_onBoard _ _ obj_Board_new_shape). rewrite Hq. discriminate. }
    destruct (Hall pos (Hin pos Hl)) as [Hn|(l1 & H1 & _ & E1)]; [congruence|].
    destruct (Hall pos' (Hin pos' Hl')) as [Hn|(l2 & H2 & _ & E2)]; [congruence|].
    assert (l1 = l) by congruence. assert (l2 = l) by congruence. congruence.
Qed.

Lemma obj_isOccupied_shape (b : Obj.Board) (pos : Pos) :
  Obj.shape b -> onBoard pos = true ->
  Obj.isOccupied pos b =
  (Ret (match Obj.readCell b pos with Obj.Null => false | _ => true end), b).
Proof.
  intros Hs Hv. unfold Obj.isOccupied, Obj.bind.
  rewrite (obj_getPiece_shape b pos Hs Hv). reflexivity.
Qed.


(** ** The two embeddings agree *)

Lemma index_fmap {A B : Type} (f : A -> B) (a : list A) (i : Z) :
  index (f <$> a) i = f <$> index a i.
Proof. unfold index. destruct (i <? 0); [reflexivity|]. apply list_lookup_fmap. Qed.

Lemma readCell_erase (b : Obj.Board) (pos : Pos) :
  readCell (grid (erase b)) pos = cellOf (Obj.pieces b) (Obj.readCell b pos).
Proof.
  unfold readCell, erase, Obj.readCell, Obj.read. cbn [grid].
  rewrite index_fmap. destruct (index (Obj.grid b) pos.1) as [r|]; [|reflexivity].
  cbn [fmap option_fmap option_map]. rewrite index_fmap.
  destruct (index r pos.2); reflexivity.
Qed.

(** A cell of the board holds null or a piece of the store. *)
Lemma obj_cell (b : Obj.Board) (pos : Pos) :
  Obj.owned b -> onBoard pos = true ->
  match Obj.readCell b pos with
  | Obj.Undefined => False
  | Obj.Null => True
  | Obj.Ref l => exists p, Obj.pieces b !! l = Some p
  end.
Proof.
  intros Ho Hv. destruct (proj1 Ho pos Hv) as [->|(l & -> & Hlt)]; [exact I|].
  apply lookup_lt_is_Some in Hlt as [p Hp]. eauto.
Qed.

Lemma obj_isMine_shape (b : Obj.Board) (pos : Pos) (color : string) :
  Obj.shape b -> Obj.owned b -> onBoard pos = true ->
  Obj.isMine pos color b = (Ret (sameColor (readCell (grid (erase b)) pos) color), b).
Proof.
  intros Hs Ho Hv. unfold Obj.isMine, Obj.bind at 1.
  rewrite (obj_getPiece_shape b pos Hs Hv), readCell_erase.
  pose proof (obj_cell b pos Ho Hv) as Hc.
  destruct (Obj.readCell b pos) as [| |l] eqn:E; [contradiction|reflexivity|].
  destruct Hc as [p Hp].
  unfold Obj.bind at 1. rewrite (obj_getPiece_shape b pos Hs Hv), E.
  unfold Obj.bind, Obj.colorOf. rewrite Hp. cbn [cellOf sameColor]. rewrite Hp.
  reflexivity.
Qed.

Lemma obj_isOccupied_erase (b : Obj.Board) (pos : Pos) :
  Obj.shape b -> Obj.owned b -> onBoard pos = true ->
  Obj.isOccupied pos b = (Ret (occupied (readCell (grid (erase b)) pos)), b).
Proof.
  intros Hs Ho Hv. rewrite (obj_isOccupied_shape b pos Hs Hv), readCell_erase.
  pose proof (obj_cell b pos Ho Hv) as Hc.
  destruct (Obj.readCell b pos) as [| |l]; [contradiction|reflexivity|].
  destruct Hc as [p Hp]. cbn [cellOf]. rewrite Hp. reflexivity.
Qed.

(** One call of the scan, on a board whose cells hold null or a piece. *)
Lemma obj_positionsToFlip_S (fuel : nat) (pos : Pos) (color : string) (dir : Pos)
    (acc : list Obj.value) (b : Obj.Board) :
  Obj.shape b -> Obj.owned b ->
  Obj._positionsToFlip (S fuel) pos color dir acc b =
  if onBoard pos then
    match readCell (grid (erase b)) pos with
    | None => (Ret None, b)
    | Some piece =>
        if String.eqb (Piece.color piece) color then
          (Ret (match acc with [] => None | _ => Some acc end), b)
        else Obj._positionsToFlip fuel (step pos dir) color dir
               (acc ++ [Obj.readCell b pos]) b
    end
  else (Ret None, b).
Proof.
  intros Hs Ho. cbn [Obj._positionsToFlip]. unfold Obj.bind at 1, Obj.isValidPos, Obj.ret.
  fold (onBoard pos). destruct (onBoard pos) eqn:Hv; [|reflexivity]. cbn [negb].
  unfold Obj.bind at 1. rewrite (obj_isMine_shape b pos color Hs Ho Hv).
  destruct (readCell (grid (erase b)) pos) as [piece|] eqn:Hc; cbn [sameColor].
  - destruct (String.eqb (Piece.color piece) color).
    + destruct acc; reflexivity.
    + unfold Obj.bind at 1. rewrite (obj_isOccupied_erase b pos Hs Ho Hv), Hc.
      cbn [occupied negb]. unfold Obj.bind at 1.
      rewrite (obj_getPiece_shape b pos Hs Hv). reflexivity.
  - unfold Obj.bind at 1. rewrite (obj_isOccupied_erase b pos Hs Ho Hv), Hc. reflexivity.
Qed.

(** The scan of the board with objects returns the references held at the
    positions that the scan of the board of values returns. *)
Lemma obj_scan_erase (fuel : nat) (b : Obj.Board) (color : string) (dir : Pos) :
  Obj.shape b -> Obj.owned b ->
  forall (pos : Pos) (acc : list Pos),
    snd (Obj._positionsToFlip fuel pos color dir (refsAt b acc) b) = b /\
    related (sameFlips b)
      (scan fuel (grid (erase b)) pos color dir acc)
      (fst (Obj._positionsToFlip fuel pos color dir (refsAt b acc) b)).
Proof.
  intros Hs Ho. induction fuel as [|fuel IH]; intros pos acc.
  - split; reflexivity.
  - split; [apply obj_positionsToFlip_frame|].
    rewrite scan_S, (obj_positionsToFlip_S fuel pos color dir _ b Hs Ho).
    destruct (onBoard pos); [|exact I].
    destruct (readCell (grid (erase b)) pos) as [piece|]; [|exact I].
    destruct (String.eqb (Piece.color piece) color).
    + destruct acc; cbn; reflexivity.
    + specialize (IH (step pos dir) (acc ++ [pos])).
      unfold refsAt in *. rewrite fmap_app in IH. exact (proj2 IH).
Qed.

Lemma related_eq {A : Type} (o o' : outcome A) : related eq o o' -> o = o'.
Proof. destruct o, o'; cbn; intros H; congruence || contradiction || reflexivity. Qed.

Lemma forEach_related {A S S' : Type} (R : S -> S' -> Prop) (l : list A)
    (f : S -> A -> M S) (f' : S' -> A -> Obj.M S') (bv : Board) (bo : Obj.Board) :
  (forall acc acc' x, R acc acc' ->
     snd (f acc x bv) = bv /\ snd (f' acc' x bo) = bo /\
     related R (fst (f acc x bv)) (fst (f' acc' x bo))) ->
  forall acc acc', R acc acc' ->
    snd (forEach l f acc bv) = bv /\ snd (Obj.forEach l f' acc' bo) = bo /\
    related R (fst (forEach l f acc bv)) (fst (Obj.forEach l f' acc' bo)).
Proof.
  intros Hf. induction l as [|x l IH]; intros acc acc' Hacc.
  - cbn. auto.
  - cbn [forEach Obj.forEach]. unfold bind, Obj.bind.
    destruct (Hf acc acc' x Hacc) as (H1 & H2 & H3).
    destruct (f acc x bv) as [[a|e|] s], (f' acc' x bo) as [[a'|e'|] s'];
      cbn [fst snd related] in *; subst; try contradiction; auto.
Qed.

Lemma erase_wf (b : Obj.Board) : Obj.shape b -> wf_board (erase b).
Proof.
  intros [Hl Hr]. unfold wf_board, wf_grid, erase. cbn [grid]. split.
  - rewrite length_fmap. exact Hl.
  - apply Forall_fmap. eapply Forall_impl; [exact Hr|].
    intros r Hlen. cbn. rewrite length_fmap. exact Hlen.
Qed.

Lemma obj_validMove_erase (fuel : nat) (pos : Pos) (color : string) (b : Obj.Board) :
  Obj.shape b -> Obj.owned b ->
  Obj.validMove fuel pos color b = (fst (validMove fuel pos color (erase b)), b).
Proof.
  intros Hs Ho. unfold Obj.validMove, validMove, Obj.bind at 1, bind at 1.
  rewrite isValidPos_run. unfold Obj.isValidPos, Obj.ret. fold (onBoard pos).
  destruct (onBoard pos) eqn:Hv; [|reflexivity]. cbn [negb].
  unfold Obj.bind at 1, bind at 1.
  rewrite isOccupied_run, Hv, (obj_isOccupied_erase b pos Hs Ho Hv).
  destruct (occupied (readCell (grid (erase b)) pos)); [reflexivity|].
  match goal with
  | |- Obj.forEach DIRS ?f' false b = (fst (forEach DIRS ?f false (erase b)), b) =>
      assert (Hrel : snd (forEach DIRS f false (erase b)) = erase b /\
                     snd (Obj.forEach DIRS f' false b) = b /\
                     related eq (fst (forEach DIRS f false (erase b)))
                       (fst (Obj.forEach DIRS f' false b)));
      [apply forEach_related; [|reflexivity]
      |destruct Hrel as (_ & H2 & H3); apply related_eq in H3; rewrite H3;
       destruct (Obj.forEach DIRS f' false b) as [o s]; cbn [fst snd] in *;
       subst s; reflexivity]
  end.
  intros valid valid' dir <-. unfold bind, Obj.bind.
  rewrite positionsToFlip_run.
  destruct (obj_scan_erase fuel b color dir Hs Ho (pos.1 + dir.1, pos.2 + dir.2) [])
    as [H1 H2].
  cbn [refsAt fmap list_fmap] in H1, H2.
  destruct (Obj._positionsToFlip fuel (pos.1 + dir.1, pos.2 + dir.2) color dir [] b)
    as [o s]. cbn [fst snd] in *. subst s.
  destruct (scan fuel (grid (erase b)) (pos.1 + dir.1, pos.2 + dir.2) color dir [])
    as [[l|]| |], o as [[l'|]| |]; cbn in H2; try contradiction; cbn; auto.
Qed.

Lemma index_of_nat {A : Type} (a : list A) (i : nat) : index a (Z.of_nat i) = a !! i.
Proof.
  unfold index. destruct (Z.of_nat i <? 0) eqn:E; [apply Z.ltb_lt in E; lia|].
  rewrite Nat2Z.id. reflexivity.
Qed.

(** Two 8 by 8 grids that read the same at every position are the same. *)
Lemma grid_ext (g g' : Grid) :
  wf_grid g -> wf_grid g' ->
  (forall pos, readCell g pos = readCell g' pos) -> g = g'.
Proof.
  intros [Hl Hr] [Hl' Hr'] H.
  apply (list_eq_same_length _ _ 8%nat); [exact Hl'|exact Hl|].
  intros i r r' _ Hi Hi'.
  rewrite Forall_lookup in Hr, Hr'.
  apply (list_eq_same_length _ _ 8%nat); [exact (Hr' _ _ Hi')|exact (Hr _ _ Hi)|].
  intros j c c' _ Hj Hj'.
  specialize (H (Z.of_nat i, Z.of_nat j)). unfold readCell in H. cbn [fst snd] in H.
  rewrite !index_of_nat, Hi, Hi', !index_of_nat, Hj, Hj' in H. exact H.
Qed.

(** The board of values after the assignment of a new piece. *)
Lemma erase_write (b b' : Obj.Board) (pos : Pos) (color : string)
    (r : list Obj.value) (x : Obj.value) :
  Obj.shape b -> Obj.owned b -> onBoard pos = true ->
  index (Obj.grid b) pos.1 = Some r -> index r pos.2 = Some x ->
  Obj.grid b' =
    <[Z.to_nat pos.1 := <[Z.to_nat pos.2 := Obj.Ref (length (Obj.pieces b))]> r]>
      (Obj.grid b) ->
  Obj.pieces b' = Obj.pieces b ++ [Piece.new color] ->
  erase b' = mkBoard (writeCell (grid (erase b)) pos (Some (Piece.new color))).
Proof.
  intros Hs Ho Hv Hr Hx Hg Hp.
  assert (Hlen : length (Obj.pieces b') = S (length (Obj.pieces b)))
    by (rewrite Hp, length_app; cbn [length]; lia).
  destruct (obj_write_inv b b' pos r x Hs Ho Hr Hx Hg Hlen) as [Hs' _].
  pose proof (erase_wf b Hs) as Hwf. pose proof (erase_wf b' Hs') as Hwf'.
  pose proof (proj1 (onBoard_spec pos) Hv) as Hpos.
  rewrite <- (grid_ext (grid (erase b')) (writeCell (grid (erase b)) pos
                                           (Some (Piece.new color))));
    [reflexivity|exact Hwf'|apply writeCell_wf; exact Hwf|].
  intros q. rewrite readCell_erase, (obj_write_cells b b' pos r x _ Hr Hx Hg), Hp.
  destruct (decide (q = pos)) as [->|Hq].
  - rewrite readCell_writeCell_eq by assumption. cbn [cellOf].
    rewrite lookup_app_r by lia. rewrite Nat.sub_diag. reflexivity.
  - rewrite readCell_writeCell_ne by (lia || exact Hq). rewrite readCell_erase.
    destruct (Obj.readCell b q) as [| |l] eqn:E; try reflexivity. cbn [cellOf].
    apply lookup_app_l. apply (obj_ref_bound b q l Hs Ho E).
Qed.

(** The board of values after a piece has been flipped. *)
Lemma erase_flip (b : Obj.Board) (q : Pos) (l : nat) (p : Piece) :
  Obj.shape b -> Obj.owned b ->
  Obj.readCell b q = Obj.Ref l -> Obj.pieces b !! l = Some p ->
  erase (Obj.mkBoard (Obj.grid b) (<[l := Piece.flip p]> (Obj.pieces b))) =
  mkBoard (writeCell (grid (erase b)) q (Some (Piece.flip p))).
Proof.
  intros Hs Ho Hq Hp.
  set (b' := Obj.mkBoard (Obj.grid b) (<[l := Piece.flip p]> (Obj.pieces b))).
  destruct (obj_same_grid_inv b b' eq_refl (length_insert _ _ _) Hs Ho)
    as (Hcell & Hs' & _).
  pose proof (erase_wf b Hs) as Hwf. pose proof (erase_wf b' Hs') as Hwf'.
  assert (Hqv : readCell (grid (erase b)) q = Some p)
    by (rewrite readCell_erase, Hq; exact Hp).
  rewrite <- (grid_ext (grid (erase b')) (writeCell (grid (erase b)) q
                                           (Some (Piece.flip p))));
    [reflexivity|exact Hwf'|apply writeCell_wf; exact Hwf|].
  intros q'. rewrite readCell_erase, Hcell, (readCell_writeCell_some _ _ _ _ _ Hqv).
  unfold b'. cbn [Obj.pieces]. destruct (decide (q' = q)) as [->|Hne].
  - rewrite Hq. cbn [cellOf]. apply list_lookup_insert_eq.
    apply lookup_lt_Some in Hp. exact Hp.
  - rewrite readCell_erase.
    destruct (Obj.readCell b q') as [| |l'] eqn:E; try reflexivity. cbn [cellOf].
    apply list_lookup_insert_ne. intros <-. apply Hne. apply (proj2 Ho q' q l E Hq).
Qed.

(** Flipping the pieces referred to, and flipping the pieces at the
    positions, leave corresponding boards. *)
Lemma obj_flipAll_erase (qs : list Pos) :
  forall b, Obj.shape b -> Obj.owned b ->
    erase (snd (Obj.forEach (refsAt b qs) (fun _ piece => Obj.flip piece) tt b)) =
    snd (forEach qs (fun _ piece => flipPiece piece) tt (erase b)) /\
    fst (Obj.forEach (refsAt b qs) (fun _ piece => Obj.flip piece) tt b) =
    fst (forEach qs (fun _ piece => flipPiece piece) tt (erase b)).
Proof.
  induction qs as [|q qs IH]; intros b Hs Ho; [split; reflexivity|].
  cbn [refsAt fmap list_fmap forEach Obj.forEach]. unfold bind, Obj.bind.
  rewrite flipPiece_run, readCell_erase.
  destruct (Obj.readCell b q) as [| |l] eqn:Hq; try (split; reflexivity).
  cbn [cellOf Obj.flip]. destruct (Obj.pieces b !! l) as [p|] eqn:Hp;
    [|split; reflexivity].
  set (b' := Obj.mkBoard (Obj.grid b) (<[l := Piece.flip p]> (Obj.pieces b))).
  destruct (obj_same_grid_inv b b' eq_refl (length_insert _ _ _) Hs Ho)
    as (Hcell & Hs' & Ho').
  rewrite <- (erase_flip b q l p Hs Ho Hq Hp). fold b'.
  assert (Hrefs : refsAt b qs = refsAt b' qs)
    by (unfold refsAt; apply list_fmap_ext; intros _ x _; symmetry; apply Hcell).
  change (Obj.readCell b <$> qs) with (refsAt b qs). rewrite Hrefs.
  apply IH; assumption.
Qed.

(** The loops of [placePiece] over [DIRS] gather corresponding lists. *)
Lemma obj_collect_erase (fuel : nat) (pos : Pos) (color : string) (b : Obj.Board) :
  Obj.shape b -> Obj.owned b ->
  related (fun l l' => l' = refsAt b l)
    (fst (forEach DIRS (fun pieces dir =>
            let next_pos := (pos.1 + dir.1, pos.2 + dir.2) in
            bind (_positionsToFlip fuel next_pos color dir [])
              (fun pieces_to_concat =>
                 match pieces_to_concat with
                 | Some l => ret (pieces ++ l)
                 | None => ret pieces
                 end)) [] (erase b)))
    (fst (Obj.forEach DIRS (fun pieces dir =>
            let next_pos := (pos.1 + dir.1, pos.2 + dir.2) in
            Obj.bind (Obj._positionsToFlip fuel next_pos color dir [])
              (fun pieces_to_concat =>
                 match pieces_to_concat with
                 | Some l => Obj.ret (pieces ++ l)
                 | None => Obj.ret pieces
                 end)) [] b)).
Proof.
  intros Hs Ho.
  refine (proj2 (proj2 (forEach_related (fun l l' => l' = refsAt b l) DIRS _ _
                          (erase b) b _ [] [] eq_refl))).
  intros acc acc' dir ->. cbv zeta. unfold bind, Obj.bind.
  rewrite positionsToFlip_run.
  destruct (obj_scan_erase fuel b color dir Hs Ho (pos.1 + dir.1, pos.2 + dir.2) [])
    as [H1 H2].
  cbn [refsAt fmap list_fmap] in H1, H2.
  destruct (Obj._positionsToFlip fuel (pos.1 + dir.1, pos.2 + dir.2) color dir [] b)
    as [o s]. cbn [fst snd] in *. subst s.
  destruct (scan fuel (grid (erase b)) (pos.1 + dir.1, pos.2 + dir.2) color dir [])
    as [[l|]| |], o as [[l'|]| |]; cbn in H2; try contradiction; cbn;
    (split; [reflexivity|split; [reflexivity|]]); try reflexivity; try exact I;
    try exact H2.
  subst l'. unfold refsAt. rewrite fmap_app. reflexivity.
Qed.

(** [placePiece] on the board with objects and on the board of values it
    stands for: the outcomes are the same and the boards left correspond. *)
Lemma obj_placePiece_erase (fuel : nat) (pos : Pos) (color : string) (b : Obj.Board) :
  Obj.shape b -> Obj.owned b ->
  erase (snd (Obj.placePiece fuel pos color b)) =
  snd (placePiece fuel pos color (erase b)) /\
  fst (Obj.placePiece fuel pos color b) = fst (placePiece fuel pos color (erase b)).
Proof.
  intros Hs Ho.
  destruct (Obj.placePiece fuel pos color b) as [oo bo'] eqn:Eo.
  destruct (placePiece fuel pos color (erase b)) as [ov bv'] eqn:Ev.
  cbn [fst snd].
  unfold Obj.placePiece, Obj.bind at 1 in Eo. unfold placePiece, bind at 1 in Ev.
  pose proof (obj_validMove_true fuel pos color b) as Htrue.
  rewrite (obj_validMove_erase fuel pos color b Hs Ho) in Eo, Htrue. cbn [fst] in Htrue.
  pose proof (validMove_frame fuel pos color (erase b)) as Hfr.
  destruct (validMove fuel pos color (erase b)) as [[v|e|] s]; cbn [fst snd] in *;
    subst s; try (split; congruence).
  destruct v; cbn [negb] in Eo, Ev;
    [|unfold Obj.throw in Eo; unfold throw in Ev; split; congruence].
  destruct (Htrue eq_refl) as (Hv & r & Hr & Hc).
  cbv zeta in Eo. unfold Obj.bind at 1, Obj.getGrid in Eo. rewrite Hr in Eo.
  unfold Obj.bind at 1, Obj.newPiece in Eo. unfold Obj.bind at 1, Obj.setGrid in Eo.
  cbn [Obj.grid Obj.pieces] in Eo.
  rewrite (obj_assign_within r pos.2 Obj.Null) in Eo by exact Hc.
  set (b1 := Obj.mkBoard _ _) in Eo.
  unfold bind at 1, getGrid in Ev. unfold bind at 1, setGrid in Ev.
  assert (Hg1 : Obj.grid b1 =
                <[Z.to_nat pos.1 := <[Z.to_nat pos.2 := Obj.Ref (length (Obj.pieces b))]> r]>
                  (Obj.grid b)) by reflexivity.
  assert (Hp1 : Obj.pieces b1 = Obj.pieces b ++ [Piece.new color]) by reflexivity.
  rewrite <- (erase_write b b1 pos color r Obj.Null Hs Ho Hv Hr Hc Hg1 Hp1) in Ev.
  destruct (obj_write_inv b b1 pos r Obj.Null Hs Ho Hr Hc Hg1) as [Hs1 Ho1];
    [rewrite Hp1, length_app; cbn [length]; lia|].
  clearbody b1.
  unfold Obj.bind at 1 in Eo. unfold bind at 1 in Ev.
  pose proof (obj_collect_erase fuel pos color b1 Hs1 Ho1) as Hrel.
  pose proof (obj_collect_frame fuel pos color [] b1) as Hfo.
  pose proof (collect_frame fuel pos color [] (erase b1)) as Hfv.
  cbv zeta in Hrel, Hfo, Hfv.
  match type of Hfo with
  | snd ?X = _ => destruct X as [o' s'] end.
  match type of Hfv with
  | snd ?X = _ => destruct X as [o s] end.
  cbn [fst snd] in *. subst s s'.
  destruct o as [l| |], o' as [l'| |]; cbn in Hrel; try contradiction;
    try (split; congruence).
  subst l'. destruct (obj_flipAll_erase l b1 Hs1 Ho1) as [H1 H2].
  rewrite Eo, Ev in H1, H2. auto.
Qed.

Lemma obj_perform_erase (fuel : nat) (b : Obj.Board) (c : call) :
  Obj.shape b -> Obj.owned b ->
  erase (Obj.perform fuel b c) = perform fuel (erase b) c.
Proof.
  intros Hs Ho. destruct c; cbn [Obj.perform perform];
    rewrite ?obj_getPiece_frame, ?obj_hasMove_frame, ?obj_isMine_frame,
      ?obj_isOccupied_frame, ?obj_isOver_frame, ?obj_validMove_frame,
      ?obj_validMoves_frame,
      ?getPiece_frame, ?hasMove_frame, ?isMine_frame, ?isOccupied_frame,
      ?isOver_frame, ?isValidPos_frame, ?validMove_frame, ?validMoves_frame;
    try reflexivity.
  apply obj_placePiece_erase; assumption.
Qed.

(** Along any sequence of calls from a new board, the board with objects
    stands for the board of values. *)
Lemma obj_performAll_erase (fuel : nat) (cs : list call) :
  forall b, Obj.shape b -> Obj.owned b ->
    erase (Obj.performAll fuel b cs) = performAll fuel (erase b) cs.
Proof.
  unfold Obj.performAll, performAll.
  induction cs as [|c cs IH]; intros b Hs Ho; cbn [fold_left]; [reflexivity|].
  destruct (obj_perform_keeps fuel b c Hs Ho) as (Hs' & Ho' & _).
  rewrite (IH _ Hs' Ho'), obj_perform_erase by assumption. reflexivity.
Qed.

Lemma erase_Board_new : erase Obj.Board_new = Board_new.
Proof. reflexivity. Qed.

(** * The properties of the board *)

(** ** C1: [isMine] on a position off the board *)

(** C1, as stated, fails: at [[8, 0]] on the initial board [isMine] does not
    return [false]; the error thrown by [getPiece] comes out of it. *)
Lemma isMine_off_board_not_false :
  isMine (8, 0) "black" Board_new = (Throw NotValidPos, Board_new) /\
  fst (isMine (8, 0) "black" Board_new) <> Ret false.
Proof. split; [reflexivity|discriminate]. Qed.

(** C1 (amended): for every position lying outside [0,7]x[0,7] in either
    coordinate and every colour, [isMine(pos, color)] fails with the
    position-validity error raised by [getPiece], which it does not catch,
    and leaves the board as it was. *)
Theorem isMine_off_board_throws (pos : Pos) (color : string) (b : Board) :
  ~ (0 <= pos.1 <= 7 /\ 0 <= pos.2 <= 7) ->
  getPiece pos b = (Throw NotValidPos, b) /\
  isMine pos color b = (Throw NotValidPos, b).
Proof.
  intros H. apply onBoard_false in H.
  rewrite getPiece_run, isMine_run, H. split; reflexivity.
Qed.

Lemma isMine_off_board_throws_witness :
  ~ (0 <= (-1, 3).1 <= 7 /\ 0 <= (-1, 3).2 <= 7) /\
  getPiece (-1, 3) Board_new = (Throw NotValidPos, Board_new) /\
  isMine (-1, 3) "white" Board_new = (Throw NotValidPos, Board_new).
Proof.
  split; [cbn; lia|].
  apply (isMine_off_board_throws (-1, 3) "white" Board_new). cbn; lia.
Defined.

(** ** C2: a refused placement writes nothing *)

(** C2: whenever [validMove(pos, color)] is false, [placePiece(pos, color)]
    fails with InvalidMove and the board after the failed call is the board
    before it. *)
Theorem placePiece_invalid_unchanged (fuel : nat) (b : Board) (pos : Pos)
    (color : string) :
  fst (validMove fuel pos color b) = Ret false ->
  placePiece fuel pos color b = (Throw InvalidMove, b).
Proof.
  intros H. unfold placePiece, bind.
  rewrite (surjective_pairing (validMove fuel pos color b)), H, validMove_frame.
  reflexivity.
Qed.

Lemma placePiece_invalid_unchanged_witness :
  fst (validMove 8 (0, 0) "black" Board_new) = Ret false /\
  placePiece 8 (0, 0) "black" Board_new = (Throw InvalidMove, Board_new).
Proof.
  split; [reflexivity|].
  apply (placePiece_invalid_unchanged 8 Board_new (0, 0) "black"). reflexivity.
Defined.

(** ** C4: the legal moves *)

(** C4: [validMove(pos, color)] returns a boolean, and it is [true] exactly
    when [pos] is on the board, the cell at [pos] is unoccupied and the ray
    cast along at least one of the 8 directions returns a non-empty
    flip-list; on the initial board [[2, 3]] is a legal move for black and
    [[0, 0]] is not. *)
Theorem validMove_iff (fuel : nat) (b : Board) (pos : Pos) (color : string) :
  (8 <= fuel)%nat ->
  (validMove fuel pos color b = (Ret true, b) \/
   validMove fuel pos color b = (Ret false, b)) /\
  (validMove fuel pos color b = (Ret true, b) <->
   isValidPos pos b = (Ret true, b) /\
   isOccupied pos b = (Ret false, b) /\
   exists dir l, dir ∈ DIRS /\ l <> [] /\
     _positionsToFlip fuel (step pos dir) color dir [] b = (Ret (Some l), b)) /\
  validMove fuel (2, 3) "black" Board_new = (Ret true, Board_new) /\
  validMove fuel (0, 0) "black" Board_new = (Ret false, Board_new).
Proof.
  intros Hf. split; [|split; [|split]].
  - rewrite validMove_run by exact Hf.
    destruct (legal fuel (grid b) pos color); auto.
  - rewrite validMove_run by exact Hf. rewrite isValidPos_run, isOccupied_run.
    pose proof (legal_spec fuel (grid b) pos color) as Hl.
    split.
    + intros H. assert (Hleg : legal fuel (grid b) pos color = true) by congruence.
      apply Hl in Hleg as (Hv & Ho & dir & l & Hd & Hfl & Hne).
      rewrite Hv, Ho. split; [reflexivity|]. split; [reflexivity|].
      exists dir, l. split; [exact Hd|]. split; [exact Hne|].
      rewrite positionsToFlip_run.
      destruct (flipList_fuel fuel (grid b) pos color dir Hv (DIRS_moves dir Hd) Hf)
        as [-> _].
      rewrite Hfl. reflexivity.
    + intros (Hv & Ho & dir & l & Hd & Hne & Hfl).
      assert (Hv' : onBoard pos = true) by congruence.
      rewrite Hv' in Ho.
      assert (Ho' : occupied (readCell (grid b) pos) = false) by congruence.
      rewrite positionsToFlip_run in Hfl.
      assert (Hs : scan fuel (grid b) (step pos dir) color dir [] = Ret (Some l))
        by congruence.
      f_equal. f_equal. apply Hl. split; [exact Hv'|]. split; [exact Ho'|].
      exists dir, l. split; [exact Hd|]. split; [|exact Hne].
      unfold flipList. rewrite Hs. reflexivity.
  - rewrite validMove_run, legal_fuel by exact Hf. reflexivity.
  - rewrite validMove_run, legal_fuel by exact Hf. reflexivity.
Qed.

Lemma validMove_iff_witness :
  (8 <= 8)%nat /\
  (validMove 8 (2, 3) "black" Board_new = (Ret true, Board_new) <->
   isValidPos (2, 3) Board_new = (Ret true, Board_new) /\
   isOccupied (2, 3) Board_new = (Ret false, Board_new) /\
   exists dir l, dir ∈ DIRS /\ l <> [] /\
     _positionsToFlip 8 (step (2, 3) dir) "black" dir [] Board_new =
     (Ret (Some l), Board_new)).
Proof.
  split; [lia|].
  apply (validMove_iff 8 Board_new (2, 3) "black"). lia.
Defined.

(** ** C5: the cases of the flip-scan *)

(** C5: a call of [_positionsToFlip] returns null when [pos] is off the
    board; when the piece at [pos] is of the mover's colour it returns null
    if the accumulator is empty and the accumulator itself otherwise; it
    returns null when [pos] is unoccupied; and otherwise (a piece of the
    other colour) it appends that piece to the accumulator and is the
    recursive call at [pos + dir]. *)
Theorem positionsToFlip_cases (fuel : nat) (b : Board) (pos : Pos) (color : string)
    (dir : Pos) (acc : list Pos) :
  (isValidPos pos b = (Ret false, b) ->
   _positionsToFlip (S fuel) pos color dir acc b = (Ret None, b)) /\
  (isValidPos pos b = (Ret true, b) -> isMine pos color b = (Ret true, b) ->
   acc = [] ->
   _positionsToFlip (S fuel) pos color dir acc b = (Ret None, b)) /\
  (isValidPos pos b = (Ret true, b) -> isMine pos color b = (Ret true, b) ->
   acc <> [] ->
   _positionsToFlip (S fuel) pos color dir acc b = (Ret (Some acc), b)) /\
  (isValidPos pos b = (Ret true, b) -> isOccupied pos b = (Ret false, b) ->
   _positionsToFlip (S fuel) pos color dir acc b = (Ret None, b)) /\
  (isValidPos pos b = (Ret true, b) -> isMine pos color b = (Ret false, b) ->
   isOccupied pos b = (Ret true, b) ->
   _positionsToFlip (S fuel) pos color dir acc b =
   _positionsToFlip fuel (pos.1 + dir.1, pos.2 + dir.2) color dir (acc ++ [pos]) b).
Proof.
  rewrite positionsToFlip_S, isValidPos_run, isMine_run, isOccupied_run.
  destruct (onBoard pos); [|repeat split; intros; (reflexivity || discriminate)].
  destruct (readCell (grid b) pos) as [piece|]; cbn [sameColor occupied];
    [|repeat split; intros; (reflexivity || discriminate)].
  destruct (String.eqb (Piece.color piece) color);
    repeat split; intros; try discriminate; try reflexivity.
  - subst acc. reflexivity.
  - destruct acc; [contradiction|reflexivity].
Qed.

Lemma positionsToFlip_cases_witness :
  (isValidPos (8, 3) Board_new = (Ret false, Board_new) /\
   _positionsToFlip 8 (8, 3) "black" (1, 0) [] Board_new = (Ret None, Board_new)) /\
  (isValidPos (4, 3) Board_new = (Ret true, Board_new) /\
   isMine (4, 3) "black" Board_new = (Ret true, Board_new) /\
   _positionsToFlip 8 (4, 3) "black" (1, 0) [] Board_new = (Ret None, Board_new)) /\
  (isValidPos (4, 3) Board_new = (Ret true, Board_new) /\
   isMine (4, 3) "black" Board_new = (Ret true, Board_new) /\
   [(3, 3)] <> [] /\
   _positionsToFlip 7 (4, 3) "black" (1, 0) [(3, 3)] Board_new =
   (Ret (Some [(3, 3)]), Board_new)) /\
  (isValidPos (5, 3) Board_new = (Ret true, Board_new) /\
   isOccupied (5, 3) Board_new = (Ret false, Board_new) /\
   _positionsToFlip 8 (5, 3) "black" (1, 0) [] Board_new = (Ret None, Board_new)) /\
  (isValidPos (3, 3) Board_new = (Ret true, Board_new) /\
   isMine (3, 3) "black" Board_new = (Ret false, Board_new) /\
   isOccupied (3, 3) Board_new = (Ret true, Board_new) /\
   _positionsToFlip 8 (3, 3) "black" (1, 0) [] Board_new =
   _positionsToFlip 7 (4, 3) "black" (1, 0) [(3, 3)] Board_new).
Proof.
  split; [|split; [|split; [|split]]].
  - split; [reflexivity|].
    apply (proj1 (positionsToFlip_cases 7 Board_new (8, 3) "black" (1, 0) [])).
    reflexivity.
  - split; [reflexivity|]. split; [reflexivity|].
    apply (proj1 (proj2 (positionsToFlip_cases 7 Board_new (4, 3) "black" (1, 0) [])));
      reflexivity.
  - split; [reflexivity|]. split; [reflexivity|]. split; [discriminate|].
    apply (proj1 (proj2 (proj2
             (positionsToFlip_cases 6 Board_new (4, 3) "black" (1, 0) [(3, 3)]))));
      [reflexivity|reflexivity|discriminate].
  - split; [reflexivity|]. split; [reflexivity|].
    apply (proj1 (proj2 (proj2 (proj2
             (positionsToFlip_cases 7 Board_new (5, 3) "black" (1, 0) [])))));
      reflexivity.
  - split; [reflexivity|]. split; [reflexivity|]. split; [reflexivity|].
    apply (proj2 (proj2 (proj2 (proj2
             (positionsToFlip_cases 7 Board_new (3, 3) "black" (1, 0) [])))));
      reflexivity.
Defined.

(** ** C6: the list of legal moves *)

(** C6: [validMoves(color)] returns exactly the positions, among the 64
    cells taken row by row and in each row column by column, for which
    [validMove] returns true; the list is in strict row-major order, it
    holds a position exactly when [validMove] holds there, and its length is
    the number of cells where [validMove] holds. *)
Theorem validMoves_row_major (fuel : nat) (b : Board) (color : string) :
  (8 <= fuel)%nat ->
  exists moves,
    validMoves fuel color b = (Ret moves, b) /\
    moves = List.filter (validMoveHolds fuel b color) allCells /\
    length allCells = 64%nat /\
    StronglySorted rowMajorLt allCells /\
    StronglySorted rowMajorLt moves /\
    (forall pos, pos ∈ moves <-> validMove fuel pos color b = (Ret true, b)) /\
    length moves = length (List.filter (validMoveHolds fuel b color) allCells).
Proof.
  intros Hf. exists (List.filter (validMoveHolds fuel b color) allCells).
  assert (Hfil : List.filter (fun pos => legal fuel (grid b) pos color) allCells =
                 List.filter (validMoveHolds fuel b color) allCells).
  { apply filter_agree. intros pos. symmetry. apply validMoveHolds_legal. exact Hf. }
  split; [rewrite validMoves_run by exact Hf; rewrite Hfil; reflexivity|].
  split; [reflexivity|]. split; [reflexivity|].
  split; [exact allCells_sorted|].
  split; [apply filter_StronglySorted, allCells_sorted|].
  split; [|reflexivity].
  intros pos. rewrite list_elem_of_In, List.filter_In, <- list_elem_of_In.
  rewrite allCells_onBoard, validMoveHolds_legal, validMove_run by exact Hf.
  split.
  - intros [_ ->]. reflexivity.
  - intros H. assert (Hl : legal fuel (grid b) pos color = true) by congruence.
    split; [|exact Hl]. apply legal_spec in Hl. tauto.
Qed.

Lemma validMoves_row_major_witness :
  (8 <= 8)%nat /\
  exists moves,
    validMoves 8 "black" Board_new = (Ret moves, Board_new) /\
    moves = List.filter (validMoveHolds 8 Board_new "black") allCells /\
    length allCells = 64%nat /\
    StronglySorted rowMajorLt allCells /\
    StronglySorted rowMajorLt moves /\
    (forall pos, pos ∈ moves <->
                 validMove 8 pos "black" Board_new = (Ret true, Board_new)) /\
    length moves = length (List.filter (validMoveHolds 8 Board_new "black") allCells).
Proof.
  split; [lia|]. apply (validMoves_row_major 8 Board_new "black"). lia.
Defined.

(** ** C7: the initial board *)

(** C7: on a freshly constructed board the cells [[3,3]] and [[4,4]] hold
    white pieces, [[3,4]] and [[4,3]] hold black pieces, the other 60 cells
    are empty, and [isOver()] is false. *)
Theorem initial_board (fuel : nat) :
  (8 <= fuel)%nat ->
  getPiece (3, 3) Board_new = (Ret (Some (Piece.new "white")), Board_new) /\
  getPiece (4, 4) Board_new = (Ret (Some (Piece.new "white")), Board_new) /\
  getPiece (3, 4) Board_new = (Ret (Some (Piece.new "black")), Board_new) /\
  getPiece (4, 3) Board_new = (Ret (Some (Piece.new "black")), Board_new) /\
  (forall pos, onBoard pos = true ->
     pos <> (3, 3) -> pos <> (4, 4) -> pos <> (3, 4) -> pos <> (4, 3) ->
     getPiece pos Board_new = (Ret None, Board_new)) /\
  length (List.filter (fun pos => negb (occupied (readCell (grid Board_new) pos)))
            allCells) = 60%nat /\
  isOver fuel Board_new = (Ret false, Board_new).
Proof.
  intros Hf. repeat (split; [reflexivity|]). split; [|split; [reflexivity|]].
  - assert (H : Forall (fun pos => pos <> (3, 3) -> pos <> (4, 4) -> pos <> (3, 4) ->
                           pos <> (4, 3) -> readCell (grid Board_new) pos = None)
                       allCells).
    { let l := eval vm_compute in allCells in change allCells with l.
      repeat (constructor; [intros; first [reflexivity|congruence]|]). constructor. }
    intros pos Hv. rewrite getPiece_run, Hv.
    apply (proj2 (allCells_onBoard pos)) in Hv.
    rewrite Forall_forall in H. intros H1 H2 H3 H4.
    rewrite (H pos Hv H1 H2 H3 H4). reflexivity.
  - rewrite isOver_run by exact Hf.
    rewrite (existsb_agree _ (fun pos => legal 8 (grid Board_new) pos "white"))
      by (intros; apply legal_fuel; exact Hf).
    rewrite (existsb_agree (fun pos => legal fuel (grid Board_new) pos "black")
               (fun pos => legal 8 (grid Board_new) pos "black"))
      by (intros; apply legal_fuel; exact Hf).
    vm_compute. reflexivity.
Qed.

Lemma initial_board_witness :
  (8 <= 8)%nat /\ isOver 8 Board_new = (Ret false, Board_new).
Proof. split; [lia|]. apply (initial_board 8). lia. Defined.

(** ** C9: the scan terminates and its flip-lists are short *)

(** C9: along each of the 8 directions the recursion of [_positionsToFlip]
    terminates, from any starting position and with any accumulator, within
    nine calls; and the flip-list returned for a ray cast from a legal move
    never holds more than 6 pieces. *)
Theorem positionsToFlip_terminates (b : Board) (pos : Pos) (color : string)
    (dir : Pos) (acc : list Pos) :
  dir ∈ DIRS ->
  (exists r, forall fuel, (9 <= fuel)%nat ->
     _positionsToFlip fuel pos color dir acc b = (Ret r, b)) /\
  (forall fuel, (8 <= fuel)%nat ->
     validMove fuel pos color b = (Ret true, b) ->
     exists r,
       _positionsToFlip fuel (step pos dir) color dir [] b = (Ret r, b) /\
       forall l, r = Some l -> (length l <= 6)%nat).
Proof.
  intros Hd. apply DIRS_moves in Hd. split.
  - destruct (scan_returns (grid b) color dir Hd 9 pos acc) as [r Hr]; [lia| |].
    + intros Hv. pose proof (room_onBoard dir pos Hv). lia.
    + exists r. intros fuel Hf. rewrite positionsToFlip_run. f_equal.
      eapply scan_fuel_mono; eauto.
  - intros fuel Hf Hvalid. rewrite validMove_run in Hvalid by exact Hf.
    assert (Hl : legal fuel (grid b) pos color = true) by congruence.
    apply legal_spec in Hl as (Hv & _).
    destruct (scan_from_move fuel (grid b) pos color dir Hv Hd Hf) as (r & Hr & _).
    exists r. rewrite positionsToFlip_run, Hr. split; [reflexivity|].
    intros l ->. eapply scan_from_move_bound; eauto.
Qed.

Lemma positionsToFlip_terminates_witness :
  (1, 0) ∈ DIRS /\
  validMove 8 (2, 3) "black" Board_new = (Ret true, Board_new) /\
  exists r,
    _positionsToFlip 8 (step (2, 3) (1, 0)) "black" (1, 0) [] Board_new =
    (Ret r, Board_new) /\
    forall l, r = Some l -> (length l <= 6)%nat.
Proof.
  assert (Hd : (1, 0) ∈ DIRS) by (unfold DIRS; repeat constructor).
  split; [exact Hd|]. split; [reflexivity|].
  apply (proj2 (positionsToFlip_terminates Board_new (2, 3) "black" (1, 0) [] Hd) 8%nat);
    [lia|reflexivity].
Defined.

(** ** C10: the queries leave the board alone *)

(** C10: [getPiece], [isValidPos], [isOccupied], [isMine], [validMove],
    [validMoves], [hasMove] and [isOver] leave the board exactly as they
    found it, whether they return or fail; so does every ray cast of
    [_positionsToFlip], which collects pieces without flipping them. *)
Theorem queries_leave_board (fuel : nat) (b : Board) (pos : Pos) (color : string)
    (dir : Pos) (acc : list Pos) :
  snd (getPiece pos b) = b /\
  snd (isValidPos pos b) = b /\
  snd (isOccupied pos b) = b /\
  snd (isMine pos color b) = b /\
  snd (validMove fuel pos color b) = b /\
  snd (validMoves fuel color b) = b /\
  snd (hasMove fuel color b) = b /\
  snd (isOver fuel b) = b /\
  snd (_positionsToFlip fuel pos color dir acc b) = b.
Proof.
  repeat split.
  - apply getPiece_frame.
  - apply isOccupied_frame.
  - apply isMine_frame.
  - apply validMove_frame.
  - apply validMoves_frame.
  - apply hasMove_frame.
  - apply isOver_frame.
  - apply positionsToFlip_frame.
Qed.

(** ** C3: what a legal placement does *)

(** C3: when [validMove(pos, color)] is true, [placePiece(pos, color)]
    returns, the cell at [pos] then holds a new piece of that colour, every
    piece of the concatenation of the non-null flip-lists of the 8 rays
    (which are pairwise disjoint and do not contain [pos]) has had its
    colour toggled, once, and every other cell reads as before; on the
    initial board, after [placePiece([2,3], "black")], [[2,3]] is black,
    [[3,3]] has gone from white to black and the rest is unchanged. *)
Theorem placePiece_flips (fuel : nat) (b : Board) (pos : Pos) (color : string) :
  wf_board b -> (8 <= fuel)%nat ->
  validMove fuel pos color b = (Ret true, b) ->
  (exists b',
     placePiece fuel pos color b = (Ret tt, b') /\
     NoDup (gathered fuel b pos color) /\
     (pos ∉ gathered fuel b pos color) /\
     getPiece pos b' = (Ret (Some (Piece.new color)), b') /\
     (forall q, q ∈ gathered fuel b pos color ->
        exists piece,
          getPiece q b = (Ret (Some piece), b) /\
          Piece.color piece <> color /\
          getPiece q b' = (Ret (Some (Piece.flip piece)), b')) /\
     (forall q, q <> pos -> q ∉ gathered fuel b pos color ->
        fst (getPiece q b') = fst (getPiece q b))) /\
  placePiece fuel (2, 3) "black" Board_new = (Ret tt, mkBoard gridAfterBlack_2_3) /\
  gathered fuel Board_new (2, 3) "black" = [(3, 3)] /\
  getPiece (3, 3) Board_new = (Ret (Some (Piece.new "white")), Board_new) /\
  Piece.flip (Piece.new "white") = Piece.new "black".
Proof.
  intros Hwf Hf Hvalid.
  assert (Hg : forall b0 p c, gathered fuel b0 p c = flipLists fuel (grid b0) p c).
  { intros b0 p c. unfold gathered, flipLists, flipList. apply flat_map_agree.
    intros dir _. rewrite positionsToFlip_run. cbn [fst].
    destruct (scan fuel (grid b0) (step p dir) c dir []) as [[l|]| |]; reflexivity. }
  split; [|split; [|split; [|split]]].
  - rewrite validMove_run in Hvalid by exact Hf.
    assert (Hl : legal fuel (grid b) pos color = true) by congruence.
    destruct (placePiece_run fuel pos color b Hwf Hf Hl) as (b' & Hrun & Hb').
    pose proof (proj1 (legal_spec _ _ _ _) Hl) as (Hv & _).
    exists b'. rewrite Hg. split; [exact Hrun|]. split; [apply NoDup_flipLists|].
    split; [intros Hq; apply flipLists_cells in Hq; tauto|].
    split; [|split].
    + rewrite getPiece_run, Hv, Hb', decide_True by reflexivity. reflexivity.
    + intros q Hq. pose proof (flipLists_cells _ _ _ _ _ Hq) as (Hne & Hvq & Ho & Hc).
      destruct (readCell (grid b) q) as [piece|] eqn:Hp; [|discriminate].
      exists piece. rewrite !getPiece_run, Hvq, Hp, Hb', Hp.
      rewrite decide_False by exact Hne. rewrite decide_True by exact Hq.
      split; [reflexivity|]. split; [|reflexivity].
      cbn [sameColor] in Hc. apply String.eqb_neq. exact Hc.
    + intros q Hne Hq. rewrite !getPiece_run.
      destruct (onBoard q); [|reflexivity]. cbn [fst]. rewrite Hb'.
      rewrite decide_False by exact Hne. rewrite decide_False by exact Hq. reflexivity.
  - rewrite placePiece_fuel by exact Hf. vm_compute. reflexivity.
  - rewrite Hg, flipLists_fuel by (exact Hf || reflexivity). vm_compute. reflexivity.
  - reflexivity.
  - reflexivity.
Qed.

Lemma placePiece_flips_witness :
  wf_board Board_new /\ (8 <= 8)%nat /\
  validMove 8 (2, 3) "black" Board_new = (Ret true, Board_new) /\
  exists b',
    placePiece 8 (2, 3) "black" Board_new = (Ret tt, b') /\
    NoDup (gathered 8 Board_new (2, 3) "black") /\
    ((2, 3) ∉ gathered 8 Board_new (2, 3) "black") /\
    getPiece (2, 3) b' = (Ret (Some (Piece.new "black")), b') /\
    (forall q, q ∈ gathered 8 Board_new (2, 3) "black" ->
       exists piece,
         getPiece q Board_new = (Ret (Some piece), Board_new) /\
         Piece.color piece <> "black" /\
         getPiece q b' = (Ret (Some (Piece.flip piece)), b')) /\
    (forall q, q <> (2, 3) -> q ∉ gathered 8 Board_new (2, 3) "black" ->
       fst (getPiece q b') = fst (getPiece q Board_new)).
Proof.
  assert (Hwf : wf_board Board_new) by (split; [reflexivity|repeat constructor]).
  split; [exact Hwf|]. split; [lia|]. split; [reflexivity|].
  apply (proj1 (placePiece_flips 8 Board_new (2, 3) "black" Hwf (le_n 8) eq_refl)).
Defined.

(** ** C8: the grid only grows *)

(** C8: along every sequence of calls of the methods of a board, starting
    from a new board, with the pieces as objects and the array assignment
    of JavaScript: the grid stays 8 by 8; a cell that is occupied stays
    occupied, by the same piece object, of which only the colour has been
    toggled, some number of times; every cell of the board holds null or a
    piece, and no piece is in two cells; the only call that writes the grid
    is a [placePiece] that [validMove] accepted, which assigns a piece it
    has just created to an element of the grid that exists and is null, and
    leaves every other element as it is; and the board reached stands for
    the board of values that the same calls reach. *)
Theorem board_only_grows (fuel : nat) (cs1 cs2 : list call) :
  let b1 := Obj.performAll fuel Obj.Board_new cs1 in
  let b2 := Obj.performAll fuel b1 cs2 in
  (length (Obj.grid b1) = 8%nat /\
   Forall (fun r => length r = 8%nat) (Obj.grid b1)) /\
  (length (Obj.grid b2) = 8%nat /\
   Forall (fun r => length r = 8%nat) (Obj.grid b2)) /\
  (forall pos, Obj.isOccupied pos b1 = (Ret true, b1) ->
               Obj.isOccupied pos b2 = (Ret true, b2)) /\
  (forall pos l, Obj.getPiece pos b1 = (Ret (Obj.Ref l), b1) ->
     Obj.getPiece pos b2 = (Ret (Obj.Ref l), b2) /\
     exists (p : Piece) (n : nat),
       Obj.pieces b1 !! l = Some p /\
       Obj.pieces b2 !! l = Some (Nat.iter n Piece.flip p)) /\
  (forall pos, Obj.isValidPos pos b1 = (Ret true, b1) ->
     Obj.getPiece pos b1 = (Ret Obj.Null, b1) \/
     exists l, Obj.getPiece pos b1 = (Ret (Obj.Ref l), b1)) /\
  (forall pos pos' l,
     Obj.getPiece pos b1 = (Ret (Obj.Ref l), b1) ->
     Obj.getPiece pos' b1 = (Ret (Obj.Ref l), b1) -> pos = pos') /\
  (forall c,
     let b' := Obj.perform fuel b1 c in
     b' = b1 \/
     exists pos color,
       c = CallPlacePiece pos color /\
       Obj.validMove fuel pos color b1 = (Ret true, b1) /\
       Obj.isValidPos pos b1 = (Ret true, b1) /\
       Obj.getPiece pos b1 = (Ret Obj.Null, b1) /\
       Obj.pieces b1 !! length (Obj.pieces b1) = None /\
       Obj.getPiece pos b' = (Ret (Obj.Ref (length (Obj.pieces b1))), b') /\
       forall q, q <> pos -> Obj.readCell b' q = Obj.readCell b1 q) /\
  erase b1 = performAll fuel Board_new cs1.
Proof.
  intros b1 b2.
  destruct (obj_performAll_keeps fuel cs1 Obj.Board_new
              obj_Board_new_shape obj_Board_new_owned) as (Hs1 & Ho1 & _).
  destruct (obj_performAll_keeps fuel cs2 b1 Hs1 Ho1) as (Hs2 & Ho2 & Hp & Hc).
  fold b1 in Hs1, Ho1. fold b2 in Hs2, Ho2, Hp, Hc.
  split; [exact Hs1|]. split; [exact Hs2|].
  split; [|split; [|split; [|split; [|split]]]].
  - intros pos H.
    assert (Hv : onBoard pos = true)
      by (rewrite obj_isOccupied_run in H; destruct (onBoard pos);
          [reflexivity|discriminate]).
    rewrite (obj_isOccupied_shape b1 pos Hs1 Hv) in H.
    rewrite (obj_isOccupied_shape b2 pos Hs2 Hv).
    destruct (proj1 Ho1 pos Hv) as [Hn|(l & Hl & _)].
    + rewrite Hn in H. discriminate.
    + rewrite (Hc pos l Hl). reflexivity.
  - intros pos l H. apply (obj_getPiece_ref b1 pos _ Hs1) in H as [Hv Hl].
    split; [apply (obj_getPiece_ref b2 pos _ Hs2); split; [exact Hv|apply Hc, Hl]|].
    pose proof (obj_ref_bound b1 pos l Hs1 Ho1 Hl) as Hlt.
    apply lookup_lt_is_Some in Hlt as [p Hpl].
    destruct (Hp l p Hpl) as [n Hn]. exists p, n. auto.
  - intros pos Hv. assert (Hv' : onBoard pos = true) by (cbv in Hv |- *; congruence).
    destruct (proj1 Ho1 pos Hv') as [Hn|(l & Hl & _)].
    + left. apply (obj_getPiece_ref b1 pos _ Hs1). auto.
    + right. exists l. apply (obj_getPiece_ref b1 pos _ Hs1). auto.
  - intros pos pos' l H H'.
    apply (obj_getPiece_ref b1 pos _ Hs1) in H as [_ H].
    apply (obj_getPiece_ref b1 pos' _ Hs1) in H' as [_ H'].
    apply (proj2 Ho1 pos pos' l H H').
  - intros c. cbn zeta.
    destruct c; cbn [Obj.perform];
      rewrite ?obj_getPiece_frame, ?obj_hasMove_frame, ?obj_isMine_frame,
        ?obj_isOccupied_frame, ?obj_isOver_frame, ?obj_validMove_frame,
        ?obj_validMoves_frame;
      try (left; reflexivity).
    destruct (obj_placePiece_keeps fuel pos color b1 Hs1 Ho1) as (Hs' & _ & _).
    destruct (obj_placePiece_leaves fuel pos color b1)
      as [Hsame|(Hvalid & Hv & r & Hr & Hnull & Hg & _ & _)]; [left; exact Hsame|].
    right. exists pos, color.
    pose proof (obj_write_cells _ _ _ _ _ _ Hr Hnull Hg) as Hcell.
    split; [reflexivity|]. split; [exact Hvalid|].
    split; [unfold Obj.isValidPos, Obj.ret; fold (onBoard pos); rewrite Hv; reflexivity|].
    split; [apply (obj_getPiece_ref b1 pos _ Hs1); split; [exact Hv|];
            unfold Obj.readCell, Obj.read; rewrite Hr, Hnull; reflexivity|].
    split; [apply lookup_ge_None; lia|].
    split.
    + apply obj_getPiece_ref; [exact Hs'|]. split; [exact Hv|].
      rewrite Hcell, decide_True by reflexivity. reflexivity.
    + intros q Hq. rewrite Hcell, decide_False by exact Hq. reflexivity.
  - unfold b1. rewrite obj_performAll_erase
      by (apply obj_Board_new_shape || apply obj_Board_new_owned).
    reflexivity.
Qed.

(** * Further properties of the board *)

(** ** The flip-scan finds brackets, and only brackets *)

(** X1: a non-null result of [_positionsToFlip] is the accumulator followed
    by the positions [pos], [pos + dir], ... of an unbroken run of pieces
    that are not of the mover's colour, and the cell right after the run is
    on the board and holds a piece of the mover's colour; the result is
    never the empty list. *)
Theorem positionsToFlip_bracketed (fuel : nat) (b : Board) (pos : Pos)
    (color : string) (dir : Pos) (acc l : list Pos) :
  _positionsToFlip fuel pos color dir acc b = (Ret (Some l), b) ->
  exists n : nat,
    l = acc ++ ray pos dir n /\ l <> [] /\
    (forall q, q ∈ ray pos dir n ->
       exists piece, getPiece q b = (Ret (Some piece), b) /\
                     Piece.color piece <> color) /\
    isMine (along pos dir (Z.of_nat n)) color b = (Ret true, b).
Proof.
  rewrite positionsToFlip_run. intros H.
  assert (Hs : scan fuel (grid b) pos color dir acc = Ret (Some l)) by congruence.
  apply scan_bracket in Hs as (n & -> & Hne & Hall & Hv & Hm).
  exists n. split; [reflexivity|]. split; [exact Hne|]. split.
  - rewrite Forall_forall in Hall. intros q Hq.
    destruct (Hall q Hq) as (Hvq & Ho & Hc).
    destruct (readCell (grid b) q) as [piece|] eqn:E; [|discriminate].
    exists piece. rewrite getPiece_run, Hvq, E. split; [reflexivity|].
    apply String.eqb_neq. exact Hc.
  - rewrite isMine_run, Hv, Hm. reflexivity.
Qed.

Lemma positionsToFlip_bracketed_witness :
  _positionsToFlip 8 (3, 3) "black" (1, 0) [] Board_new =
  (Ret (Some [(3, 3)]), Board_new) /\
  exists n : nat,
    [(3, 3)] = [] ++ ray (3, 3) (1, 0) n /\ [(3, 3)] <> [] /\
    (forall q, q ∈ ray (3, 3) (1, 0) n ->
       exists piece, getPiece q Board_new = (Ret (Some piece), Board_new) /\
                     Piece.color piece <> "black") /\
    isMine (along (3, 3) (1, 0) (Z.of_nat n)) "black" Board_new = (Ret true, Board_new).
Proof.
  split; [reflexivity|].
  apply (positionsToFlip_bracketed 8 Board_new (3, 3) "black" (1, 0) [] [(3, 3)]).
  reflexivity.
Defined.

(** X2: conversely, when the [n] cells from [pos] along [dir] hold pieces
    that are not the mover's, the next cell holds a piece of the mover's
    colour, and the accumulator or the run is not empty, a call of
    [_positionsToFlip] with more than [n] levels of recursion returns the
    accumulator followed by the run. *)
Theorem positionsToFlip_finds (fuel : nat) (b : Board) (pos : Pos) (color : string)
    (dir : Pos) (acc : list Pos) (n : nat) :
  (forall q, q ∈ ray pos dir n ->
     isMine q color b = (Ret false, b) /\ isOccupied q b = (Ret true, b)) ->
  isMine (along pos dir (Z.of_nat n)) color b = (Ret true, b) ->
  acc ++ ray pos dir n <> [] ->
  (n < fuel)%nat ->
  _positionsToFlip fuel pos color dir acc b = (Ret (Some (acc ++ ray pos dir n)), b).
Proof.
  intros Hrun Hend Hne Hf. rewrite positionsToFlip_run. f_equal.
  apply isMine_true_inv in Hend as [Hv Hm].
  apply scan_finds; try assumption.
  apply Forall_forall. intros q Hq. destruct (Hrun q Hq) as [H1 H2].
  apply isMine_false_inv in H1 as [Hvq Hc]. apply isOccupied_true_inv in H2 as [_ Ho].
  auto.
Qed.

Lemma positionsToFlip_finds_witness :
  (forall q, q ∈ ray (3, 3) (1, 0) 1 ->
     isMine q "black" Board_new = (Ret false, Board_new) /\
     isOccupied q Board_new = (Ret true, Board_new)) /\
  isMine (along (3, 3) (1, 0) (Z.of_nat 1)) "black" Board_new = (Ret true, Board_new) /\
  [] ++ ray (3, 3) (1, 0) 1 <> [] /\
  (1 < 2)%nat /\
  _positionsToFlip 2 (3, 3) "black" (1, 0) [] Board_new =
  (Ret (Some ([] ++ ray (3, 3) (1, 0) 1)), Board_new).
Proof.
  assert (H : forall q, q ∈ ray (3, 3) (1, 0) 1 ->
            isMine q "black" Board_new = (Ret false, Board_new) /\
            isOccupied q Board_new = (Ret true, Board_new)).
  { intros q Hq. cbn [ray] in Hq. apply list_elem_of_singleton in Hq. subst q.
    split; reflexivity. }
  split; [exact H|]. split; [reflexivity|]. split; [discriminate|]. split; [lia|].
  apply (positionsToFlip_finds 2 Board_new (3, 3) "black" (1, 0) [] 1 H eq_refl);
    [discriminate|lia].
Defined.

(** ** What an accepted move does to the pieces *)

(** X3: a move that [validMove] accepts flips at least one piece; every
    piece it flips lies on the row, the column or a diagonal of the move;
    and one of the eight neighbours of the move holds a piece of another
    colour. *)
Theorem validMove_flips_some (fuel : nat) (b : Board) (pos : Pos) (color : string) :
  (8 <= fuel)%nat ->
  validMove fuel pos color b = (Ret true, b) ->
  gathered fuel b pos color <> [] /\
  (forall q, q ∈ gathered fuel b pos color -> onLine pos q) /\
  exists dir piece,
    dir ∈ DIRS /\
    getPiece (step pos dir) b = (Ret (Some piece), b) /\
    Piece.color piece <> color.
Proof.
  intros Hf Hvalid. rewrite validMove_run in Hvalid by exact Hf.
  assert (Hl : legal fuel (grid b) pos color = true) by congruence.
  apply legal_spec in Hl as (_ & _ & dir & l & Hd & Hfl & Hne).
  rewrite gathered_flipLists.
  pose proof (flipList_ray _ _ _ _ _ _ (DIRS_moves dir Hd) Hfl) as (n & -> & Hall).
  destruct n as [|n]; [contradiction|]. cbn [ray] in *.
  split; [|split].
  - intros E.
    assert (Hin : along pos dir 1 ∈ flipLists fuel (grid b) pos color).
    { apply elem_of_flipLists. exists dir, (along pos dir 1 :: ray (step (along pos dir 1) dir) dir n).
      split; [exact Hd|]. split; [exact Hfl|]. left. }
    rewrite E in Hin. apply elem_of_nil in Hin. exact Hin.
  - intros q. apply flipLists_onLine.
  - apply Forall_cons in Hall as [(Hv & Ho & Hc) _].
    rewrite <- step_along_1 in Hv, Ho, Hc.
    destruct (readCell (grid b) (step pos dir)) as [piece|] eqn:E; [|discriminate].
    exists dir, piece. split; [exact Hd|].
    rewrite getPiece_run, Hv, E. split; [reflexivity|].
    apply String.eqb_neq. exact Hc.
Qed.

Lemma validMove_flips_some_witness :
  (8 <= 8)%nat /\
  validMove 8 (5, 4) "black" Board_new = (Ret true, Board_new) /\
  gathered 8 Board_new (5, 4) "black" <> [] /\
  (forall q, q ∈ gathered 8 Board_new (5, 4) "black" -> onLine (5, 4) q) /\
  exists dir piece,
    dir ∈ DIRS /\
    getPiece (step (5, 4) dir) Board_new = (Ret (Some piece), Board_new) /\
    Piece.color piece <> "black".
Proof.
  split; [lia|]. split; [reflexivity|].
  apply (validMove_flips_some 8 Board_new (5, 4) "black"); [lia|reflexivity].
Defined.

(** X4: along any sequence of calls made on an 8 by 8 board, the number of
    pieces grows by exactly one at each [placePiece] that returns and at no
    other call; hence at most [64 - pieceCount b] placements return, and at
    most 60 on a new board, which starts with 4 pieces. *)
Theorem pieces_counted (fuel : nat) (b : Board) (cs : list call) :
  (8 <= fuel)%nat -> wf_board b ->
  pieceCount (performAll fuel b cs) = (pieceCount b + placements fuel b cs)%nat /\
  (placements fuel b cs <= 64 - pieceCount b)%nat /\
  pieceCount (performAll fuel Board_new cs) = (4 + placements fuel Board_new cs)%nat /\
  (placements fuel Board_new cs <= 60)%nat.
Proof.
  intros Hf Hwf.
  pose proof (performAll_pieceCount fuel cs Hf b Hwf) as H.
  pose proof (pieceCount_le (performAll fuel b cs)) as Hle.
  pose proof (performAll_pieceCount fuel cs Hf Board_new wf_grid_initial) as H0.
  pose proof (pieceCount_le (performAll fuel Board_new cs)) as Hle0.
  change (pieceCount Board_new) with 4%nat in H0.
  repeat split; lia.
Qed.

Lemma pieces_counted_witness :
  (8 <= 8)%nat /\ wf_board Board_new /\
  pieceCount (performAll 8 Board_new
                [CallPlacePiece (2, 3) "black"; CallPlacePiece (2, 3) "white";
                 CallPlacePiece (2, 2) "white"; CallIsOver]) = 6%nat /\
  placements 8 Board_new
    [CallPlacePiece (2, 3) "black"; CallPlacePiece (2, 3) "white";
     CallPlacePiece (2, 2) "white"; CallIsOver] = 2%nat.
Proof.
  assert (Hwf : wf_board Board_new) by (split; [reflexivity|repeat constructor]).
  split; [lia|]. split; [exact Hwf|].
  pose proof (pieces_counted 8 Board_new
                [CallPlacePiece (2, 3) "black"; CallPlacePiece (2, 3) "white";
                 CallPlacePiece (2, 2) "white"; CallIsOver] (le_n 8) Hwf)
    as (H & _).
  split; [|vm_compute; reflexivity].
  rewrite H. vm_compute. reflexivity.
Defined.

(** X5: once [placePiece] has returned for a position, every later
    [placePiece] at that position, of either colour and after any further
    calls, fails with InvalidMove and leaves the board as it is. *)
Theorem placePiece_once (fuel : nat) (b b1 : Board) (pos : Pos) (color : string) :
  wf_board b -> (8 <= fuel)%nat ->
  placePiece fuel pos color b = (Ret tt, b1) ->
  forall (cs : list call) (color' : string),
    placePiece fuel pos color' (performAll fuel b1 cs) =
    (Throw InvalidMove, performAll fuel b1 cs).
Proof.
  intros Hwf Hf Hrun cs color'.
  destruct (placePiece_outcome fuel pos color b Hwf Hf)
    as [(_ & b0 & Hrun0 & Hb0)|(_ & Hthrow)]; [|congruence].
  assert (b0 = b1) as -> by congruence.
  pose proof (placePiece_keeps fuel pos color b Hwf) as [Hwf1 _].
  rewrite Hrun in Hwf1. cbn [snd] in Hwf1.
  destruct (performAll_keeps fuel cs b1 Hwf1) as [_ Hk].
  specialize (Hb0 pos). rewrite decide_True in Hb0 by reflexivity.
  apply Hk in Hb0 as [n Hn].
  apply placePiece_refuses. right. rewrite Hn. reflexivity.
Qed.

Lemma placePiece_once_witness :
  wf_board Board_new /\ (8 <= 8)%nat /\
  placePiece 8 (2, 3) "black" Board_new = (Ret tt, mkBoard gridAfterBlack_2_3) /\
  placePiece 8 (2, 3) "white"
    (performAll 8 (mkBoard gridAfterBlack_2_3) [CallPlacePiece (2, 2) "white"]) =
  (Throw InvalidMove,
   performAll 8 (mkBoard gridAfterBlack_2_3) [CallPlacePiece (2, 2) "white"]).
Proof.
  assert (Hwf : wf_board Board_new) by (split; [reflexivity|repeat constructor]).
  split; [exact Hwf|]. split; [lia|]. split; [reflexivity|].
  apply (placePiece_once 8 Board_new (mkBoard gridAfterBlack_2_3) (2, 3) "black"
           Hwf (le_n 8) eq_refl).
Defined.

(** ** Having a move, and the end of the game *)

(** X6: [hasMove(color)] returns a boolean, and it returns true exactly
    when [validMove(pos, color)] is true for some position. *)
Theorem hasMove_iff (fuel : nat) (b : Board) (color : string) :
  (8 <= fuel)%nat ->
  (hasMove fuel color b = (Ret true, b) \/ hasMove fuel color b = (Ret false, b)) /\
  (hasMove fuel color b = (Ret true, b) <->
   exists pos, validMove fuel pos color b = (Ret true, b)).
Proof.
  intros Hf. rewrite hasMove_run by exact Hf.
  destruct (existsb (fun pos => legal fuel (grid b) pos color) allCells) eqn:E.
  - split; [left; reflexivity|]. split; [|reflexivity]. intros _.
    apply existsb_true in E as (pos & _ & Hl). exists pos.
    rewrite validMove_run, Hl by exact Hf. reflexivity.
  - split; [right; reflexivity|]. split; [discriminate|].
    intros (pos & Hpos). rewrite validMove_run in Hpos by exact Hf.
    assert (Hl : legal fuel (grid b) pos color = true) by congruence.
    rewrite existsb_false in E.
    rewrite E in Hl; [discriminate|]. apply allCells_onBoard, (legal_onBoard _ _ _ _ Hl).
Qed.

Lemma hasMove_iff_witness :
  (8 <= 8)%nat /\
  (hasMove 8 "white" Board_new = (Ret true, Board_new) <->
   exists pos, validMove 8 pos "white" Board_new = (Ret true, Board_new)).
Proof.
  split; [lia|]. apply (hasMove_iff 8 Board_new "white"). lia.
Defined.

(** X7: [isOver()] returns a boolean, and it returns true exactly when
    [validMove] is false at every position for "white" and for "black". *)
Theorem isOver_iff (fuel : nat) (b : Board) :
  (8 <= fuel)%nat ->
  (isOver fuel b = (Ret true, b) \/ isOver fuel b = (Ret false, b)) /\
  (isOver fuel b = (Ret true, b) <->
   forall pos, validMove fuel pos "white" b = (Ret false, b) /\
               validMove fuel pos "black" b = (Ret false, b)).
Proof.
  intros Hf. rewrite isOver_run by exact Hf.
  assert (Hno : forall color,
            existsb (fun pos => legal fuel (grid b) pos color) allCells = false <->
            forall pos, validMove fuel pos color b = (Ret false, b)).
  { intros color. rewrite existsb_false. split.
    - intros H pos. rewrite validMove_run by exact Hf.
      destruct (legal fuel (grid b) pos color) eqn:Hl; [|reflexivity].
      rewrite H in Hl; [discriminate|].
      apply allCells_onBoard, (legal_onBoard _ _ _ _ Hl).
    - intros H pos _. specialize (H pos). rewrite validMove_run in H by exact Hf.
      congruence. }
  destruct (existsb (fun pos => legal fuel (grid b) pos "white") allCells) eqn:Ew;
    destruct (existsb (fun pos => legal fuel (grid b) pos "black") allCells) eqn:Ek;
    cbn [negb andb].
  - split; [right; reflexivity|]. split; [discriminate|]. intros H.
    pose proof (proj2 (Hno "white") (fun pos => proj1 (H pos))). congruence.
  - split; [right; reflexivity|]. split; [discriminate|]. intros H.
    pose proof (proj2 (Hno "white") (fun pos => proj1 (H pos))). congruence.
  - split; [right; reflexivity|]. split; [discriminate|]. intros H.
    pose proof (proj2 (Hno "black") (fun pos => proj2 (H pos))). congruence.
  - split; [left; reflexivity|]. split; [|reflexivity]. intros _ pos.
    split; [apply (proj1 (Hno "white") Ew)|apply (proj1 (Hno "black") Ek)].
Qed.

Lemma isOver_iff_witness :
  (8 <= 8)%nat /\
  (isOver 8 Board_new = (Ret true, Board_new) \/
   isOver 8 Board_new = (Ret false, Board_new)).
Proof.
  split; [lia|]. apply (isOver_iff 8 Board_new). lia.
Defined.

(** X8: once [isOver()] is true, no sequence of calls changes the board, as
    long as the pieces placed are "white" or "black": every [placePiece]
    fails with InvalidMove. *)
Theorem isOver_frozen (fuel : nat) (b : Board) (cs : list call) :
  (8 <= fuel)%nat ->
  isOver fuel b = (Ret true, b) ->
  Forall twoPlayer cs ->
  performAll fuel b cs = b /\
  forall pos,
    placePiece fuel pos "white" b = (Throw InvalidMove, b) /\
    placePiece fuel pos "black" b = (Throw InvalidMove, b).
Proof.
  intros Hf Hover Hcs. rewrite isOver_run in Hover by exact Hf.
  assert (Hb : negb (existsb (fun pos => legal fuel (grid b) pos "white") allCells) &&
               negb (existsb (fun pos => legal fuel (grid b) pos "black") allCells) = true)
    by congruence.
  apply andb_prop in Hb as [Hw Hk]. apply negb_true_iff in Hw, Hk.
  rewrite existsb_false in Hw, Hk.
  assert (Hno : forall pos color, color = "white" \/ color = "black" ->
            placePiece fuel pos color b = (Throw InvalidMove, b)).
  { intros pos color Hc. rewrite placePiece_steps by exact Hf.
    destruct (legal fuel (grid b) pos color) eqn:Hl; [|reflexivity].
    pose proof (proj2 (allCells_onBoard pos) (legal_onBoard _ _ _ _ Hl)) as Hin.
    destruct Hc as [-> | ->]; [rewrite Hw in Hl|rewrite Hk in Hl];
      (discriminate || exact Hin). }
  split; [|intros pos; split; apply Hno; auto].
  unfold performAll. induction Hcs as [|c cs Hc _ IH]; [reflexivity|].
  cbn [fold_left].
  assert (perform fuel b c = b) as ->; [|exact IH].
  destruct c; cbn [perform twoPlayer] in *;
    rewrite ?getPiece_frame, ?hasMove_frame, ?isMine_frame, ?isOccupied_frame,
      ?isOver_frame, ?isValidPos_frame, ?validMove_frame, ?validMoves_frame;
    try reflexivity.
  rewrite (Hno pos color Hc). reflexivity.
Qed.

(** X9: a colour that no piece on the board has cannot move:
    [validMoves(color)] is empty, [hasMove(color)] is false and
    [placePiece(pos, color)] fails with InvalidMove at every position. *)
Theorem absent_colour_stuck (fuel : nat) (b : Board) (color : string) :
  (8 <= fuel)%nat ->
  (forall q piece, getPiece q b = (Ret (Some piece), b) -> Piece.color piece <> color) ->
  validMoves fuel color b = (Ret [], b) /\
  hasMove fuel color b = (Ret false, b) /\
  forall pos, validMove fuel pos color b = (Ret false, b) /\
              placePiece fuel pos color b = (Throw InvalidMove, b).
Proof.
  intros Hf Habs.
  assert (Hl : forall pos, legal fuel (grid b) pos color = false).
  { intros pos. apply legal_absent. intros q Hv.
    destruct (sameColor (readCell (grid b) q) color) eqn:E; [|reflexivity].
    apply sameColor_true in E as (piece & Hc & Hcol).
    exfalso. apply (Habs q piece); [|exact Hcol].
    rewrite getPiece_run, Hv, Hc. reflexivity. }
  rewrite validMoves_run, hasMove_run by exact Hf.
  rewrite filter_none by exact Hl.
  split; [reflexivity|]. split.
  - f_equal. f_equal. apply existsb_false. intros pos _. apply Hl.
  - intros pos. rewrite validMove_run, placePiece_steps, Hl by exact Hf.
    split; reflexivity.
Qed.

Lemma absent_colour_stuck_witness :
  (8 <= 8)%nat /\
  (forall q piece, getPiece q Board_new = (Ret (Some piece), Board_new) ->
                   Piece.color piece <> "red") /\
  validMoves 8 "red" Board_new = (Ret [], Board_new).
Proof.
  assert (H : forall q piece, getPiece q Board_new = (Ret (Some piece), Board_new) ->
                              Piece.color piece <> "red").
  { intros q piece. rewrite getPiece_run. destruct (onBoard q) eqn:Hv; [|discriminate].
    apply (proj2 (allCells_onBoard q)) in Hv. revert piece.
    assert (Hall : Forall (fun q => forall piece,
                      (Ret (readCell (grid Board_new) q), Board_new) =
                      (Ret (Some piece), Board_new) -> Piece.color piece <> "red")
                     allCells).
    { let l := eval vm_compute in allCells in change allCells with l.
      repeat (constructor; [intros piece Hp; vm_compute in Hp;
                            first [discriminate Hp
                                  |injection Hp as <-; discriminate]|]).
      constructor. }
    rewrite Forall_forall in Hall. apply Hall. exact Hv. }
  split; [lia|]. split; [exact H|].
  apply (absent_colour_stuck 8 Board_new "red" (le_n 8) H).
Defined.

Lemma isOver_frozen_witness :
  let full := mkBoard (replicate 8 (replicate 8 (Some (Piece.new "black")))) in
  (8 <= 8)%nat /\
  isOver 8 full = (Ret true, full) /\
  Forall twoPlayer [CallPlacePiece (0, 0) "white"; CallValidMoves "black"] /\
  performAll 8 full [CallPlacePiece (0, 0) "white"; CallValidMoves "black"] = full.
Proof.
  intros full.
  assert (Hcs : Forall twoPlayer [CallPlacePiece (0, 0) "white"; CallValidMoves "black"])
    by (repeat constructor).
  assert (Hover : isOver 8 full = (Ret true, full)) by (vm_compute; reflexivity).
  split; [lia|]. split; [exact Hover|]. split; [exact Hcs|].
  apply (isOver_frozen 8 full _ (le_n 8) Hover Hcs).
Defined.

(** ** Positions off the board *)

(** X10: for a position outside [0,7]x[0,7], [isOccupied] fails with the
    error of [getPiece], whereas [validMove] returns false and [placePiece]
    fails with InvalidMove; none of them touches the board. *)
Theorem off_board_calls (fuel : nat) (b : Board) (pos : Pos) (color : string) :
  ~ (0 <= pos.1 <= 7 /\ 0 <= pos.2 <= 7) ->
  isValidPos pos b = (Ret false, b) /\
  isOccupied pos b = (Throw NotValidPos, b) /\
  validMove fuel pos color b = (Ret false, b) /\
  placePiece fuel pos color b = (Throw InvalidMove, b).
Proof.
  intros H. apply onBoard_false in H.
  rewrite isValidPos_run, isOccupied_run, H.
  rewrite validMove_refuses, placePiece_refuses by (left; exact H).
  repeat split.
Qed.

Lemma off_board_calls_witness :
  ~ (0 <= (3, 8).1 <= 7 /\ 0 <= (3, 8).2 <= 7) /\
  isOccupied (3, 8) Board_new = (Throw NotValidPos, Board_new) /\
  placePiece 8 (3, 8) "white" Board_new = (Throw InvalidMove, Board_new).
Proof.
  assert (H : ~ (0 <= (3, 8).1 <= 7 /\ 0 <= (3, 8).2 <= 7)) by (cbn; lia).
  split; [exact H|].
  pose proof (off_board_calls 8 Board_new (3, 8) "white" H) as (_ & H1 & _ & H2).
  split; [exact H1|exact H2].
Defined.

(** ** The table of directions *)

(** X11: [Board.DIRS] lists, without repetition, exactly the eight vectors
    whose coordinates are -1, 0 or 1 and that are not the null vector. *)
Theorem DIRS_complete (dir : Pos) :
  NoDup DIRS /\ length DIRS = 8%nat /\
  (dir ∈ DIRS <-> -1 <= dir.1 <= 1 /\ -1 <= dir.2 <= 1 /\ dir <> (0, 0)).
Proof.
  split; [exact NoDup_DIRS|]. split; [reflexivity|]. split; [apply DIRS_unit|].
  destruct dir as [dr dc]. cbn [fst snd]. intros (Hr & Hc & Hne).
  assert (Er : dr = -1 \/ dr = 0 \/ dr = 1) by lia.
  assert (Ec : dc = -1 \/ dc = 0 \/ dc = 1) by lia.
  unfold DIRS. rewrite !elem_of_cons.
  destruct Er as [-> | [-> | ->]], Ec as [-> | [-> | ->]]; try contradiction; tauto.
Qed.

(** ** More on the list of legal moves *)

(** X12: the list that [validMoves(color)] returns has no repetition, each
    of its positions is an empty cell of the board, and so its length is at
    most the number of empty cells. *)
Theorem validMoves_empty_cells (fuel : nat) (b : Board) (color : string)
    (moves : list Pos) :
  (8 <= fuel)%nat ->
  validMoves fuel color b = (Ret moves, b) ->
  NoDup moves /\
  (forall pos, pos ∈ moves -> getPiece pos b = (Ret None, b)) /\
  (length moves + pieceCount b <= 64)%nat.
Proof.
  intros Hf Hrun. rewrite validMoves_run in Hrun by exact Hf.
  assert (moves = List.filter (fun pos => legal fuel (grid b) pos color) allCells)
    as -> by congruence.
  split; [|split].
  - apply NoDup_ListNoDup, List.NoDup_filter, NoDup_ListNoDup, NoDup_allCells.
  - intros pos Hpos. apply list_elem_of_In, List.filter_In in Hpos as [_ Hl].
    apply legal_spec in Hl as (Hv & Ho & _).
    rewrite getPiece_run, Hv. destruct (readCell (grid b) pos); [discriminate|reflexivity].
  - unfold pieceCount.
    pose proof (filter_length_split (fun pos => occupied (readCell (grid b) pos)) allCells)
      as Hsplit.
    rewrite length_allCells in Hsplit.
    pose proof (filter_length_le (fun pos => legal fuel (grid b) pos color)
                  (fun pos => negb (occupied (readCell (grid b) pos))) allCells) as Hle.
    cbv beta in Hle.
    assert (forall x, legal fuel (grid b) x color = true ->
                      negb (occupied (readCell (grid b) x)) = true) as Himp.
    { intros x Hl. apply legal_spec in Hl as (_ & Ho & _). rewrite Ho. reflexivity. }
    specialize (Hle Himp). lia.
Qed.

Lemma validMoves_empty_cells_witness :
  (8 <= 8)%nat /\
  validMoves 8 "white" Board_new = (Ret [(2, 4); (3, 5); (4, 2); (5, 3)], Board_new) /\
  NoDup [(2, 4); (3, 5); (4, 2); (5, 3)] /\
  (forall pos, pos ∈ [(2, 4); (3, 5); (4, 2); (5, 3)] ->
               getPiece pos Board_new = (Ret None, Board_new)) /\
  (length [(2, 4); (3, 5); (4, 2); (5, 3)] + pieceCount Board_new <= 64)%nat.
Proof.
  assert (H : validMoves 8 "white" Board_new =
              (Ret [(2, 4); (3, 5); (4, 2); (5, 3)], Board_new))
    by (vm_compute; reflexivity).
  split; [lia|]. split; [exact H|].
  apply (validMoves_empty_cells 8 Board_new "white" _ (le_n 8) H).
Defined.

(** ** Locality *)

(** X13: whether a move is legal depends only on the cells of the board
    that lie on its row, its column and its two diagonals: on two boards
    that read the same there, [validMove] returns the same. *)
Theorem validMove_local (fuel : nat) (b b' : Board) (pos : Pos) (color : string) :
  (8 <= fuel)%nat ->
  (forall q, onLine pos q -> fst (getPiece q b') = fst (getPiece q b)) ->
  fst (validMove fuel pos color b') = fst (validMove fuel pos color b).
Proof.
  intros Hf H. rewrite !validMove_run by exact Hf. cbn [fst]. f_equal.
  apply legal_local. intros q Hv Hq. specialize (H q Hq).
  rewrite !getPiece_run, Hv in H. cbn [fst] in H. congruence.
Qed.

Lemma validMove_local_witness :
  (8 <= 8)%nat /\
  (forall q, onLine (2, 3) q ->
     fst (getPiece q (mkBoard (writeCell _makeGrid (4, 4) None))) =
     fst (getPiece q Board_new)) /\
  fst (validMove 8 (2, 3) "black" (mkBoard (writeCell _makeGrid (4, 4) None))) =
  fst (validMove 8 (2, 3) "black" Board_new).
Proof.
  assert (H : forall q, onLine (2, 3) q ->
            fst (getPiece q (mkBoard (writeCell _makeGrid (4, 4) None))) =
            fst (getPiece q Board_new)).
  { intros q Hq. rewrite !getPiece_run. destruct (onBoard q); [|reflexivity].
    cbn [fst grid Board_new]. f_equal.
    apply readCell_writeCell_ne; [cbn; lia|cbn; lia|].
    intros ->. unfold onLine in Hq. cbn in Hq. lia. }
  split; [lia|]. split; [exact H|].
  apply (validMove_local 8 Board_new (mkBoard (writeCell _makeGrid (4, 4) None))
           (2, 3) "black" (le_n 8) H).
Defined.
Example validMove_initial_2_3 :
  validMove 8 (2, 3) "black" Board_new = (Ret true, Board_new).
Proof. reflexivity. Qed.

Example validMoves_initial_black :
  fst (validMoves 8 "black" Board_new) = Ret [(2, 3); (3, 2); (4, 5); (5, 4)].
Proof. vm_compute. reflexivity. Qed.


(** After black has played [[2, 3]], the piece at [[3, 3]] is the object it
    was, now black, and the new piece is a fifth object. *)
Example obj_first_move :
  let b := Obj.performAll 8 Obj.Board_new [CallPlacePiece (2, 3) "black"] in
  Obj.readCell Obj.Board_new (3, 3) = Obj.Ref 0 /\
  Obj.pieces Obj.Board_new !! 0%nat = Some (Piece.new "white") /\
  Obj.readCell b (3, 3) = Obj.Ref 0 /\
  Obj.pieces b !! 0%nat = Some (Piece.new "black") /\
  Obj.readCell b (2, 3) = Obj.Ref 4 /\
  Obj.pieces b !! 4%nat = Some (Piece.new "black") /\
  erase b = mkBoard gridAfterBlack_2_3.
Proof. vm_compute. repeat split. Qed.

(** An assignment past the end of a row makes the row longer. *)
Example obj_assign_grows :
  Obj.assign [Obj.Null; Obj.Null] 3 (Obj.Ref 0) =
  [Obj.Null; Obj.Null; Obj.Undefined; Obj.Ref 0].
Proof. reflexivity. Qed.
